(** * QiMatrix: the indoor layout scorer of [frontend/indoor-analysis.js]

    A shallow embedding of [calculateDesignFengShui] and of the five
    functions it calls, followed by the properties the specification
    states about them.  The scorer is written a second time as its
    statements act on a store of objects held by reference, which shows
    what a call reads and what it writes.  Then more of the script: [getRating], the photo
    mode's [simulatePhotoAnalysis], and the operations of the page that
    keep the three globals ([selectMode], [backToSelection],
    [removeElement], [clearCanvas], [updatePlacedItemsList],
    [updateItemCount], [checkUploadComplete], [resetUpload]), with what
    the code shows of them.

    Numbers.  Every JavaScript number is an IEEE-754 binary64 value.  The
    scores are computed with divisions, products and [Math.round], whose
    rounding is visible in the results, so they are embedded as binary64
    values ([spec_float] at precision 53) and every operation on them is
    the correctly rounded one of the standard library.  Array lengths and
    the tallies of items are integers that never exceed the length of an
    array (below 2^32), on which [++], [+], [<] and [===] are exact; they
    are kept in [Z] and injected with [num] where they enter a fractional
    computation. *)

From Stdlib Require Import ZArith QArith Qround List Bool String Ascii Lia Permutation.
From Stdlib Require Import Floats.SpecFloat.
Import ListNotations.

Local Open Scope string_scope.
Local Open Scope Z_scope.

(** ** JavaScript numbers *)

Module JS.

Definition number : Type := spec_float.

Definition prec : Z := 53.
Definition emax : Z := 1024.

Definition NaN : number := S754_nan.

(** The number denoted by an integer literal or held by an integer
    counter. *)
Definition num (z : Z) : number := binary_normalize prec emax z 0 false.

Definition add : number -> number -> number := SFadd prec emax.
Definition sub : number -> number -> number := SFsub prec emax.
Definition mul : number -> number -> number := SFmul prec emax.
Definition div : number -> number -> number := SFdiv prec emax.

(** [a < b], [a <= b] and [a === b]; each is false when an operand is
    [NaN]. *)
Definition lt : number -> number -> bool := SFltb.
Definition le : number -> number -> bool := SFleb.
Definition strict_eq : number -> number -> bool := SFeqb.

(** [Math.abs]. *)
Definition Math_abs : number -> number := SFabs.

(** [Math.max] and [Math.min] of two arguments: [NaN] when either is
    [NaN]; [+0] is larger than [-0]. *)
Definition Math_max (a b : number) : number :=
  match SFcompare a b with
  | None => NaN
  | Some Lt => b
  | Some Gt => a
  | Some Eq => match a with S754_zero true => b | _ => a end
  end.

Definition Math_min (a b : number) : number :=
  match SFcompare a b with
  | None => NaN
  | Some Lt => a
  | Some Gt => b
  | Some Eq => match a with S754_zero false => b | _ => a end
  end.

(** The integer [floor (x + 1/2)] for the finite number
    [x = (-1)^s * m * 2^e], computed exactly. *)
Definition round_half_up (s : bool) (m : positive) (e : Z) : Z :=
  let v := cond_Zopp s (Zpos m) in
  if 0 <=? e then v * 2 ^ e
  else (2 * v + 2 ^ (- e)) / 2 ^ (1 - e).

(** [Math.round]: the integer nearest to [x], a tie going towards
    [+Infinity]; [NaN], the infinities and the zeros are returned as they
    are, and a result of zero keeps the sign of [x]. *)
Definition Math_round (x : number) : number :=
  match x with
  | S754_finite s m e =>
      let n := round_half_up s m e in
      if n =? 0 then S754_zero s else num n
  | _ => x
  end.

(** Decimal literals of the source, each the binary64 number nearest to
    the decimal it is written as. *)
Definition lit_0_2 : number := S754_finite false 7205759403792794 (-55).
Definition lit_0_25 : number := S754_finite false 4503599627370496 (-54).
Definition lit_0_3 : number := S754_finite false 5404319552844595 (-54).
Definition lit_0_4 : number := S754_finite false 7205759403792794 (-54).
Definition lit_0_6 : number := S754_finite false 5404319552844595 (-53).
Definition lit_0_7 : number := S754_finite false 6305039478318694 (-53).

End JS.

Import JS.

Declare Scope js_scope.
Delimit Scope js_scope with js.
Bind Scope js_scope with number.
Infix "+" := add : js_scope.
Infix "-" := sub : js_scope.
Infix "*" := mul : js_scope.
Infix "/" := div : js_scope.
Infix "<" := lt : js_scope.
Infix "<=" := le : js_scope.
Notation "a > b" := (lt b a) : js_scope.
Notation "a >= b" := (le b a) : js_scope.
Infix "===" := strict_eq (at level 70, no associativity) : js_scope.

(** ** The catalogue [elementFengShuiData] *)

Inductive Element : Type := Wood | Fire | Earth | Metal | Water.
Inductive Energy : Type := Yin | Yang | Neutral.

Record FengShuiData : Type := mkData {
  element : Element;
  energy : Energy;
  placement : string;
  bagua : string
}.

Definition elementFengShuiData : list (string * FengShuiData) :=
  [ (* Furniture *)
    ("bed", mkData Earth Yin "important" "relationship");
    ("sofa", mkData Earth Yin "center" "family");
    ("desk", mkData Wood Yang "power" "career");
    ("table", mkData Wood Neutral "center" "health");
    ("chair", mkData Wood Yang "supportive" "support");
    ("wardrobe", mkData Wood Yin "storage" "wealth");
    ("bookshelf", mkData Wood Yang "knowledge" "knowledge");
    ("tv", mkData Fire Yang "entertainment" "fame");
    (* Decor *)
    ("mirror", mkData Water Yang "reflective" "expansion");
    ("painting", mkData Fire Yang "inspiration" "creativity");
    ("clock", mkData Metal Yang "time" "helpful");
    ("vase", mkData Earth Yin "decorative" "peace");
    ("rug", mkData Earth Yin "grounding" "stability");
    ("curtain", mkData Water Yin "privacy" "protection");
    ("window", mkData Metal Yang "openness" "opportunities");
    ("door", mkData Wood Yang "entry" "career");
    ("fountain", mkData Water Yang "flow" "wealth");
    ("crystals", mkData Earth Yang "energy" "clarity");
    (* Plants *)
    ("bamboo", mkData Wood Yang "growth" "prosperity");
    ("plant", mkData Wood Yang "life" "health");
    ("bonsai", mkData Wood Yin "balance" "wisdom");
    ("flowers", mkData Wood Yang "beauty" "love");
    (* Lighting *)
    ("lamp", mkData Fire Yang "illumination" "clarity");
    ("chandelier", mkData Fire Yang "grandeur" "wealth");
    ("candle", mkData Fire Yang "warmth" "passion") ].

(** [elementFengShuiData] is an object literal, so the property read
    [elementFengShuiData[key]] also finds what the object inherits from
    [Object.prototype].  Each inherited member is a function, or for
    [__proto__] the prototype object itself: a truthy value that has
    neither an [element] nor an [energy] property. *)
Definition Object_prototype_keys : list string :=
  [ "constructor"; "hasOwnProperty"; "isPrototypeOf";
    "propertyIsEnumerable"; "toLocaleString"; "toString"; "valueOf";
    "__defineGetter__"; "__defineSetter__"; "__lookupGetter__";
    "__lookupSetter__"; "__proto__" ].

Inductive Property : Type :=
| Own (data : FengShuiData)
| Inherited
| Undefined.

Fixpoint assoc {A : Type} (key : string) (kvs : list (string * A)) : option A :=
  match kvs with
  | [] => None
  | (k, v) :: rest => if String.eqb key k then Some v else assoc key rest
  end.

Definition mem (key : string) (keys : list string) : bool :=
  existsb (String.eqb key) keys.

Definition get (key : string) : Property :=
  match assoc key elementFengShuiData with
  | Some data => Own data
  | None => if mem key Object_prototype_keys then Inherited else Undefined
  end.

(** ** Placed items and the result of an analysis *)

Record PlacedItem : Type := mkItem {
  id : string;
  type : string;
  x : number;
  y : number;
  icon : string
}.

(** The object [{ wood: 0, fire: 0, earth: 0, metal: 0, water: 0 }].  The
    update [elementCounts[data.element]++] with [data.element] undefined
    creates a sixth property, named ["undefined"], after the five others. *)
Record ElementCounts : Type := mkCounts {
  wood : Z;
  fire : Z;
  earth : Z;
  metal : Z;
  water : Z;
  counts_undefined : option number
}.

(** The object [{ yin: 0, yang: 0 }], with the same extra property. *)
Record EnergyBalance : Type := mkEnergy {
  yin : Z;
  yang : Z;
  energy_undefined : option number
}.

Record IndoorAnalysis : Type := mkAnalysis {
  overallScore : number;
  elementBalance : number;
  energyScore : number;
  spacialScore : number;
  functionalScore : number;
  elementCounts : ElementCounts;
  energyBalance : EnergyBalance;
  recommendations : list string
}.

(** ** [calculateDesignFengShui] and its helpers *)

(** [obj[key]++] on a property that may be absent: an absent property
    reads as [undefined], which [++] converts to [NaN]. *)
Definition post_increment (v : option number) : option number :=
  Some (match v with Some n => n | None => NaN end + num 1)%js.

Definition increment_element (key : option Element) (c : ElementCounts) : ElementCounts :=
  match key with
  | Some Wood => mkCounts (wood c + 1) (fire c) (earth c) (metal c) (water c) (counts_undefined c)
  | Some Fire => mkCounts (wood c) (fire c + 1) (earth c) (metal c) (water c) (counts_undefined c)
  | Some Earth => mkCounts (wood c) (fire c) (earth c + 1) (metal c) (water c) (counts_undefined c)
  | Some Metal => mkCounts (wood c) (fire c) (earth c) (metal c + 1) (water c) (counts_undefined c)
  | Some Water => mkCounts (wood c) (fire c) (earth c) (metal c) (water c + 1) (counts_undefined c)
  | None => mkCounts (wood c) (fire c) (earth c) (metal c) (water c)
              (post_increment (counts_undefined c))
  end.

(** The two keys of [energyBalance], and the key
    [data.energy === 'neutral' ? 'yin' : data.energy] of a catalogue
    entry. *)
Inductive EnergyKey : Type := key_yin | key_yang.

Definition energy_key (e : Energy) : EnergyKey :=
  match e with
  | Neutral => key_yin
  | Yin => key_yin
  | Yang => key_yang
  end.

Definition increment_energy (key : option EnergyKey) (b : EnergyBalance) : EnergyBalance :=
  match key with
  | Some key_yin => mkEnergy (yin b + 1) (yang b) (energy_undefined b)
  | Some key_yang => mkEnergy (yin b) (yang b + 1) (energy_undefined b)
  | None => mkEnergy (yin b) (yang b) (post_increment (energy_undefined b))
  end.

(** The body of the [forEach] callback.  The guard [if (data)] lets an
    inherited member through; its [element] and [energy] are
    [undefined]. *)
Definition tally (acc : ElementCounts * EnergyBalance) (item : PlacedItem)
  : ElementCounts * EnergyBalance :=
  let '(elementCounts, energyBalance) := acc in
  match get (type item) with
  | Own data =>
      (increment_element (Some (element data)) elementCounts,
       increment_energy (Some (energy_key (energy data))) energyBalance)
  | Inherited =>
      (increment_element None elementCounts,
       increment_energy None energyBalance)
  | Undefined => acc
  end.

(** [Object.values(counts)], in the order the properties were created. *)
Definition Object_values (counts : ElementCounts) : list number :=
  [num (wood counts); num (fire counts); num (earth counts);
   num (metal counts); num (water counts)]
  ++ match counts_undefined counts with Some v => [v] | None => [] end.

Definition calculateElementBalanceScore (counts : ElementCounts) : number :=
  let total := fold_left (fun a b => a + b)%js (Object_values counts) (num 0) in
  if (total === num 0)%js then num 0 else
  (* Ideal is balanced distribution *)
  let ideal := (total / num 5)%js in
  let variance :=
    fold_left (fun sum count => sum + Math_abs (count - ideal))%js
              (Object_values counts) (num 0) in
  let score := Math_max (num 0) (num 100 - (variance / total) * num 50)%js in
  Math_round score.

Definition calculateEnergyBalanceScore (energy : EnergyBalance) : number :=
  let total := yin energy + yang energy in
  if total =? 0 then num 50 else
  let ratio := (num (yang energy) / num total)%js in
  (* Ideal ratio is 40-60% yang *)
  if (ratio >= lit_0_4)%js && (ratio <= lit_0_6)%js then num 100
  else if (ratio >= lit_0_3)%js && (ratio <= lit_0_7)%js then num 80
  else num 60.

Definition calculateSpacialScore (elements : list PlacedItem) : number :=
  (* Check for clutter (too many elements in small space) *)
  let elementDensity := Z.of_nat (List.length elements) in
  if elementDensity <? 5 then num 90
  else if elementDensity <? 10 then num 85
  else if elementDensity <? 15 then num 75
  else if elementDensity <? 20 then num 65
  else num 50. (* Too cluttered *)

(** [types.includes(t)]. *)
Definition includes (types : list string) (t : string) : bool :=
  existsb (String.eqb t) types.

Definition calculateFunctionalScore (elements : list PlacedItem) (roomType : string)
  : number :=
  let types := map type elements in
  let score := num 70 in (* Base score *)
  let score :=
    (* Room-specific requirements *)
    if String.eqb roomType "bedroom" then
      let score := if includes types "bed" then (score + num 10)%js else score in
      let score := if includes types "plant" then (score + num 5)%js else score in
      let score := if includes types "mirror" && includes types "bed"
                   then (score - num 10)%js else score in (* Mirror facing bed is bad *)
      let score := if includes types "lamp" then (score + num 5)%js else score in
      score
    else if String.eqb roomType "living" then
      let score := if includes types "sofa" then (score + num 10)%js else score in
      let score := if includes types "plant" then (score + num 5)%js else score in
      let score := if includes types "lamp" || includes types "chandelier"
                   then (score + num 5)%js else score in
      score
    else if String.eqb roomType "office" then
      let score := if includes types "desk" then (score + num 10)%js else score in
      let score := if includes types "chair" then (score + num 5)%js else score in
      let score := if includes types "plant" then (score + num 5)%js else score in
      let score := if includes types "bookshelf" then (score + num 5)%js else score in
      score
    else score in
  Math_min (num 100) score.

(** [recommendations.push(msg)]. *)
Definition push (recommendations : list string) (msg : string) : list string :=
  recommendations ++ [msg].

(** [placed.some(e => e.type === t)]. *)
Definition some_of_type (placed : list PlacedItem) (t : string) : bool :=
  existsb (fun e => String.eqb (type e) t) placed.

Definition msg_wood := "Add more wood elements (plants, furniture) for growth energy".
Definition msg_fire := "Include fire elements (candles, red colors) for passion and warmth".
Definition msg_water := "Add water elements (fountain, mirror) for flow and prosperity".
Definition msg_earth := "Incorporate earth elements (crystals, pottery) for stability".
Definition msg_metal := "Include metal elements (clocks, metal frames) for clarity".
Definition msg_too_yang := "Balance yang energy with softer, yin elements (curtains, rugs)".
Definition msg_too_yin := "Add more yang energy with lighting and active elements".
Definition msg_plants := "Add plants for fresh air and positive energy".
Definition msg_mirror := "⚠️ Avoid placing mirrors directly facing the bed".
Definition msg_declutter := "Consider decluttering - too many items can block energy flow".
Definition msg_good := "✓ Your room design shows good feng shui balance!".

Definition generateRecommendations (elements : ElementCounts) (energy : EnergyBalance)
    (placed : list PlacedItem) (roomType : string) : list string :=
  let recommendations := [] in
  (* Element recommendations *)
  let recommendations :=
    if wood elements <? 2 then push recommendations msg_wood else recommendations in
  let recommendations :=
    if fire elements =? 0 then push recommendations msg_fire else recommendations in
  let recommendations :=
    if water elements =? 0 then push recommendations msg_water else recommendations in
  let recommendations :=
    if earth elements <? 2 then push recommendations msg_earth else recommendations in
  let recommendations :=
    if metal elements =? 0 then push recommendations msg_metal else recommendations in
  (* Energy recommendations *)
  let totalEnergy := yin energy + yang energy in
  let yangRatio := (num (yang energy) / num totalEnergy)%js in
  let recommendations :=
    if (yangRatio > lit_0_7)%js then push recommendations msg_too_yang
    else if (yangRatio < lit_0_3)%js then push recommendations msg_too_yin
    else recommendations in
  (* Room-specific *)
  let recommendations :=
    if String.eqb roomType "bedroom" then
      let recommendations :=
        if negb (some_of_type placed "plant") then push recommendations msg_plants
        else recommendations in
      let recommendations :=
        if some_of_type placed "mirror" then push recommendations msg_mirror
        else recommendations in
      recommendations
    else recommendations in
  let recommendations :=
    if Z.of_nat (List.length placed) >? 15 then push recommendations msg_declutter
    else recommendations in
  let recommendations :=
    if Nat.eqb (List.length recommendations) 0 then push recommendations msg_good
    else recommendations in
  recommendations.

Definition calculateDesignFengShui (elements : list PlacedItem) (roomType : string)
  : IndoorAnalysis :=
  (* Calculate element balance *)
  let '(elementCounts, energyBalance) :=
    fold_left tally elements (mkCounts 0 0 0 0 0 None, mkEnergy 0 0 None) in
  (* Calculate scores *)
  let elementBalance := calculateElementBalanceScore elementCounts in
  let energyScore := calculateEnergyBalanceScore energyBalance in
  let spacialScore := calculateSpacialScore elements in
  let functionalScore := calculateFunctionalScore elements roomType in
  let overallScore :=
    Math_round (elementBalance * lit_0_3 + energyScore * lit_0_25
                + spacialScore * lit_0_25 + functionalScore * lit_0_2)%js in
  mkAnalysis overallScore elementBalance energyScore spacialScore functionalScore
             elementCounts energyBalance
             (generateRecommendations elementCounts energyBalance elements roomType).


(** ** The rest of the page that bears on the scorer

    The script keeps three mutable globals, and the photo mode draws its
    scores from [Math.random].  An operation of the page is run in a
    world made of the globals and of the numbers [Math.random] is still
    to return. *)

Record Globals : Type := mkGlobals {
  currentMode : option string;
  placedElements : list PlacedItem;
  uploadedPhotos : list (string * option string)
}.

Record World : Type := mkWorld {
  globals : Globals;
  random_tape : nat -> number
}.

Definition Eff (A : Type) : Type := World -> A * World.

Definition ret {A : Type} (a : A) : Eff A := fun w => (a, w).

Definition bind {A B : Type} (c : Eff A) (k : A -> Eff B) : Eff B :=
  fun w => let '(a, w') := c w in k a w'.

(** [Math.random()]: the next number of the tape. *)
Definition Math_random : Eff number :=
  fun w => (random_tape w O, mkWorld (globals w) (fun n => random_tape w (S n))).

Definition read_uploadedPhotos : Eff (list (string * option string)) :=
  fun w => (uploadedPhotos (globals w), w).

(** [Math.floor]. *)
Definition Math_floor (x : number) : number :=
  match x with
  | S754_finite s m e =>
      let v := cond_Zopp s (Zpos m) in
      let n := if 0 <=? e then v * 2 ^ e else v / 2 ^ (- e) in
      if n =? 0 then S754_zero s else num n
  | _ => x
  end.

Record PhotoAnalysis : Type := mkPhoto {
  photo_overallScore : number;
  lighting : number;
  spaceFlow : number;
  colorHarmony : number;
  furniture : number;
  declutter : number;
  photo_recommendations : list string
}.

Definition simulatePhotoAnalysis : Eff PhotoAnalysis :=
  bind read_uploadedPhotos (fun photos =>
  (* Simulate AI analysis results *)
  let photoCount :=
    Z.of_nat (List.length (filter (fun p => match snd p with Some _ => true | None => false end)
                                  photos)) in
  (* Base score on number of photos *)
  let baseScore := (num 60 + num photoCount * num 5)%js in
  (* Random variation for demo *)
  bind Math_random (fun r0 =>
  let variation := (Math_floor (r0 * num 15) - num 7)%js in
  let overallScore := Math_min (num 100) (Math_max (num 50) (baseScore + variation)%js) in
  bind Math_random (fun r1 =>
  bind Math_random (fun r2 =>
  bind Math_random (fun r3 =>
  bind Math_random (fun r4 =>
  bind Math_random (fun r5 =>
  ret (mkPhoto overallScore
         (Math_floor (r1 * num 20) + num 75)%js
         (Math_floor (r2 * num 20) + num 70)%js
         (Math_floor (r3 * num 20) + num 65)%js
         (Math_floor (r4 * num 20) + num 70)%js
         (Math_floor (r5 * num 20) + num 60)%js
         [ "Consider adding more natural light sources";
           "Balance the five elements with appropriate colors";
           "Ensure clear pathways for qi energy flow";
           "Position furniture to face auspicious directions";
           "Add plants for wood element energy" ])))))))).

(** ** The scorer in the store

    JavaScript objects and arrays are held by reference.  The scorer is
    handed the array of placed items, makes three objects of its own
    ([elementCounts], [energyBalance] and the array [recommendations]),
    updates them in place, and returns an object that refers to them.
    Here its six functions are written once more, statement by statement,
    as they act on a store: the world of the script (its three globals
    and the numbers [Math.random] is still to return) together with the
    objects that exist, each at its reference.  Every read of a property
    of an object that came from elsewhere is a load, every update a
    store, every object or array literal an allocation.

    The catalogue [elementFengShuiData] is a [const] whose object the
    script never updates (its one use is the lookup in
    [calculateDesignFengShui]), so the lookup stays [get].  The placed
    items are kept in the array that holds them. *)

Definition Ref : Type := nat.

(** The objects the scorer meets. *)
Inductive Object : Type :=
| items_array (items : list PlacedItem)
| counts_object (counts : ElementCounts)
| energy_object (energy : EnergyBalance)
| strings_array (strings : list string).

Record Store : Type := mkStore {
  world : World;
  heap : list Object
}.

(** A run either returns a value and the store it leaves, or does not
    return ([None]): a reference that holds no object of the kind the
    statement needs. *)
Definition Run (A : Type) : Type := Store -> option (A * Store).

Definition run_ret {A : Type} (a : A) : Run A := fun s => Some (a, s).

Definition run_bind {A B : Type} (c : Run A) (k : A -> Run B) : Run B :=
  fun s => match c s with
           | Some (a, s') => k a s'
           | None => None
           end.

Definition stuck {A : Type} : Run A := fun _ => None.

Declare Scope run_scope.
Delimit Scope run_scope with run.
Notation "x <- c ;; k" := (run_bind c (fun x => k))
  (at level 61, c at next level, right associativity) : run_scope.
Notation "c ;; k" := (run_bind c (fun _ => k))
  (at level 61, right associativity) : run_scope.

(** An operation on the world alone: a read or a write of a global, a
    call of [Math.random]. *)
Definition on_world {A : Type} (c : Eff A) : Run A :=
  fun s => let '(a, w) := c (world s) in Some (a, mkStore w (heap s)).

(** An object or array literal: a new object, at a reference not in use. *)
Definition alloc (o : Object) : Run Ref :=
  fun s => Some (List.length (heap s), mkStore (world s) (heap s ++ [o])).

Definition load (r : Ref) : Run Object :=
  fun s => match nth_error (heap s) r with
           | Some o => Some (o, s)
           | None => None
           end.

Fixpoint update (objects : list Object) (r : Ref) (o : Object) : list Object :=
  match objects, r with
  | [], _ => []
  | _ :: rest, O => o :: rest
  | first :: rest, S r => first :: update rest r o
  end.

Definition store (r : Ref) (o : Object) : Run unit :=
  fun s => match nth_error (heap s) r with
           | Some _ => Some (tt, mkStore (world s) (update (heap s) r o))
           | None => None
           end.

Definition load_items (r : Ref) : Run (list PlacedItem) :=
  (o <- load r ;; match o with items_array items => run_ret items | _ => stuck end)%run.

Definition load_counts (r : Ref) : Run ElementCounts :=
  (o <- load r ;; match o with counts_object counts => run_ret counts | _ => stuck end)%run.

Definition load_energy (r : Ref) : Run EnergyBalance :=
  (o <- load r ;; match o with energy_object energy => run_ret energy | _ => stuck end)%run.

Definition load_strings (r : Ref) : Run (list string) :=
  (o <- load r ;; match o with strings_array strings => run_ret strings | _ => stuck end)%run.

(** [array.forEach(callbackfn)]: the length is read once, each element
    when its turn comes, and an index the array no longer has is
    skipped. *)
Fixpoint forEach_from (array : Ref) (k : nat) (remaining : nat)
    (callbackfn : PlacedItem -> Run unit) : Run unit :=
  match remaining with
  | O => run_ret tt
  | S remaining =>
      (items <- load_items array ;;
       match nth_error items k with
       | Some item => callbackfn item
       | None => run_ret tt
       end ;;
       forEach_from array (S k) remaining callbackfn)%run
  end.

Definition run_forEach (array : Ref) (callbackfn : PlacedItem -> Run unit) : Run unit :=
  (items <- load_items array ;;
   forEach_from array 0 (List.length items) callbackfn)%run.

(** [elementCounts[key]++] and [energyBalance[key]++]. *)
Definition run_increment_element (elementCounts : Ref) (key : option Element) : Run unit :=
  (counts <- load_counts elementCounts ;;
   store elementCounts (counts_object (increment_element key counts)))%run.

Definition run_increment_energy (energyBalance : Ref) (key : option EnergyKey) : Run unit :=
  (energy <- load_energy energyBalance ;;
   store energyBalance (energy_object (increment_energy key energy)))%run.

(** The [forEach] callback of [calculateDesignFengShui], a closure over
    the two objects it updates. *)
Definition run_tally (elementCounts energyBalance : Ref) (item : PlacedItem) : Run unit :=
  match get (type item) with
  | Own data =>
      (run_increment_element elementCounts (Some (element data)) ;;
       run_increment_energy energyBalance (Some (energy_key (energy data))))%run
  | Inherited =>
      (run_increment_element elementCounts None ;;
       run_increment_energy energyBalance None)%run
  | Undefined => run_ret tt
  end.

(** The score functions. *)
Definition run_calculateElementBalanceScore (counts : Ref) : Run number :=
  (object <- load_counts counts ;;
   let total := fold_left (fun a b => a + b)%js (Object_values object) (num 0) in
   if (total === num 0)%js then run_ret (num 0) else
   (* Ideal is balanced distribution *)
   let ideal := (total / num 5)%js in
   object <- load_counts counts ;;
   let variance :=
     fold_left (fun sum count => sum + Math_abs (count - ideal))%js
               (Object_values object) (num 0) in
   let score := Math_max (num 0) (num 100 - (variance / total) * num 50)%js in
   run_ret (Math_round score))%run.

Definition run_calculateEnergyBalanceScore (energy : Ref) : Run number :=
  (object <- load_energy energy ;;
   let total := yin object + yang object in
   if total =? 0 then run_ret (num 50) else
   object <- load_energy energy ;;
   let ratio := (num (yang object) / num total)%js in
   (* Ideal ratio is 40-60% yang *)
   if (ratio >= lit_0_4)%js && (ratio <= lit_0_6)%js then run_ret (num 100)
   else if (ratio >= lit_0_3)%js && (ratio <= lit_0_7)%js then run_ret (num 80)
   else run_ret (num 60))%run.

Definition run_calculateSpacialScore (elements : Ref) : Run number :=
  (array <- load_items elements ;;
   (* Check for clutter (too many elements in small space) *)
   let elementDensity := Z.of_nat (List.length array) in
   if elementDensity <? 5 then run_ret (num 90)
   else if elementDensity <? 10 then run_ret (num 85)
   else if elementDensity <? 15 then run_ret (num 75)
   else if elementDensity <? 20 then run_ret (num 65)
   else run_ret (num 50))%run. (* Too cluttered *)

(** [elements.map(e => e.type)] makes the array [types], which only this
    call holds. *)
Definition run_calculateFunctionalScore (elements : Ref) (roomType : string) : Run number :=
  (array <- load_items elements ;;
   let types := map type array in
   let score := num 70 in (* Base score *)
   let score :=
     (* Room-specific requirements *)
     if String.eqb roomType "bedroom" then
       let score := if includes types "bed" then (score + num 10)%js else score in
       let score := if includes types "plant" then (score + num 5)%js else score in
       let score := if includes types "mirror" && includes types "bed"
                    then (score - num 10)%js else score in (* Mirror facing bed is bad *)
       let score := if includes types "lamp" then (score + num 5)%js else score in
       score
     else if String.eqb roomType "living" then
       let score := if includes types "sofa" then (score + num 10)%js else score in
       let score := if includes types "plant" then (score + num 5)%js else score in
       let score := if includes types "lamp" || includes types "chandelier"
                    then (score + num 5)%js else score in
       score
     else if String.eqb roomType "office" then
       let score := if includes types "desk" then (score + num 10)%js else score in
       let score := if includes types "chair" then (score + num 5)%js else score in
       let score := if includes types "plant" then (score + num 5)%js else score in
       let score := if includes types "bookshelf" then (score + num 5)%js else score in
       score
     else score in
   run_ret (Math_min (num 100) score))%run.

(** [recommendations.push(msg)]. *)
Definition run_push (recommendations : Ref) (msg : string) : Run unit :=
  (strings <- load_strings recommendations ;;
   store recommendations (strings_array (push strings msg)))%run.

(** [if (condition) statement], without [else]. *)
Definition when (condition : bool) (statement : Run unit) : Run unit :=
  if condition then statement else run_ret tt.

Definition run_generateRecommendations (elements energy placed : Ref) (roomType : string)
  : Run Ref :=
  (recommendations <- alloc (strings_array []) ;;
   (* Element recommendations *)
   counts <- load_counts elements ;;
   when (wood counts <? 2) (run_push recommendations msg_wood) ;;
   counts <- load_counts elements ;;
   when (fire counts =? 0) (run_push recommendations msg_fire) ;;
   counts <- load_counts elements ;;
   when (water counts =? 0) (run_push recommendations msg_water) ;;
   counts <- load_counts elements ;;
   when (earth counts <? 2) (run_push recommendations msg_earth) ;;
   counts <- load_counts elements ;;
   when (metal counts =? 0) (run_push recommendations msg_metal) ;;
   (* Energy recommendations *)
   balance <- load_energy energy ;;
   let totalEnergy := yin balance + yang balance in
   balance <- load_energy energy ;;
   let yangRatio := (num (yang balance) / num totalEnergy)%js in
   (if (yangRatio > lit_0_7)%js then run_push recommendations msg_too_yang
    else if (yangRatio < lit_0_3)%js then run_push recommendations msg_too_yin
    else run_ret tt) ;;
   (* Room-specific *)
   (if String.eqb roomType "bedroom" then
      items <- load_items placed ;;
      when (negb (some_of_type items "plant")) (run_push recommendations msg_plants) ;;
      items <- load_items placed ;;
      when (some_of_type items "mirror") (run_push recommendations msg_mirror)
    else run_ret tt) ;;
   items <- load_items placed ;;
   when (Z.of_nat (List.length items) >? 15) (run_push recommendations msg_declutter) ;;
   strings <- load_strings recommendations ;;
   when (Nat.eqb (List.length strings) 0) (run_push recommendations msg_good) ;;
   run_ret recommendations)%run.

(** The object [calculateDesignFengShui] returns: five numbers and three
    references. *)
Record AnalysisObject : Type := mkAnalysisObject {
  object_overallScore : number;
  object_elementBalance : number;
  object_energyScore : number;
  object_spacialScore : number;
  object_functionalScore : number;
  object_elementCounts : Ref;
  object_energyBalance : Ref;
  object_recommendations : Ref
}.

Definition run_calculateDesignFengShui (elements : Ref) (roomType : string)
  : Run AnalysisObject :=
  ((* Calculate element balance *)
   elementCounts <- alloc (counts_object (mkCounts 0 0 0 0 0 None)) ;;
   energyBalance <- alloc (energy_object (mkEnergy 0 0 None)) ;;
   run_forEach elements (run_tally elementCounts energyBalance) ;;
   (* Calculate scores *)
   elementBalance <- run_calculateElementBalanceScore elementCounts ;;
   energyScore <- run_calculateEnergyBalanceScore energyBalance ;;
   spacialScore <- run_calculateSpacialScore elements ;;
   functionalScore <- run_calculateFunctionalScore elements roomType ;;
   let overallScore :=
     Math_round (elementBalance * lit_0_3 + energyScore * lit_0_25
                 + spacialScore * lit_0_25 + functionalScore * lit_0_2)%js in
   recommendations <- run_generateRecommendations elementCounts energyBalance elements
                        roomType ;;
   run_ret (mkAnalysisObject overallScore elementBalance energyScore spacialScore
              functionalScore elementCounts energyBalance recommendations))%run.

(** ** [getRating] *)

Record Rating : Type := mkRating {
  text : string;
  color : string
}.

Definition getRating (score : number) : Rating :=
  if (score >= num 90)%js then mkRating "Excellent Feng Shui!" "#10b981"
  else if (score >= num 75)%js then mkRating "Good Balance" "#3b82f6"
  else if (score >= num 60)%js then mkRating "Fair - Room for Improvement" "#f59e0b"
  else mkRating "Needs Improvement" "#ef4444".

(** ** The page: mode selection, the canvas and the upload slots

    The script reads and writes the document through the DOM.  What the
    document answers is not the script's to decide, so every DOM call is
    an interaction: the script asks, and goes on with whatever answer it
    gets.  Taking a property of [null] throws a [TypeError], which nothing
    in the script catches: the running function and its callers stop, and
    the globals stay as they are at that point. *)

(** The globals as the script declares them. *)
Definition initial_globals : Globals :=
  mkGlobals None []
    [("north", None); ("south", None); ("east", None); ("west", None); ("floor", None)].

(** A DOM node is known by its identity only. *)
Definition Node : Type := nat.

(** The values the script hands to the DOM. *)
Inductive Value : Type :=
| Str (s : string)
| Num (n : number)
| Bool (b : bool).

(** The calls the script makes, each with the type of its answer:
    [document.getElementById(id)], [document.querySelector(selectors)],
    [scope.querySelectorAll(selectors)], the assignment
    [target.p1.p2 = value] and the method call [target.m1.m2(arguments)]
    whose result is not used. *)
Inductive DomCall : Type -> Type :=
| getElementById (id : string) : DomCall (option Node)
| querySelector (selectors : string) : DomCall (option Node)
| querySelectorAll (scope : Node) (selectors : string) : DomCall (list Node)
| assign (target : Node) (property : list string) (value : Value) : DomCall unit
| invoke (target : Node) (method : list string) (arguments : list Value) : DomCall unit.

(** How a function ends: it returns with the globals as they then are,
    or it throws. *)
Inductive Outcome (A : Type) : Type :=
| Completed (a : A) (g : Globals)
| TypeError (g : Globals).
Arguments Completed {A} a g.
Arguments TypeError {A} g.

Inductive Script (A : Type) : Type :=
| Stop (o : Outcome A)
| Ask (X : Type) (call : DomCall X) (k : X -> Script A).
Arguments Stop {A} o.
Arguments Ask {A X} call k.

Definition Page (A : Type) : Type := Globals -> Script A.

Fixpoint script_bind {A B : Type} (s : Script A) (f : A -> Page B) : Script B :=
  match s with
  | Stop (Completed a g) => f a g
  | Stop (TypeError g) => Stop (TypeError g)
  | Ask call k => Ask call (fun x => script_bind (k x) f)
  end.

Definition page_bind {A B : Type} (c : Page A) (f : A -> Page B) : Page B :=
  fun g => script_bind (c g) f.

Definition page_ret {A : Type} (a : A) : Page A := fun g => Stop (Completed a g).
Definition throw {A : Type} : Page A := fun g => Stop (TypeError g).
Definition ask {X : Type} (call : DomCall X) : Page X :=
  fun g => Ask call (fun x => Stop (Completed x g)).
Definition get_globals : Page Globals := fun g => Stop (Completed g g).
Definition set_globals (g : Globals) : Page unit := fun _ => Stop (Completed tt g).

Declare Scope page_scope.
Delimit Scope page_scope with page.
Notation "x <- c ;; k" := (page_bind c (fun x => k))
  (at level 61, c at next level, right associativity) : page_scope.
Notation "c ;; k" := (page_bind c (fun _ => k))
  (at level 61, right associativity) : page_scope.

(** The node an expression denotes, where a property of it is taken:
    [null] has none. *)
Definition deref (o : option Node) : Page Node :=
  match o with
  | Some n => page_ret n
  | None => throw
  end.

(** [list.forEach(f)]. *)
Fixpoint forEach {X : Type} (l : list X) (f : X -> Page unit) : Page unit :=
  match l with
  | [] => page_ret tt
  | x :: rest => (f x ;; forEach rest f)%page
  end.

(** The double quote and the line feed of the markup. *)
Definition quot : string := String "034"%char EmptyString.
Definition newline : string := String "010"%char EmptyString.

(** The template literal of [updatePlacedItemsList]: the markup of one
    entry of the list of placed items. *)
Definition placed_item_html (item : PlacedItem) : string :=
  newline ++ "        <div class=" ++ quot ++ "placed-item" ++ quot ++ ">" ++
  newline ++ "            <span class=" ++ quot ++ "item-icon" ++ quot ++ ">"
          ++ icon item ++ "</span>" ++
  newline ++ "            <span class=" ++ quot ++ "item-name" ++ quot ++ ">"
          ++ type item ++ "</span>" ++
  newline ++ "            <button class=" ++ quot ++ "remove-item-btn" ++ quot
          ++ " onclick=" ++ quot ++ "removeElement('" ++ id item ++ "')" ++ quot
          ++ ">×</button>" ++
  newline ++ "        </div>" ++
  newline ++ "    ".

Definition updatePlacedItemsList : Page unit :=
  (list <- ask (getElementById "placedItemsList") ;;
   g <- get_globals ;;
   if Nat.eqb (List.length (placedElements g)) 0 then
     list <- deref list ;;
     ask (assign list ["innerHTML"]
            (Str ("<p class=" ++ quot ++ "empty-list" ++ quot ++ ">No items placed yet</p>")))
   else
     list <- deref list ;;
     ask (assign list ["innerHTML"]
            (Str (String.concat "" (map placed_item_html (placedElements g))))))%page.

Definition updateItemCount : Page unit :=
  (itemCount <- ask (getElementById "itemCount") ;;
   itemCount <- deref itemCount ;;
   g <- get_globals ;;
   ask (assign itemCount ["textContent"]
          (Num (num (Z.of_nat (List.length (placedElements g)))))))%page.

Definition removeElement (elementId : string) : Page unit :=
  (element <- ask (getElementById elementId) ;;
   match element with
   | Some element => ask (invoke element ["remove"] [])
   | None => page_ret tt
   end ;;
   g <- get_globals ;;
   set_globals (mkGlobals (currentMode g)
                  (filter (fun el => negb (String.eqb (id el) elementId)) (placedElements g))
                  (uploadedPhotos g)) ;;
   updatePlacedItemsList ;;
   updateItemCount ;;
   g <- get_globals ;;
   if Nat.eqb (List.length (placedElements g)) 0 then
     guide <- ask (querySelector ".canvas-guide") ;;
     guide <- deref guide ;;
     ask (assign guide ["style"; "display"] (Str "flex"))
   else page_ret tt)%page.

Definition clearCanvas : Page unit :=
  (canvas <- ask (getElementById "roomCanvas") ;;
   canvas <- deref canvas ;;
   elements <- ask (querySelectorAll canvas ".placed-element") ;;
   forEach elements (fun el => ask (invoke el ["remove"] [])) ;;
   g <- get_globals ;;
   set_globals (mkGlobals (currentMode g) [] (uploadedPhotos g)) ;;
   updatePlacedItemsList ;;
   updateItemCount ;;
   guide <- ask (querySelector ".canvas-guide") ;;
   guide <- deref guide ;;
   ask (assign guide ["style"; "display"] (Str "flex")) ;;
   designResults <- ask (getElementById "designResults") ;;
   designResults <- deref designResults ;;
   ask (assign designResults ["style"; "display"] (Str "none")))%page.

Definition checkUploadComplete : Page unit :=
  (g <- get_globals ;;
   let uploadCount :=
     Z.of_nat (List.length (filter (fun photo => match snd photo with
                                                  | Some _ => true
                                                  | None => false
                                                  end)
                                   (uploadedPhotos g))) in
   btn <- ask (getElementById "analyzePhotosBtn") ;;
   btn <- deref btn ;;
   if 3 <=? uploadCount then ask (assign btn ["disabled"] (Bool false))
   else ask (assign btn ["disabled"] (Bool true)))%page.

(** The body of the [forEach] callback of [resetUpload]. *)
Definition reset_slot (dir : string) : Page unit :=
  (input <- ask (getElementById ("photo" ++ dir)) ;;
   preview <- ask (getElementById ("preview" ++ dir)) ;;
   label <- ask (getElementById ("label" ++ dir)) ;;
   match input with
   | Some input => ask (assign input ["value"] (Str ""))
   | None => page_ret tt
   end ;;
   match preview with
   | Some preview =>
       ask (assign preview ["innerHTML"] (Str "")) ;;
       ask (assign preview ["style"; "display"] (Str "none"))
   | None => page_ret tt
   end ;;
   match label with
   | Some label =>
       ask (assign label ["textContent"] (Str "Click to Upload")) ;;
       ask (assign label ["style"; "background"] (Str ""))
   | None => page_ret tt
   end)%page.

Definition resetUpload : Page unit :=
  (g <- get_globals ;;
   set_globals (mkGlobals (currentMode g) (placedElements g)
                  [("north", None); ("south", None); ("east", None); ("west", None);
                   ("floor", None)]) ;;
   forEach ["North"; "South"; "East"; "West"; "Floor"] reset_slot ;;
   btn <- ask (getElementById "analyzePhotosBtn") ;;
   btn <- deref btn ;;
   ask (assign btn ["disabled"] (Bool true)) ;;
   uploadResults <- ask (getElementById "uploadResults") ;;
   uploadResults <- deref uploadResults ;;
   ask (assign uploadResults ["style"; "display"] (Str "none")))%page.

Definition selectMode (mode : string) : Page unit :=
  (g <- get_globals ;;
   set_globals (mkGlobals (Some mode) (placedElements g) (uploadedPhotos g)) ;;
   modeSelection <- ask (getElementById "modeSelection") ;;
   modeSelection <- deref modeSelection ;;
   ask (invoke modeSelection ["classList"; "remove"] [Str "active"]) ;;
   if String.eqb mode "design" then
     designMode <- ask (getElementById "designMode") ;;
     designMode <- deref designMode ;;
     ask (invoke designMode ["classList"; "add"] [Str "active"])
   else if String.eqb mode "upload" then
     uploadMode <- ask (getElementById "uploadMode") ;;
     uploadMode <- deref uploadMode ;;
     ask (invoke uploadMode ["classList"; "add"] [Str "active"])
   else page_ret tt)%page.

Definition backToSelection : Page unit :=
  (g <- get_globals ;;
   set_globals (mkGlobals None (placedElements g) (uploadedPhotos g)) ;;
   modeSelection <- ask (getElementById "modeSelection") ;;
   modeSelection <- deref modeSelection ;;
   ask (invoke modeSelection ["classList"; "add"] [Str "active"]) ;;
   designMode <- ask (getElementById "designMode") ;;
   designMode <- deref designMode ;;
   ask (invoke designMode ["classList"; "remove"] [Str "active"]) ;;
   uploadMode <- ask (getElementById "uploadMode") ;;
   uploadMode <- deref uploadMode ;;
   ask (invoke uploadMode ["classList"; "remove"] [Str "active"]) ;;
   clearCanvas ;;
   resetUpload)%page.

(** ** Vocabulary of the specification *)

(** How an item's type stands in the catalogue. *)
Definition catalogued (it : PlacedItem) : bool :=
  match get (type it) with Own _ => true | _ => false end.

Definition inherits (it : PlacedItem) : bool :=
  match get (type it) with Inherited => true | _ => false end.

Definition Element_eqb (a b : Element) : bool :=
  match a, b with
  | Wood, Wood | Fire, Fire | Earth, Earth | Metal, Metal | Water, Water => true
  | _, _ => false
  end.

Definition has_element (el : Element) (it : PlacedItem) : bool :=
  match get (type it) with Own data => Element_eqb (element data) el | _ => false end.

Definition is_yang (it : PlacedItem) : bool :=
  match get (type it) with
  | Own data => match energy data with Yang => true | _ => false end
  | _ => false
  end.

Definition is_yin_or_neutral (it : PlacedItem) : bool :=
  match get (type it) with
  | Own data => match energy data with Yang => false | _ => true end
  | _ => false
  end.

(** The number of items of a list that satisfy [p]. *)
Definition count (p : PlacedItem -> bool) (items : list PlacedItem) : Z :=
  Z.of_nat (List.length (filter p items)).

(** The integer a number stands for, when it stands for one. *)
Definition int_of (x : number) : option Z :=
  match x with
  | S754_zero _ => Some 0
  | S754_finite s m e =>
      let v := cond_Zopp s (Zpos m) in
      if 0 <=? e then Some (v * 2 ^ e)
      else if v mod 2 ^ (- e) =? 0 then Some (v / 2 ^ (- e)) else None
  | _ => None
  end.

(** The rational a finite number stands for. *)
Definition to_Q (x : number) : option Q :=
  match x with
  | S754_zero _ => Some 0%Q
  | S754_finite s m e => Some (inject_Z (cond_Zopp s (Zpos m)) * Qpower 2 e)%Q
  | _ => None
  end.

(** Rounding to the nearest integer, a tie going up, in exact
    arithmetic. *)
Definition Qround_half_up (q : Q) : Z := Qfloor (q + (1 # 2))%Q.

(** The specification's
    [round(0.30*elementBalance + 0.25*energyScore + 0.25*spacialScore
           + 0.20*functionalScore)], in exact arithmetic. *)
Definition weighted_round (elementBalance energyScore spacialScore functionalScore : Z) : Z :=
  Qround_half_up
    ((30 # 100) * inject_Z elementBalance + (25 # 100) * inject_Z energyScore
     + (25 # 100) * inject_Z spacialScore + (20 # 100) * inject_Z functionalScore)%Q.

(** The specification's element balance, in exact arithmetic: 100 minus
    [k] times the summed absolute deviation of the five counts from the
    even split [total / 5], normalised by [total], floored at 0. *)
Definition Qabs' (q : Q) : Q := if Qle_bool 0 q then q else (- q)%Q.
Definition Qmax' (a b : Q) : Q := if Qle_bool a b then b else a.

Definition elementBalance_as_stated (k : Q) (counts : list Z) (total : Z) : Q :=
  let even := (inject_Z total / 5)%Q in
  let deviation :=
    fold_left (fun acc c => acc + Qabs' (inject_Z c - even))%Q counts 0%Q in
  Qmax' 0 (100 - k * (deviation / inject_Z total))%Q.

(** A number and a rational that denote the same value. *)
Definition agrees (x : number) (q : Q) : bool :=
  match to_Q x with Some v => Qeq_bool v q | None => false end.

(** The element balance the code computes from five counts of which at
    least one is positive: the formula of [calculateElementBalanceScore]
    over the numbers [num wood], ..., [num water], every operation being
    the binary64 one and the deviations being summed in the order wood,
    fire, earth, metal, water. *)
Definition balance_of_counts (w f e m wa : Z) : number :=
  let total := num (w + f + e + m + wa) in
  let ideal := (total / num 5)%js in
  let variance :=
    (num 0 + Math_abs (num w - ideal) + Math_abs (num f - ideal)
     + Math_abs (num e - ideal) + Math_abs (num m - ideal)
     + Math_abs (num wa - ideal))%js in
  Math_round (Math_max (num 0) (num 100 - (variance / total) * num 50)%js).

(** "Near 0" on the scale of 0 to 100, read generously: at most 10. *)
Definition near_zero (x : number) : bool := (x <= num 10)%js.

(** The three-tier bucket of the yang share [y / t], in exact
    arithmetic. *)
Definition energy_tier (y t : Z) : Z :=
  if (2 * t <=? 5 * y) && (5 * y <=? 3 * t) then 100
  else if (3 * t <=? 10 * y) && (10 * y <=? 7 * t) then 80
  else 60.

(** The additive form of the functional score. *)
Definition bonus (present : bool) (points : Z) : Z := if present then points else 0.

Definition functional_points (roomType : string) (has : string -> bool) : Z :=
  70 +
  if String.eqb roomType "bedroom" then
    bonus (has "bed") 10 + bonus (has "plant") 5
    - bonus (has "mirror" && has "bed") 10 + bonus (has "lamp") 5
  else if String.eqb roomType "living" then
    bonus (has "sofa") 10 + bonus (has "plant") 5
    + bonus (has "lamp" || has "chandelier") 5
  else if String.eqb roomType "office" then
    bonus (has "desk") 10 + bonus (has "chair") 5 + bonus (has "plant") 5
    + bonus (has "bookshelf") 5
  else 0.

(** The recommendations as a table of rules: each rule looks at the
    inputs by itself and has one message. *)
Record Rule : Type := mkRule {
  fires : ElementCounts -> EnergyBalance -> list PlacedItem -> string -> bool;
  message : string
}.

Definition yangRatio (energy : EnergyBalance) : number :=
  (num (yang energy) / num (yin energy + yang energy))%js.

Definition element_rules : list Rule :=
  [ mkRule (fun c _ _ _ => wood c <? 2) msg_wood;
    mkRule (fun c _ _ _ => fire c =? 0) msg_fire;
    mkRule (fun c _ _ _ => water c =? 0) msg_water;
    mkRule (fun c _ _ _ => earth c <? 2) msg_earth;
    mkRule (fun c _ _ _ => metal c =? 0) msg_metal ].

Definition energy_rules : list Rule :=
  [ mkRule (fun _ e _ _ => (yangRatio e > lit_0_7)%js) msg_too_yang;
    mkRule (fun _ e _ _ => (yangRatio e < lit_0_3)%js) msg_too_yin ].

Definition room_rules : list Rule :=
  [ mkRule (fun _ _ placed roomType =>
              String.eqb roomType "bedroom" && negb (some_of_type placed "plant"))
           msg_plants;
    mkRule (fun _ _ placed roomType =>
              String.eqb roomType "bedroom" && some_of_type placed "mirror")
           msg_mirror ].

Definition clutter_rules : list Rule :=
  [ mkRule (fun _ _ placed _ => Z.of_nat (List.length placed) >? 15) msg_declutter ].

Definition fired (rules : list Rule) (c : ElementCounts) (e : EnergyBalance)
    (placed : list PlacedItem) (roomType : string) : list string :=
  map message (filter (fun r => fires r c e placed roomType) rules).

(** Structural equality of numbers, which unlike [===] tells [NaN] equal
    to itself and [+0] different from [-0]. *)
Definition same_number (a b : number) : bool :=
  match a, b with
  | S754_zero s, S754_zero t => Bool.eqb s t
  | S754_infinity s, S754_infinity t => Bool.eqb s t
  | S754_nan, S754_nan => true
  | S754_finite s m e, S754_finite t n f => Bool.eqb s t && Pos.eqb m n && Z.eqb e f
  | _, _ => false
  end.

(** An integer score between 0 and 100. *)
Definition in_0_100 (x : number) : Prop := exists n, 0 <= n <= 100 /\ x = num n.

Definition item (t : string) : PlacedItem := mkItem "element_0" t (num 0) (num 0) "".

(** The overall score of four integer sub-scores, as the code computes
    it. *)
Definition overall_of (b e s f : Z) : number :=
  Math_round (num b * lit_0_3 + num e * lit_0_25 + num s * lit_0_25
              + num f * lit_0_2)%js.

(** The values the four sub-scores can take when they are numbers. *)
Definition balance_values : list Z := map Z.of_nat (seq 0 101).
Definition energy_values : list Z := [50; 60; 80; 100].
Definition spacial_values : list Z := [90; 85; 75; 65; 50].
Definition functional_values : list Z := [70; 75; 80; 85; 90; 95].

(** On every combination of these values, the binary64 computation of
    the overall score returns the exactly rounded weighted sum, which lies
    between 0 and 100. *)
Definition overall_exact (b e s f : Z) : bool :=
  same_number (overall_of b e s f) (num (weighted_round b e s f))
  && (0 <=? weighted_round b e s f) && (weighted_round b e s f <=? 100).

(** An item whose type the catalogue lookup leaves [undefined]: neither
    an entry of the catalogue nor a name inherited from
    [Object.prototype]. *)
Definition unknown (it : PlacedItem) : bool :=
  match get (type it) with Undefined => true | _ => false end.

(** The ten rules, in the order of the pushes. *)
Definition all_rules : list Rule :=
  (element_rules ++ energy_rules ++ room_rules ++ clutter_rules)%list.

(** The four ratings, from the worst to the best. *)
Definition stars (r : Rating) : Z :=
  if String.eqb (text r) "Excellent Feng Shui!" then 3
  else if String.eqb (text r) "Good Balance" then 2
  else if String.eqb (text r) "Fair - Room for Improvement" then 1
  else 0.

(** What [Math.random] may return: a binary64 number [r] with
    [0 <= r && r < 1]. *)
Definition is_random (r : number) : bool :=
  valid_binary prec emax r && (num 0 <= r)%js && (r < num 1)%js.

(** A slot of [uploadedPhotos] that holds a photo ([p !== null]). *)
Definition has_photo (p : string * option string) : bool :=
  match snd p with Some _ => true | None => false end.

(** *** Runs of the page

    A call made and the answer it got. *)
Inductive Event : Type :=
| Asked (X : Type) (call : DomCall X) (answer : X).
Arguments Asked {X} call answer.

Definition globals_of {A : Type} (o : Outcome A) : Globals :=
  match o with
  | Completed _ g => g
  | TypeError g => g
  end.

Definition completed {A : Type} (o : Outcome A) : Prop :=
  match o with
  | Completed _ _ => True
  | TypeError _ => False
  end.

(** [runs P s past]: whatever the document answers, the run of [s] after
    the calls [past] ends with a sequence of calls and an outcome that
    satisfy [P]. *)
Fixpoint runs {A : Type} (P : list Event -> Outcome A -> Prop) (s : Script A)
    (past : list Event) : Prop :=
  match s with
  | Stop o => P past o
  | Ask call k => forall x, runs P (k x) (past ++ [Asked call x])%list
  end.

(** In the run [tr], the element [document.getElementById(id)] was found
    and its [property] was given the value [v]. *)
Definition assigned (tr : list Event) (id : string) (property : list string) (v : Value)
  : Prop :=
  exists n : Node,
    In (Asked (getElementById id) (Some n)) tr /\ In (Asked (assign n property v) tt) tr.

(** [tr] continues [past]. *)
Definition extends (past tr : list Event) : Prop := forall e, In e past -> In e tr.

(** One run: the document answers by [document]. *)
Fixpoint execute {A : Type} (document : forall X, DomCall X -> X) (s : Script A)
    (past : list Event) : list Event * Outcome A :=
  match s with
  | Stop o => (past, o)
  | Ask call k =>
      execute document (k (document _ call)) (past ++ [Asked call (document _ call)])%list
  end.

(** A document that has every element the script looks up, the canvas
    holding two placed elements; and a document that has none. *)
Definition full_page : forall X, DomCall X -> X :=
  fun X call =>
    match call in DomCall X return X with
    | getElementById _ => Some 1%nat
    | querySelector _ => Some 2%nat
    | querySelectorAll _ _ => [3%nat; 4%nat]
    | assign _ _ _ => tt
    | invoke _ _ _ => tt
    end.

Definition empty_page : forall X, DomCall X -> X :=
  fun X call =>
    match call in DomCall X return X with
    | getElementById _ => None
    | querySelector _ => None
    | querySelectorAll _ _ => []
    | assign _ _ _ => tt
    | invoke _ _ _ => tt
    end.

(** Whether an item of type [t] is among the placed items. *)
Definition present (elements : list PlacedItem) (t : string) : bool :=
  if in_dec string_dec t (map type elements) then true else false.

(** What an analysis object holds, its three references followed in a
    given heap. *)
Definition contents (objects : list Object) (a : AnalysisObject) : option IndoorAnalysis :=
  match nth_error objects (object_elementCounts a),
        nth_error objects (object_energyBalance a),
        nth_error objects (object_recommendations a) with
  | Some (counts_object counts), Some (energy_object energy), Some (strings_array strings) =>
      Some (mkAnalysis (object_overallScore a) (object_elementBalance a)
              (object_energyScore a) (object_spacialScore a) (object_functionalScore a)
              counts energy strings)
  | _, _, _ => None
  end.

(** Two stores that hold the same array of items and differ in
    everything else. *)
Definition quiet_store : Store :=
  mkStore (mkWorld (mkGlobals None [] []) (fun _ => num 0))
          [items_array [item "bed"; item "lamp"]].

Definition busy_store : Store :=
  mkStore (mkWorld (mkGlobals (Some "design") [item "tv"] [("north", Some "photo")])
                   (fun _ => lit_0_7))
          [strings_array ["kept"]; items_array [item "tv"];
           items_array [item "bed"; item "lamp"]].

(** ** Predicates on numbers used by the proofs *)

(** The results of the rounding function carry the sign it is given. *)
Inductive signed (s : bool) : number -> Prop :=
| signed_zero : signed s (S754_zero s)
| signed_inf : signed s (S754_infinity s)
| signed_fin m e : signed s (S754_finite s m e).

(** [NaN], or a number whose sign bit is clear. *)
Inductive nan_or_nonneg : number -> Prop :=
| nn_nan : nan_or_nonneg NaN
| nn_signed x : signed false x -> nan_or_nonneg x.

(** What is known of [100 - q] when [q] is not negative. *)
Inductive at_most_100 : number -> Prop :=
| am_nan : at_most_100 NaN
| am_zero s : at_most_100 (S754_zero s)
| am_neg_inf : at_most_100 (S754_infinity true)
| am_neg m e : at_most_100 (S754_finite true m e)
| am_pos m e : e <= -46 -> Zpos m <= 100 * 2 ^ (- e) ->
    at_most_100 (S754_finite false m e).

(** The binary64 representation of a positive integer below 2^53: the
    mantissa is the integer shifted to 53 bits. *)
Definition canonical (v : positive) : number :=
  let d := Zpos (digits2_pos v) in
  S754_finite false (Z.to_pos (Zpos v * 2 ^ (53 - d))) (d - 53).

(** Counts as the tallying loop leaves them: not negative, with or without
    the [NaN] count. *)
Definition tallied (c : ElementCounts) : Prop :=
  0 <= wood c /\ 0 <= fire c /\ 0 <= earth c /\ 0 <= metal c /\ 0 <= water c /\
  (counts_undefined c = None \/ counts_undefined c = Some NaN).

(** * Properties *)

(** ** The embedding at work *)

(** The literals are the binary64 numbers nearest to their decimals: the
    correctly rounded quotients. *)
Example literals_nearest :
  (num 1 / num 5)%js = lit_0_2 /\ (num 1 / num 4)%js = lit_0_25 /\
  (num 3 / num 10)%js = lit_0_3 /\ (num 2 / num 5)%js = lit_0_4 /\
  (num 3 / num 5)%js = lit_0_6 /\ (num 7 / num 10)%js = lit_0_7.
Proof. vm_compute. repeat split. Qed.

(** [Math.round] sends a tie upwards and keeps the sign of a zero. *)
Example Math_round_ties :
  Math_round (num 5 / num 2)%js = num 3 /\
  Math_round (num (-5) / num 2)%js = num (-2) /\
  Math_round lit_0_4 = S754_zero false /\
  Math_round (num (-1) / num 2)%js = S754_zero true /\
  Math_round (num 155 / num 2)%js = num 78.
Proof. vm_compute. repeat split. Qed.

(** The empty room: element balance 0, energy 50, space 90, function 70,
    overall [round (0 + 12.5 + 22.5 + 14) = 49], and the five element
    prompts. *)
Example empty_room :
  calculateDesignFengShui [] "living" =
  mkAnalysis (num 49) (num 0) (num 50) (num 90) (num 70)
    (mkCounts 0 0 0 0 0 None) (mkEnergy 0 0 None)
    [msg_wood; msg_fire; msg_water; msg_earth; msg_metal].
Proof. vm_compute. reflexivity. Qed.

(** Scenario C: a bedroom with a bed and a mirror.  The bed adds 10, the
    mirror with the bed takes 10 off, and the mirror warning is given. *)
Example bedroom_with_bed_and_mirror :
  let r := calculateDesignFengShui [item "bed"; item "mirror"] "bedroom" in
  functionalScore r = num 70 /\
  functionalScore (calculateDesignFengShui [item "bed"] "bedroom") = num 80 /\
  In msg_mirror (recommendations r).
Proof. vm_compute. repeat split. tauto. Qed.

(** ** Binary64 arithmetic on the numbers the scorer meets *)

Section Rounding.

(** The number of binary digits of a positive integer, and the powers of
    two that enclose it. *)
Lemma digits2_pos_size p : digits2_pos p = Pos.size p.
Proof. induction p; simpl; congruence. Qed.

Lemma digits_lower p : 2 ^ (Zpos (digits2_pos p) - 1) <= Zpos p.
Proof.
  rewrite digits2_pos_size.
  pose proof (Pos.size_le p) as H.
  assert (Zpos (2 ^ Pos.size p) <= Zpos p~0) by exact H.
  rewrite Pos2Z.inj_pow in H0.
  replace (Zpos (Pos.size p)) with (Zpos (Pos.size p) - 1 + 1) in H0 by lia.
  rewrite Z.pow_add_r in H0 by lia. lia.
Qed.

Lemma digits_upper p : Zpos p < 2 ^ Zpos (digits2_pos p).
Proof.
  rewrite digits2_pos_size.
  pose proof (Pos.size_gt p) as H.
  assert (Zpos p < Zpos (2 ^ Pos.size p)) by exact H.
  now rewrite Pos2Z.inj_pow in H0.
Qed.

(** The number of digits is determined by the enclosing powers of two. *)
Lemma digits_unique p d : 2 ^ (d - 1) <= Zpos p < 2 ^ d -> 0 < d -> Zpos (digits2_pos p) = d.
Proof.
  intros [Hl Hu] Hd.
  pose proof (digits_lower p). pose proof (digits_upper p).
  set (k := Zpos (digits2_pos p)) in *.
  assert (0 < k) by (unfold k; lia).
  destruct (Z.lt_trichotomy k d) as [Hlt|[Heq|Hgt]]; auto.
  - assert (2 ^ k <= 2 ^ (d - 1)) by (apply Z.pow_le_mono_r; lia). lia.
  - assert (2 ^ d <= 2 ^ (k - 1)) by (apply Z.pow_le_mono_r; lia). lia.
Qed.

(** [iter_pos] applies its function as many times as its counter says. *)
Lemma iter_pos_nat {A} (f : A -> A) p x : iter_pos f p x = Nat.iter (Pos.to_nat p) f x.
Proof.
  revert x; induction p; intros x; simpl iter_pos.
  - rewrite !IHp. rewrite Pos2Nat.inj_xI.
    replace (S (2 * Pos.to_nat p))%nat with (Pos.to_nat p + (Pos.to_nat p + 1))%nat by lia.
    rewrite !Nat.iter_add. simpl. reflexivity.
  - rewrite !IHp. rewrite Pos2Nat.inj_xO.
    replace (2 * Pos.to_nat p)%nat with (Pos.to_nat p + Pos.to_nat p)%nat by lia.
    rewrite Nat.iter_add. reflexivity.
  - reflexivity.
Qed.

(** One right shift of a mantissa that is not negative: the bit that
    leaves becomes the round bit, and the former round and sticky bits
    merge into the sticky bit. *)
Lemma shr_1_spec m r s : 0 <= m ->
  shr_1 (Build_shr_record m r s) = Build_shr_record (m / 2) (Z.odd m) (r || s).
Proof.
  intros Hm. destruct m as [|p|p]; try lia.
  - reflexivity.
  - destruct p; simpl shr_1.
    + f_equal. rewrite Pos2Z.inj_xI. apply Z.div_unique with 1; lia.
    + f_equal. rewrite Pos2Z.inj_xO. apply Z.div_unique with 0; lia.
    + reflexivity.
Qed.

(** The record after [k] one-bit shifts of an exact record. *)
Lemma shr_iter_spec k m : 0 <= m ->
  let mrs := Nat.iter k shr_1 (Build_shr_record m false false) in
  shr_m mrs = m / 2 ^ Z.of_nat k /\
  (shr_r mrs || shr_s mrs = false <-> m mod 2 ^ Z.of_nat k = 0).
Proof.
  intros Hm. induction k.
  - simpl. rewrite Z.div_1_r, Z.mod_1_r. tauto.
  - cbn zeta in *. rewrite Nat.iter_succ.
    destruct (Nat.iter k shr_1 _) as [m' r' s'] eqn:E. simpl in IHk.
    destruct IHk as [Hm' Hex].
    assert (0 <= m') by (subst m'; apply Z.div_pos; lia).
    rewrite shr_1_spec by assumption. cbn [shr_m shr_r shr_s].
    rewrite Nat2Z.inj_succ, Z.pow_succ_r by lia.
    assert (Hp : 0 < 2 ^ Z.of_nat k) by (apply Z.pow_pos_nonneg; lia).
    split.
    + subst m'. rewrite Z.div_div by lia. f_equal. lia.
    + rewrite orb_false_iff. rewrite Hex.
      rewrite <- Z.negb_even, negb_false_iff, Z.even_spec.
      subst m'. split.
      * intros [[q Hq] H0].
        apply Z.div_exact in H0; try lia.
        rewrite H0, Hq. rewrite Z.mul_comm.
        replace (2 * q * 2 ^ Z.of_nat k) with (q * (2 * 2 ^ Z.of_nat k)) by lia.
        apply Z.mod_mul. lia.
      * intros H0. apply Z.div_exact in H0; try lia.
        set (q := m / (2 * 2 ^ Z.of_nat k)) in *.
        assert (m / 2 ^ Z.of_nat k = 2 * q).
        { rewrite H0. replace (2 * 2 ^ Z.of_nat k * q) with (2 * q * 2 ^ Z.of_nat k) by lia.
          apply Z.div_mul. lia. }
        split. exists q. lia.
        rewrite H0. replace (2 * 2 ^ Z.of_nat k * q) with (2 * q * 2 ^ Z.of_nat k) by lia.
        apply Z.mod_mul. lia.
Qed.

(** Aligning a mantissa to a smaller exponent multiplies it by a power
    of two. *)
Lemma iter_xO_spec m d : Zpos (Pos.iter xO m d) = Zpos m * 2 ^ Zpos d.
Proof.
  change (Pos.iter xO m d) with (shift_pos d m).
  rewrite shift_pos_correct, Zpower_pos_nat, Zpower_nat_Z, positive_nat_Z. lia.
Qed.

Lemma shl_align_spec m e e' :
  shl_align m e e' =
  if e' <? e then (Z.to_pos (Zpos m * 2 ^ (e - e')), e') else (m, e).
Proof.
  unfold shl_align. destruct (Z.ltb_spec e' e) as [H|H].
  - destruct (e' - e) as [|d|d] eqn:E; try lia.
    f_equal. replace (e - e') with (Zpos d) by lia.
    rewrite <- iter_xO_spec. reflexivity.
  - destruct (e' - e) as [|d|d] eqn:E; try lia; reflexivity.
Qed.

(** The exponent of the last place of a binary64 number of [e] digits
    before the binary point. *)
Lemma fexp_eq e : fexp prec emax e = Z.max (e - 53) (-1074).
Proof. reflexivity. Qed.

(** A right shift by [n] places, starting from an exact record: the
    mantissa is divided by [2^n], and the record stays exact just when the
    division leaves no remainder. *)
Lemma shr_spec m e n : 0 <= m ->
  let '(mrs, e') := shr (Build_shr_record m false false) e n in
  shr_m mrs = m / 2 ^ Z.max n 0 /\ e' = e + Z.max n 0 /\
  (shr_r mrs || shr_s mrs = false <-> m mod 2 ^ Z.max n 0 = 0).
Proof.
  intros Hm. unfold shr. destruct n as [|p|p].
  - simpl. rewrite Z.div_1_r, Z.mod_1_r, Z.add_0_r. tauto.
  - rewrite iter_pos_nat.
    pose proof (shr_iter_spec (Pos.to_nat p) m Hm) as H. cbn zeta in H.
    rewrite positive_nat_Z in H.
    replace (Z.max (Zpos p) 0) with (Zpos p) by lia. tauto.
  - simpl. rewrite Z.div_1_r, Z.mod_1_r, Z.add_0_r. tauto.
Qed.

(** A mantissa that is not negative stays so through shifts and
    rounding. *)
Lemma shr_1_nonneg mrs : 0 <= shr_m mrs -> 0 <= shr_m (shr_1 mrs).
Proof.
  destruct mrs as [m r s]. simpl. intros H.
  destruct m as [|[p|p|]|p]; simpl; lia.
Qed.

Lemma shr_nonneg mrs e n : 0 <= shr_m mrs -> 0 <= shr_m (fst (shr mrs e n)).
Proof.
  intros H. unfold shr. destruct n; simpl; auto.
  rewrite iter_pos_nat. induction (Pos.to_nat p); simpl; auto using shr_1_nonneg.
Qed.

Lemma shr_record_of_loc_m m l : shr_m (shr_record_of_loc m l) = m.
Proof. destruct l as [|[]]; reflexivity. Qed.

Lemma round_nearest_even_nonneg m l : 0 <= m -> 0 <= round_nearest_even m l.
Proof. intros H. destruct l as [|[]]; simpl; try lia. destruct (Z.even m); lia. Qed.

Lemma round_nearest_even_le m l : m <= round_nearest_even m l <= m + 1.
Proof. destruct l as [|[]]; simpl; try lia. destruct (Z.even m); lia. Qed.


(** Rounding keeps the sign it is given, and never makes [NaN]. *)
Lemma binary_round_aux_signed s m e l : 0 <= m -> signed s (binary_round_aux prec emax s m e l).
Proof.
  intros Hm. unfold binary_round_aux, shr_fexp.
  destruct (shr (shr_record_of_loc m l) e _) as [mrs' e'] eqn:E1.
  assert (H1 : 0 <= shr_m mrs').
  { change mrs' with (fst (mrs', e')). rewrite <- E1. apply shr_nonneg.
    now rewrite shr_record_of_loc_m. }
  destruct (shr (shr_record_of_loc _ loc_Exact) e' _) as [mrs'' e''] eqn:E2.
  assert (H2 : 0 <= shr_m mrs'').
  { change mrs'' with (fst (mrs'', e'')). rewrite <- E2. apply shr_nonneg.
    rewrite shr_record_of_loc_m. now apply round_nearest_even_nonneg. }
  destruct (shr_m mrs'') as [|p|p]; try lia.
  - constructor.
  - destruct (e'' <=? emax - prec); constructor.
Qed.

Lemma binary_round_signed s m e : signed s (binary_round prec emax s m e).
Proof.
  unfold binary_round. destruct (shl_align m e _) as [mz ez].
  apply binary_round_aux_signed. lia.
Qed.

(** A mantissa whose dropped bits are all zero is rounded without
    error. *)
Lemma loc_of_shr_record_exact mrs :
  shr_r mrs || shr_s mrs = false -> loc_of_shr_record mrs = loc_Exact.
Proof. destruct mrs as [m [] []]; simpl; intros; congruence. Qed.

Lemma digits_quotient m q n : 0 <= n -> Zpos m = Zpos q * 2 ^ n ->
  Zpos (digits2_pos m) = Zpos (digits2_pos q) + n.
Proof.
  intros Hn Hm. apply digits_unique; [|lia].
  pose proof (digits_lower q). pose proof (digits_upper q).
  assert (0 < 2 ^ n) by (apply Z.pow_pos_nonneg; lia).
  replace (Zpos (digits2_pos q) + n - 1) with (Zpos (digits2_pos q) - 1 + n) by lia.
  rewrite !Z.pow_add_r by lia. rewrite Hm. nia.
Qed.

Lemma binary_round_aux_exact s m e :
  let E := fexp prec emax (Zpos (digits2_pos m) + e) in
  e <= E -> Zpos m mod 2 ^ (E - e) = 0 -> E <= 971 ->
  binary_round_aux prec emax s (Zpos m) e loc_Exact =
  S754_finite s (Z.to_pos (Zpos m / 2 ^ (E - e))) E.
Proof.
  intros E HE Hmod Hmax.
  assert (Hp : 0 < 2 ^ (E - e)) by (apply Z.pow_pos_nonneg; lia).
  assert (Hq : Zpos m = Zpos m / 2 ^ (E - e) * 2 ^ (E - e)).
  { rewrite (Z.div_mod (Zpos m) (2 ^ (E - e))) at 1 by lia. lia. }
  assert (Hq0 : 0 < Zpos m / 2 ^ (E - e)) by nia.
  destruct (Zpos m / 2 ^ (E - e)) as [|q|q] eqn:Eq; try lia.
  unfold binary_round_aux, shr_fexp.
  cbn [Zdigits2 shr_record_of_loc]. fold E.
  pose proof (shr_spec (Zpos m) e (E - e) ltac:(lia)) as H1.
  destruct (shr _ e (E - e)) as [mrs' e'].
  replace (Z.max (E - e) 0) with (E - e) in H1 by lia.
  destruct H1 as (H1m & H1e & H1x).
  rewrite loc_of_shr_record_exact by (apply H1x; exact Hmod).
  rewrite H1m, Eq. cbn [round_nearest_even Zdigits2 shr_record_of_loc].
  assert (HE2 : fexp prec emax (Zpos (digits2_pos q) + e') = E).
  { unfold E. f_equal. rewrite (digits_quotient m q (E - e)); lia. }
  rewrite HE2. replace (E - e') with 0 by lia.
  cbn [shr shr_m]. subst e'. replace (e + (E - e)) with E by lia.
  replace (E <=? emax - prec) with true by (symmetry; apply Z.leb_le; unfold emax, prec; lia).
  reflexivity.
Qed.


(** An integer below 2^53 held with [k] trailing zero bits rounds to
    the integer itself, in its 53-bit form. *)
Lemma binary_round_int s v k : Zpos v < 2 ^ 53 -> 0 <= k ->
  binary_round prec emax s (Z.to_pos (Zpos v * 2 ^ k)) (- k) =
  let d := Zpos (digits2_pos v) in
  S754_finite s (Z.to_pos (Zpos v * 2 ^ (53 - d))) (d - 53).
Proof.
  intros Hv Hk. cbn zeta.
  set (d := Zpos (digits2_pos v)).
  assert (Hd : 0 < d <= 53).
  { split; [unfold d; lia|].
    pose proof (digits_lower v). fold d in H.
    destruct (Z.le_gt_cases d 53); auto.
    assert (2 ^ 53 <= 2 ^ (d - 1)) by (apply Z.pow_le_mono_r; lia). lia. }
  assert (Hpk : 0 < 2 ^ k) by (apply Z.pow_pos_nonneg; lia).
  set (m := Z.to_pos (Zpos v * 2 ^ k)).
  assert (Hm : Zpos m = Zpos v * 2 ^ k) by (unfold m; rewrite Z2Pos.id; nia).
  assert (Hdm : Zpos (digits2_pos m) = d + k) by (apply digits_quotient; auto).
  unfold binary_round. rewrite shl_align_spec.
  rewrite Hdm, fexp_eq.
  replace (d + k + - k) with d by lia.
  replace (Z.max (d - 53) (-1074)) with (d - 53) by lia.
  destruct (Z.ltb_spec (d - 53) (- k)) as [Hlt|Hge].
  - (* the mantissa is widened to 53 bits *)
    set (m' := Z.to_pos (Zpos m * 2 ^ (- k - (d - 53)))).
    assert (Hp' : 0 < 2 ^ (- k - (d - 53))) by (apply Z.pow_pos_nonneg; lia).
    assert (Hm' : Zpos m' = Zpos v * 2 ^ (53 - d)).
    { unfold m'. rewrite Z2Pos.id by nia. rewrite Hm.
      rewrite <- Z.mul_assoc, <- Z.pow_add_r by lia. f_equal. f_equal. lia. }
    assert (Hdm' : Zpos (digits2_pos m') = 53).
    { rewrite (digits_quotient m' v (53 - d)); auto; lia. }
    rewrite binary_round_aux_exact; rewrite Hdm', fexp_eq;
      replace (Z.max (53 + (d - 53) - 53) (-1074)) with (d - 53) by lia;
      replace (d - 53 - (d - 53)) with 0 by lia;
      try lia; try apply Z.mod_1_r.
    rewrite Z.pow_0_r, Z.div_1_r, Hm'. reflexivity.
  - (* the trailing zeros are dropped *)
    rewrite binary_round_aux_exact; rewrite Hdm, fexp_eq;
      replace (d + k + - k) with d by lia;
      replace (Z.max (d - 53) (-1074)) with (d - 53) by lia;
      replace (d - 53 - - k) with (k - (53 - d)) by lia;
      try lia.
    + f_equal. f_equal. rewrite Hm.
      replace k with ((53 - d) + (k - (53 - d))) at 1 by lia.
      rewrite Z.pow_add_r by lia. rewrite Z.mul_assoc. apply Z.div_mul.
      apply Z.pow_nonzero; lia.
    + rewrite Hm. replace k with ((53 - d) + (k - (53 - d))) at 1 by lia.
      rewrite Z.pow_add_r by lia. rewrite Z.mul_assoc. apply Z.mod_mul.
      apply Z.pow_nonzero; lia.
Qed.

Lemma num_pos v : Zpos v < 2 ^ 53 -> num (Zpos v) = canonical v.
Proof.
  intros Hv. unfold num, binary_normalize, canonical.
  pose proof (binary_round_int false v 0 Hv ltac:(lia)) as H.
  rewrite Z.pow_0_r, Z.mul_1_r, Pos2Z.id in H. exact H.
Qed.

(** Addition of integers is exact below 2^53. *)
Lemma digits_le_53 v : Zpos v < 2 ^ 53 -> Zpos (digits2_pos v) <= 53.
Proof.
  intros Hv. pose proof (digits_lower v).
  destruct (Z.le_gt_cases (Zpos (digits2_pos v)) 53); auto.
  assert (2 ^ 53 <= 2 ^ (Zpos (digits2_pos v) - 1)) by (apply Z.pow_le_mono_r; lia). lia.
Qed.

Lemma fst_shl_align m e e' : e' <= e ->
  Zpos (fst (shl_align m e e')) = Zpos m * 2 ^ (e - e').
Proof.
  intros H. rewrite shl_align_spec.
  assert (0 < 2 ^ (e - e')) by (apply Z.pow_pos_nonneg; lia).
  destruct (Z.ltb_spec e' e); cbn [fst].
  - rewrite Z2Pos.id; nia.
  - replace (e - e') with 0 by lia. lia.
Qed.

Lemma add_num_num a b : 0 <= a -> 0 <= b -> a + b < 2 ^ 53 ->
  add (num a) (num b) = num (a + b).
Proof.
  intros Ha Hb Hab.
  destruct a as [|a|a]; try lia;
    [destruct b; try lia; [reflexivity|rewrite Z.add_0_l, num_pos by lia; reflexivity]|].
  destruct b as [|b|b]; try lia; [rewrite Z.add_0_r; rewrite num_pos by lia; reflexivity|].
  rewrite (num_pos a), (num_pos b) by lia.
  change (Zpos a + Zpos b) with (Zpos (a + b)).
  rewrite (num_pos (a + b)) by (rewrite Pos2Z.inj_add; lia).
  pose proof (digits_le_53 a ltac:(lia)) as Hda.
  pose proof (digits_le_53 b ltac:(lia)) as Hdb.
  unfold canonical at 1 2. cbn zeta.
  set (da := Zpos (digits2_pos a)) in *. set (db := Zpos (digits2_pos b)) in *.
  assert (0 < da) by (unfold da; lia). assert (0 < db) by (unfold db; lia).
  unfold add, SFadd. cbn [cond_Zopp].
  set (ez := Z.min (da - 53) (db - 53)).
  assert (Hpa : 0 < 2 ^ (53 - da)) by (apply Z.pow_pos_nonneg; lia).
  assert (Hpb : 0 < 2 ^ (53 - db)) by (apply Z.pow_pos_nonneg; lia).
  rewrite !fst_shl_align by (unfold ez; lia).
  rewrite !Z2Pos.id by nia.
  rewrite <- !Z.mul_assoc, <- !Z.pow_add_r by (unfold ez; lia).
  replace (53 - da + (da - 53 - ez)) with (- ez) by lia.
  replace (53 - db + (db - 53 - ez)) with (- ez) by lia.
  rewrite <- Z.mul_add_distr_r.
  assert (Hpz : 0 < 2 ^ (- ez)) by (apply Z.pow_pos_nonneg; unfold ez; lia).
  change (Zpos a + Zpos b) with (Zpos (a + b)).
  destruct (Zpos (a + b) * 2 ^ (- ez)) as [|s|s] eqn:Es; try nia.
  unfold binary_normalize.
  replace s with (Z.to_pos (Zpos (a + b) * 2 ^ (- ez))) by (rewrite Es; reflexivity).
  replace ez with (- (- ez)) at 2 by lia.
  rewrite binary_round_int; try (unfold ez; lia).
  reflexivity.
Qed.


(** Rounding does not take a value of at most 100 above 100, because
    100 is a multiple of the unit in the last place of every number below
    128. *)
Lemma digits_100 m e : e <= -46 -> Zpos m <= 100 * 2 ^ (- e) ->
  Zpos (digits2_pos m) + e <= 7.
Proof.
  intros He Hm. pose proof (digits_lower m) as Hl.
  assert (0 < 2 ^ (- e)) by (apply Z.pow_pos_nonneg; lia).
  assert (Zpos m < 2 ^ (7 - e)).
  { replace (7 - e) with (7 + - e) by lia. rewrite Z.pow_add_r by lia.
    change (2 ^ 7) with 128. lia. }
  destruct (Z.le_gt_cases (Zpos (digits2_pos m) + e) 7); auto.
  assert (2 ^ (7 - e) <= 2 ^ (Zpos (digits2_pos m) - 1)) by (apply Z.pow_le_mono_r; lia).
  lia.
Qed.

Lemma binary_round_aux_100 m e :
  e <= fexp prec emax (Zpos (digits2_pos m) + e) -> e <= -46 ->
  Zpos m <= 100 * 2 ^ (- e) ->
  at_most_100 (binary_round_aux prec emax false (Zpos m) e loc_Exact).
Proof.
  intros HE He Hm.
  pose proof (digits_100 m e He Hm) as Hd.
  set (E := fexp prec emax (Zpos (digits2_pos m) + e)) in *.
  assert (HE46 : E <= -46) by (unfold E; rewrite fexp_eq; lia).
  set (N := 100 * 2 ^ (- E)).
  assert (Hpn : 0 < 2 ^ (E - e)) by (apply Z.pow_pos_nonneg; lia).
  assert (HpE : 0 < 2 ^ (- E)) by (apply Z.pow_pos_nonneg; lia).
  assert (HN : 100 * 2 ^ (- e) = N * 2 ^ (E - e)).
  { unfold N. rewrite <- Z.mul_assoc, <- Z.pow_add_r by lia. do 2 f_equal. lia. }
  unfold binary_round_aux, shr_fexp.
  cbn [Zdigits2 shr_record_of_loc]. fold E.
  pose proof (shr_spec (Zpos m) e (E - e) ltac:(lia)) as H1.
  destruct (shr _ e (E - e)) as [mrs' e'].
  replace (Z.max (E - e) 0) with (E - e) in H1 by lia.
  destruct H1 as (H1m & H1e & H1x).
  replace e' with E by lia. clear H1e.
  set (m2 := round_nearest_even (shr_m mrs') (loc_of_shr_record mrs')).
  assert (Hm2 : 0 <= m2 <= N).
  { pose proof (round_nearest_even_le (shr_m mrs') (loc_of_shr_record mrs')) as Hr.
    fold m2 in Hr. rewrite H1m in Hr.
    pose proof (Z.div_mod (Zpos m) (2 ^ (E - e)) ltac:(lia)) as Hdm.
    pose proof (Z.mod_pos_bound (Zpos m) (2 ^ (E - e)) Hpn) as Hb.
    assert (0 <= Zpos m / 2 ^ (E - e)) by (apply Z.div_pos; lia).
    split; [lia|].
    destruct (Z.eq_dec (Zpos m / 2 ^ (E - e)) N) as [Heq|Hne].
    - assert (Hz : Zpos m mod 2 ^ (E - e) = 0) by nia.
      unfold m2. rewrite loc_of_shr_record_exact by (apply H1x; exact Hz).
      cbn [round_nearest_even]. lia.
    - assert (Zpos m / 2 ^ (E - e) <= N) by nia. lia. }
  clearbody m2. clear H1m H1x mrs'.
  destruct m2 as [|p|p]; try lia.
  - (* the mantissa vanished *)
    cbn [Zdigits2 shr_record_of_loc].
    pose proof (shr_spec 0 E (fexp prec emax (0 + E) - E) ltac:(lia)) as H2.
    destruct (shr _ E _) as [mrs'' e''].
    destruct H2 as (H2m & _). rewrite H2m, Z.div_0_l by (apply Z.pow_nonzero; lia).
    constructor.
  - cbn [Zdigits2 shr_record_of_loc].
    assert (Hp : Zpos p <= 100 * 2 ^ (- E)) by (fold N; lia).
    pose proof (digits_100 p E HE46 Hp) as Hdp.
    set (E2 := fexp prec emax (Zpos (digits2_pos p) + E)) in *.
    assert (HE2 : E2 <= -46) by (unfold E2; rewrite fexp_eq; lia).
    pose proof (shr_spec (Zpos p) E (E2 - E) ltac:(lia)) as H2.
    destruct (shr _ E (E2 - E)) as [mrs'' e''].
    destruct H2 as (H2m & H2e & _).
    set (k := Z.max (E2 - E) 0) in *.
    assert (Hk : 0 <= k) by (unfold k; lia).
    assert (Hpk : 0 < 2 ^ k) by (apply Z.pow_pos_nonneg; lia).
    assert (He'' : e'' <= -46) by (unfold k in H2e; lia).
    assert (Hb3 : Zpos p / 2 ^ k <= 100 * 2 ^ (- e'')).
    { assert (Hx : 100 * 2 ^ (- E) = 100 * 2 ^ (- e'') * 2 ^ k).
      { rewrite <- Z.mul_assoc, <- Z.pow_add_r by lia. do 2 f_equal. lia. }
      rewrite <- (Z.div_mul (100 * 2 ^ (- e'')) (2 ^ k)) by lia.
      apply Z.div_le_mono; lia. }
    rewrite H2m.
    destruct (Zpos p / 2 ^ k) as [|q|q] eqn:Eq.
    + constructor.
    + replace (e'' <=? emax - prec) with true
        by (symmetry; apply Z.leb_le; unfold emax, prec; lia).
      constructor; assumption.
    + pose proof (Z.div_pos (Zpos p) (2 ^ k) ltac:(lia) Hpk). lia.
Qed.

Lemma binary_round_100 m e : e <= -46 -> Zpos m <= 100 * 2 ^ (- e) ->
  at_most_100 (binary_round prec emax false m e).
Proof.
  intros He Hm. unfold binary_round. rewrite shl_align_spec.
  set (E := fexp prec emax (Zpos (digits2_pos m) + e)).
  destruct (Z.ltb_spec E e) as [Hlt|Hge].
  - assert (Hp : 0 < 2 ^ (e - E)) by (apply Z.pow_pos_nonneg; lia).
    set (m' := Z.to_pos (Zpos m * 2 ^ (e - E))).
    assert (Hm' : Zpos m' = Zpos m * 2 ^ (e - E)) by (unfold m'; rewrite Z2Pos.id; nia).
    assert (Hdm' : Zpos (digits2_pos m') + E = Zpos (digits2_pos m) + e).
    { rewrite (digits_quotient m' m (e - E)); auto; lia. }
    apply binary_round_aux_100.
    + rewrite Hdm'. fold E. lia.
    + lia.
    + rewrite Hm'. replace (- E) with (- e + (e - E)) by lia.
      rewrite Z.pow_add_r by lia. nia.
  - apply binary_round_aux_100; auto.
Qed.


(** Sums, products and quotients of numbers that are not negative are
    not negative (or are [NaN]). *)
Lemma num_signed z : 0 <= z -> signed false (num z).
Proof.
  intros Hz. destruct z as [|p|p]; try lia.
  - constructor.
  - apply binary_round_signed.
Qed.

Lemma abs_nonneg x : nan_or_nonneg (Math_abs x).
Proof. destruct x; simpl; repeat constructor. Qed.

Lemma add_nonneg x y : nan_or_nonneg x -> nan_or_nonneg y -> nan_or_nonneg (add x y).
Proof.
  intros Hx Hy. destruct Hx as [|x' Hx]; [constructor|].
  destruct Hy as [|y' Hy]; [destruct Hx; constructor|].
  destruct Hx, Hy; try (repeat constructor; fail).
  unfold add, SFadd. cbn [cond_Zopp].
  match goal with |- context [Zpos ?a + Zpos ?b] =>
    change (Zpos a + Zpos b) with (Zpos (a + b)) end.
  apply nn_signed. apply binary_round_signed.
Qed.

Lemma mul_nonneg x y : nan_or_nonneg x -> nan_or_nonneg y -> nan_or_nonneg (mul x y).
Proof.
  intros Hx Hy. destruct Hx as [|x' Hx]; [constructor|].
  destruct Hy as [|y' Hy]; [destruct Hx; constructor|].
  destruct Hx, Hy; try (repeat constructor; fail).
  unfold mul, SFmul. cbn [xorb].
  apply nn_signed. apply binary_round_aux_signed. lia.
Qed.

Lemma div_core_nonneg m1 e1 m2 e2 :
  0 <= fst (fst (SFdiv_core_binary prec emax (Zpos m1) e1 (Zpos m2) e2)).
Proof.
  unfold SFdiv_core_binary.
  set (s := _ - _ - _). set (m' := match s with Z0 => _ | Zpos _ => _ | Zneg _ => _ end).
  assert (0 <= m').
  { unfold m'. destruct s; try lia. apply Z.shiftl_nonneg. lia. }
  pose proof (Z_div_mod m' (Zpos m2) ltac:(lia)) as H1.
  destruct (Z.div_eucl m' (Zpos m2)) as [q r]. cbn [fst]. nia.
Qed.

Lemma div_nonneg x y : nan_or_nonneg x -> nan_or_nonneg y -> nan_or_nonneg (div x y).
Proof.
  intros Hx Hy. destruct Hx as [|x' Hx]; [constructor|].
  destruct Hy as [|y' Hy]; [destruct Hx; constructor|].
  destruct Hx, Hy; try (repeat constructor; fail).
  unfold div, SFdiv. cbn [xorb].
  pose proof (div_core_nonneg m e m0 e0) as H.
  destruct (SFdiv_core_binary _ _ _ _ _ _) as [[mz ez] lz]. cbn [fst] in H.
  apply nn_signed. now apply binary_round_aux_signed.
Qed.

Lemma num_nonneg z : 0 <= z -> nan_or_nonneg (num z).
Proof. intros Hz. apply nn_signed, num_signed, Hz. Qed.

(** [100 - q] for a [q] that is not negative. *)
Lemma num_100 : num 100 = S754_finite false 7036874417766400 (-46).
Proof. reflexivity. Qed.

Lemma sub_100 q : nan_or_nonneg q -> at_most_100 (sub (num 100) q).
Proof.
  intros Hq. destruct Hq as [|q' Hq]; [constructor|]. rewrite num_100.
  destruct Hq as [| |m e]; try constructor.
  - lia.
  - reflexivity.
  - unfold sub, SFsub. cbn [cond_Zopp].
    set (ez := Z.min (-46) e).
    pose proof (fst_shl_align 7036874417766400 (-46) ez ltac:(unfold ez; lia)) as H1.
    pose proof (fst_shl_align m e ez ltac:(unfold ez; lia)) as H2.
    assert (Hp : 0 < 2 ^ (- ez)) by (apply Z.pow_pos_nonneg; unfold ez; lia).
    assert (H100 : Zpos (fst (shl_align 7036874417766400 (-46) ez)) = 100 * 2 ^ (- ez)).
    { rewrite H1. change 7036874417766400 with (100 * 2 ^ 46).
      rewrite <- Z.mul_assoc, <- Z.pow_add_r by (unfold ez; lia).
      do 2 f_equal. lia. }
    rewrite H100.
    set (my := Zpos (fst (shl_align m e ez))) in *.
    assert (0 < my) by (unfold my; lia).
    unfold binary_normalize.
    destruct (100 * 2 ^ (- ez) - my) as [|d|d] eqn:Ed.
    + constructor.
    + apply binary_round_100; [unfold ez; lia | lia].
    + pose proof (binary_round_signed true d ez) as Hs.
      inversion Hs; constructor.
Qed.

(** [Math.max(0, z)] and [Math.round] on what [100 - q] can be. *)
Lemma max_0_100 z : at_most_100 z ->
  Math_max (num 0) z = NaN \/ Math_max (num 0) z = S754_zero false \/
  exists m e, Math_max (num 0) z = S754_finite false m e /\
              e <= -46 /\ Zpos m <= 100 * 2 ^ (- e).
Proof.
  intros [|s| |m e|m e He Hm]; cbn; auto.
  right; right. exists m, e. auto.
Qed.

Lemma round_half_up_100 m e : e <= -46 -> Zpos m <= 100 * 2 ^ (- e) ->
  0 <= round_half_up false m e <= 100.
Proof.
  intros He Hm. unfold round_half_up. cbn [cond_Zopp].
  destruct (Z.leb_spec 0 e); [lia|].
  assert (Hp : 0 < 2 ^ (- e)) by (apply Z.pow_pos_nonneg; lia).
  replace (1 - e) with (1 + - e) by lia.
  rewrite Z.pow_add_r by lia. change (2 ^ 1) with 2.
  split.
  - apply Z.div_pos; lia.
  - apply Z.lt_succ_r. apply Z.div_lt_upper_bound; lia.
Qed.

(** [Math.round(Math.max(0, 100 - q))] is [NaN] or an integer between 0
    and 100, whatever penalty [q] that is not negative is subtracted. *)
Lemma round_max_sub_100 q : nan_or_nonneg q ->
  let r := Math_round (Math_max (num 0) (sub (num 100) q)) in
  r = NaN \/ exists n, 0 <= n <= 100 /\ r = num n.
Proof.
  intros Hq r. subst r.
  destruct (max_0_100 _ (sub_100 q Hq)) as [H|[H|(m & e & H & He & Hm)]]; rewrite H.
  - now left.
  - right. exists 0. split; [lia|reflexivity].
  - right. cbn [Math_round].
    pose proof (round_half_up_100 m e He Hm).
    exists (round_half_up false m e). split; auto.
    destruct (Z.eqb_spec (round_half_up false m e) 0) as [E|E]; [rewrite E|]; reflexivity.
Qed.

(** *** Results that are not [NaN] *)

Lemma signed_not_nan s x : signed s x -> x <> NaN.
Proof. intros []; discriminate. Qed.

Lemma add_signed x y : signed false x -> signed false y -> signed false (add x y).
Proof.
  intros Hx Hy. destruct Hx, Hy; try constructor.
  unfold add, SFadd. cbn [cond_Zopp].
  match goal with |- context [Zpos ?a + Zpos ?b] =>
    change (Zpos a + Zpos b) with (Zpos (a + b)) end.
  apply binary_round_signed.
Qed.

Lemma mul_signed_finite x m e :
  signed false x -> signed false (mul x (S754_finite false m e)).
Proof.
  intros Hx. destruct Hx; try constructor.
  unfold mul, SFmul. cbn [xorb]. apply binary_round_aux_signed. lia.
Qed.

Lemma div_signed_finite x m e :
  signed false x -> signed false (div x (S754_finite false m e)).
Proof.
  intros Hx. destruct Hx as [| |mx ex]; try constructor.
  unfold div, SFdiv. cbn [xorb].
  pose proof (div_core_nonneg mx ex m e) as H.
  destruct (SFdiv_core_binary _ _ _ _ _ _) as [[mz ez] lz]. cbn [fst] in H.
  now apply binary_round_aux_signed.
Qed.

Lemma num_not_nan z : num z <> NaN.
Proof.
  destruct z as [|p|p]; [discriminate| |];
    apply (signed_not_nan _ _ (binary_round_signed _ _ _)).
Qed.

Lemma num_zero_or_finite z : 0 <= z < 2 ^ 53 ->
  num z = S754_zero false \/ exists m e, num z = S754_finite false m e.
Proof.
  intros Hz. destruct z as [|p|p]; try lia; [now left|right].
  rewrite num_pos by lia. unfold canonical. eauto.
Qed.

Lemma sub_num_not_nan z y : 0 <= z < 2 ^ 53 -> signed false y -> sub (num z) y <> NaN.
Proof.
  intros Hz Hy. destruct (num_zero_or_finite z Hz) as [-> | (m & e & ->)].
  - destruct Hy; discriminate.
  - destruct Hy as [| |my ey]; try discriminate.
    unfold sub, SFsub, binary_normalize.
    destruct (_ - _) as [|d|d]; [discriminate| |];
      apply (signed_not_nan _ _ (binary_round_signed _ _ _)).
Qed.

Lemma abs_signed x : x <> NaN -> signed false (Math_abs x).
Proof. destruct x; cbn; intros H; try constructor. now elim H. Qed.

Lemma sub_100_not_nan q : signed false q -> sub (num 100) q <> NaN.
Proof. apply sub_num_not_nan. lia. Qed.

Lemma max_0_not_nan z : z <> NaN -> Math_max (num 0) z <> NaN.
Proof.
  intros Hz. unfold Math_max. destruct z as [s|s| |s m e]; try (now elim Hz);
    try destruct s; cbn; discriminate.
Qed.

Lemma round_not_nan x : x <> NaN -> Math_round x <> NaN.
Proof.
  intros Hx. destruct x as [s|s| |s m e]; cbn [Math_round]; try assumption.
  destruct (_ =? 0); [discriminate|apply num_not_nan].
Qed.

End Rounding.

(** The sign facts, for [auto]. *)
Create HintDb numbers.
#[global] Hint Constructors signed nan_or_nonneg : numbers.
#[global] Hint Resolve num_signed num_nonneg abs_nonneg add_nonneg mul_nonneg div_nonneg
  : numbers.

(** ** Correctly rounded division of two small integers *)

(** The position of the remainder [r] of a division by [b]: exact,
    below, at or above the half. *)
Lemma new_location_spec b r : 0 < b -> 0 <= r < b ->
  new_location b r = if r =? 0 then loc_Exact else loc_Inexact (2 * r ?= b).
Proof.
  intros Hb Hr. unfold new_location, new_location_even, new_location_odd.
  destruct (Z.even b) eqn:Eb; [reflexivity|].
  destruct (r =? 0); [reflexivity|]. f_equal.
  assert (Hodd : Z.odd b = true) by (rewrite <- Z.negb_even, Eb; reflexivity).
  apply Z.odd_spec in Hodd. destruct Hodd as [k Hk].
  destruct (Z.compare_spec (2 * r + 1) b); destruct (Z.compare_spec (2 * r) b);
    try reflexivity; lia.
Qed.

Lemma div_eucl_div_mod a b : Z.div_eucl a b = (a / b, a mod b).
Proof. unfold Z.div, Z.modulo. destruct (Z.div_eucl a b); reflexivity. Qed.

Lemma loc_of_shr_record_of_loc m l : loc_of_shr_record (shr_record_of_loc m l) = l.
Proof. destruct l as [|[]]; reflexivity. Qed.

(** The mantissa [q] of 53 bits, rounded at the position of the
    remainder [r] of a division by [b]. *)
Lemma round_at_53 q b r : 0 < b -> 0 <= r < b -> 0 <= q ->
  let m := round_nearest_even q (new_location b r) in
  q <= m <= q + 1 /\ Z.abs (2 * (m * b) - 2 * (q * b + r)) <= b.
Proof.
  intros Hb Hr Hq m. subst m. rewrite new_location_spec by assumption.
  destruct (Z.eqb_spec r 0) as [->|Hr0]; cbn [round_nearest_even]; [lia|].
  destruct (Z.compare_spec (2 * r) b); [destruct (Z.even q)| |]; lia.
Qed.

(** The mantissa [q] of 54 bits, shifted by one bit and rounded. *)
Lemma round_at_54 q b r : 0 < b -> 0 <= r < b -> 0 <= q ->
  let mrs := shr_1 (shr_record_of_loc q (new_location b r)) in
  let m := round_nearest_even (shr_m mrs) (loc_of_shr_record mrs) in
  q / 2 <= m <= q / 2 + 1 /\ Z.abs (4 * (m * b) - 2 * (q * b + r)) <= 2 * b.
Proof.
  intros Hb Hr Hq mrs m. subst m mrs. rewrite new_location_spec by assumption.
  pose proof (Z.div_mod q 2 ltac:(lia)) as Hdm.
  pose proof (Z.mod_pos_bound q 2 ltac:(lia)) as Hmb.
  assert (Hodd : Z.odd q = (q mod 2 =? 1)).
  { rewrite Zmod_odd. destruct (Z.odd q); reflexivity. }
  set (h := q / 2) in *.
  assert (Hrec : forall l, shr_1 (shr_record_of_loc q l) =
           Build_shr_record h (Z.odd q) (match l with loc_Exact => false | _ => true end)).
  { intros [|[]]; cbn [shr_record_of_loc]; rewrite shr_1_spec by assumption; reflexivity. }
  rewrite Hrec. cbn [shr_m].
  destruct (Z.eqb_spec r 0) as [->|Hr0]; rewrite Hodd;
    destruct (Z.eqb_spec (q mod 2) 1) as [H1|H1];
    cbn [loc_of_shr_record round_nearest_even];
    try destruct (Z.even h); nia.
Qed.

(** A mantissa of 53 bits is kept; one of 54 bits is shifted by one
    place. *)
Lemma shr_fexp_53 p e l : Zpos (digits2_pos p) = 53 -> -1021 <= e ->
  shr_fexp prec emax (Zpos p) e l = (shr_record_of_loc (Zpos p) l, e).
Proof.
  intros Hd He. unfold shr_fexp. cbn [Zdigits2]. rewrite Hd, fexp_eq.
  replace (Z.max (53 + e - 53) (-1074) - e) with 0 by lia. reflexivity.
Qed.

Lemma shr_fexp_54 p e l : Zpos (digits2_pos p) = 54 -> -1021 <= e ->
  shr_fexp prec emax (Zpos p) e l = (shr_1 (shr_record_of_loc (Zpos p) l), e + 1).
Proof.
  intros Hd He. unfold shr_fexp. cbn [Zdigits2]. rewrite Hd, fexp_eq.
  replace (Z.max (54 + e - 53) (-1074) - e) with 1 by lia. reflexivity.
Qed.

(** A mantissa that rounding may have carried to 2^53 is brought back
    to 53 bits. *)
Lemma renormalise m2 e1 : 2 ^ 52 <= m2 <= 2 ^ 53 -> -1021 <= e1 ->
  exists m3 k,
    shr_fexp prec emax m2 e1 loc_Exact =
      (Build_shr_record (Zpos m3) false false, e1 + k) /\
    2 ^ 52 <= Zpos m3 < 2 ^ 53 /\ 0 <= k <= 1 /\ m2 = Zpos m3 * 2 ^ k.
Proof.
  intros Hm He. destruct m2 as [|p|p]; try lia.
  destruct (Z.eq_dec (Zpos p) (2 ^ 53)) as [Heq|Hne].
  - exists (Z.to_pos (2 ^ 52)), 1.
    rewrite shr_fexp_54; try assumption.
    + inversion Heq; subst p. split; [reflexivity|]. split; [|split]; cbn; lia.
    + apply digits_unique; lia.
  - exists p, 0.
    rewrite shr_fexp_53; try assumption.
    + rewrite Z.add_0_r. cbn [shr_record_of_loc]. repeat split; lia.
    + apply digits_unique; lia.
Qed.

(** The quotient [q] and remainder [r] of a division by [b], rounded to
    53 bits: the result is within half a unit of the last place of the
    exact quotient. *)
Lemma round_quotient q b r e : 0 < b -> 0 <= r < b -> 2 ^ 52 <= q < 2 ^ 54 ->
  -1021 <= e <= 900 ->
  exists m3 k,
    binary_round_aux prec emax false q e (new_location b r) =
      S754_finite false m3 (e + k) /\
    2 ^ 52 <= Zpos m3 < 2 ^ 53 /\ 0 <= k <= 2 /\
    Z.abs (2 * (Zpos m3 * b) * 2 ^ k - 2 * (q * b + r)) <= b * 2 ^ k.
Proof.
  intros Hb Hr Hq He. destruct q as [|pq|pq]; try lia.
  unfold binary_round_aux.
  destruct (Z.lt_ge_cases (Zpos pq) (2 ^ 53)) as [H53|H54].
  - rewrite shr_fexp_53 by (try apply digits_unique; lia).
    rewrite loc_of_shr_record_of_loc, shr_record_of_loc_m.
    pose proof (round_at_53 (Zpos pq) b r Hb Hr ltac:(lia)) as Hround.
    cbv zeta in Hround. destruct Hround as [Hm2 Henc].
    set (m2 := round_nearest_even (Zpos pq) (new_location b r)) in *.
    destruct (renormalise m2 e ltac:(lia) ltac:(lia)) as (m3 & k & Hshr & Hm3 & Hk & Hm2k).
    rewrite Hshr. cbn [shr_m].
    replace (e + k <=? emax - prec) with true
      by (symmetry; apply Z.leb_le; unfold emax, prec; lia).
    exists m3, k. split; [reflexivity|]. split; [assumption|]. split; [lia|].
    assert (Hk01 : k = 0 \/ k = 1) by lia.
    destruct Hk01 as [-> | ->]; change (2 ^ 0) with 1 in *; change (2 ^ 1) with 2 in *; nia.
  - rewrite shr_fexp_54 by (try apply digits_unique; lia).
    pose proof (round_at_54 (Zpos pq) b r Hb Hr ltac:(lia)) as Hround.
    cbv zeta in Hround. destruct Hround as [Hm2 Henc].
    set (m2 := round_nearest_even _ _) in *.
    assert (Hh : 2 ^ 52 <= Zpos pq / 2 < 2 ^ 53).
    { split; [apply Z.div_le_lower_bound; lia|apply Z.div_lt_upper_bound; lia]. }
    destruct (renormalise m2 (e + 1) ltac:(lia) ltac:(lia))
      as (m3 & k & Hshr & Hm3 & Hk & Hm2k).
    rewrite Hshr. cbn [shr_m].
    replace (e + 1 + k <=? emax - prec) with true
      by (symmetry; apply Z.leb_le; unfold emax, prec; lia).
    exists m3, (1 + k). split; [f_equal; lia|]. split; [assumption|]. split; [lia|].
    assert (Hk01 : k = 0 \/ k = 1) by lia.
    destruct Hk01 as [-> | ->]; cbn [Z.add]; change (2 ^ 0) with 1 in *;
      change (2 ^ 1) with 2 in *; change (2 ^ 2) with 4 in *; nia.
Qed.

(** The integer division behind the quotient of two 53-bit
    mantissas. *)
Lemma div_core_53 m1 e1 m2 e2 :
  Zpos (digits2_pos m1) = 53 -> Zpos (digits2_pos m2) = 53 -> -1021 <= e1 - e2 - 53 ->
  SFdiv_core_binary prec emax (Zpos m1) e1 (Zpos m2) e2 =
  (Zpos m1 * 2 ^ 53 / Zpos m2, e1 - e2 - 53,
   new_location (Zpos m2) ((Zpos m1 * 2 ^ 53) mod Zpos m2)).
Proof.
  intros H1 H2 He. unfold SFdiv_core_binary. cbn [Zdigits2]. cbv zeta.
  rewrite H1, H2, fexp_eq.
  replace (Z.min (Z.max (53 + e1 - (53 + e2) - 53) (-1074)) (e1 - e2))
    with (e1 - e2 - 53) by lia.
  replace (e1 - e2 - (e1 - e2 - 53)) with 53 by lia.
  cbv iota. rewrite Z.shiftl_mul_pow2 by lia.
  rewrite div_eucl_div_mod. reflexivity.
Qed.

Lemma digits_mono a b : Zpos a <= Zpos b -> Zpos (digits2_pos a) <= Zpos (digits2_pos b).
Proof.
  intros H. pose proof (digits_lower a). pose proof (digits_upper b).
  destruct (Z.le_gt_cases (Zpos (digits2_pos a)) (Zpos (digits2_pos b))); auto.
  assert (2 ^ Zpos (digits2_pos b) <= 2 ^ (Zpos (digits2_pos a) - 1))
    by (apply Z.pow_le_mono_r; lia).
  lia.
Qed.

(** The quotient of two integers below 2^53, the first not above the
    second: a 53-bit mantissa [m] and an exponent [e] with
    [|m * 2^e - y / t| <= 2^(e-1)]. *)
Lemma div_num_num y t : 0 < y <= t -> t < 2 ^ 53 ->
  exists m e,
    div (num y) (num t) = S754_finite false m e /\
    2 ^ 52 <= Zpos m < 2 ^ 53 /\ e <= -51 /\
    Z.abs (2 * (Zpos m * t) - y * 2 ^ (1 - e)) <= t.
Proof.
  intros Hy Ht.
  destruct y as [|y|y]; try lia. destruct t as [|t|t]; try lia.
  rewrite (num_pos y), (num_pos t) by lia. unfold canonical. cbv zeta.
  pose proof (digits_le_53 y ltac:(lia)) as HdY.
  pose proof (digits_le_53 t ltac:(lia)) as HdT.
  pose proof (digits_mono y t ltac:(lia)) as Hmono.
  set (dY := Zpos (digits2_pos y)) in *. set (dT := Zpos (digits2_pos t)) in *.
  assert (0 < dY) by (unfold dY; lia). assert (0 < dT) by (unfold dT; lia).
  assert (HGA : 0 < 2 ^ (53 - dY)) by (apply Z.pow_pos_nonneg; lia).
  assert (HGB : 0 < 2 ^ (53 - dT)) by (apply Z.pow_pos_nonneg; lia).
  set (a := Z.to_pos (Zpos y * 2 ^ (53 - dY))).
  set (b := Z.to_pos (Zpos t * 2 ^ (53 - dT))).
  assert (Ha : Zpos a = Zpos y * 2 ^ (53 - dY)) by (unfold a; rewrite Z2Pos.id; nia).
  assert (Hb : Zpos b = Zpos t * 2 ^ (53 - dT)) by (unfold b; rewrite Z2Pos.id; nia).
  assert (Hda : Zpos (digits2_pos a) = 53).
  { rewrite (digits_quotient a y (53 - dY)); auto; fold dY; lia. }
  assert (Hdb : Zpos (digits2_pos b) = 53).
  { rewrite (digits_quotient b t (53 - dT)); auto; fold dT; lia. }
  pose proof (digits_lower a) as Hal. pose proof (digits_upper a) as Hau.
  pose proof (digits_lower b) as Hbl. pose proof (digits_upper b) as Hbu.
  rewrite Hda in Hal, Hau. rewrite Hdb in Hbl, Hbu.
  change (2 ^ (53 - 1)) with (2 ^ 52) in *.
  unfold div, SFdiv. rewrite div_core_53 by (auto; lia). cbn [xorb].
  set (e' := dY - 53 - (dT - 53) - 53).
  pose proof (Z.div_mod (Zpos a * 2 ^ 53) (Zpos b) ltac:(lia)) as Hdm.
  pose proof (Z.mod_pos_bound (Zpos a * 2 ^ 53) (Zpos b) ltac:(lia)) as Hmb.
  set (q := Zpos a * 2 ^ 53 / Zpos b) in *.
  set (r := (Zpos a * 2 ^ 53) mod Zpos b) in *.
  assert (Hq : 2 ^ 52 <= q < 2 ^ 54).
  { split.
    - apply Z.div_le_lower_bound; lia.
    - apply Z.div_lt_upper_bound; lia. }
  assert (He' : -105 <= e' <= -53) by (unfold e'; lia).
  destruct (round_quotient q (Zpos b) r e' ltac:(lia) Hmb Hq ltac:(lia))
    as (m3 & k & Hres & Hm3 & Hk & Henc).
  exists m3, (e' + k). split; [exact Hres|]. split; [exact Hm3|].
  split; [lia|].
  (* from the mantissas back to the integers *)
  assert (HGk : 0 < 2 ^ k) by (apply Z.pow_pos_nonneg; lia).
  set (G := 2 ^ (53 - dT) * 2 ^ k).
  assert (HG : 0 < G) by (unfold G; nia).
  assert (HP : 2 ^ (1 - (e' + k)) * G = 2 * (2 ^ (53 - dY) * 2 ^ 53)).
  { unfold G. rewrite <- !Z.pow_add_r by lia.
    replace (1 - (e' + k) + (53 - dT + k)) with (1 + (53 - dY + 53)) by (unfold e'; lia).
    rewrite Z.pow_add_r by lia. reflexivity. }
  set (P := 2 ^ (1 - (e' + k))) in *.
  assert (Hrew : 2 * (Zpos m3 * Zpos b) * 2 ^ k - 2 * (q * Zpos b + r) =
                 G * (2 * (Zpos m3 * Zpos t) - Zpos y * P)).
  { replace (q * Zpos b + r) with (Zpos a * 2 ^ 53) by lia.
    rewrite Ha, Hb. unfold G.
    transitivity (2 * Zpos m3 * Zpos t * (2 ^ (53 - dT) * 2 ^ k)
                  - Zpos y * (2 * (2 ^ (53 - dY) * 2 ^ 53))); [ring|].
    rewrite <- HP. unfold G. ring. }
  rewrite Hrew in Henc. rewrite Z.abs_mul, (Z.abs_eq G) in Henc by lia.
  replace (Zpos b * 2 ^ k) with (G * Zpos t) in Henc by (rewrite Hb; unfold G; ring).
  apply Z.mul_le_mono_pos_l in Henc; assumption.
Qed.

(** ** The quotient against the thresholds 0.3, 0.4, 0.6 and 0.7 *)

(** The order of two positive finite numbers: by exponent, then by
    mantissa. *)
Lemma compare_finite mc ec m e :
  SFcompare (S754_finite false mc ec) (S754_finite false m e) =
  Some match ec ?= e with
       | Lt => Lt
       | Gt => Gt
       | Eq => Zpos mc ?= Zpos m
       end.
Proof. reflexivity. Qed.

Lemma compare_swap mc ec m e c :
  SFcompare (S754_finite false mc ec) (S754_finite false m e) = Some c ->
  SFcompare (S754_finite false m e) (S754_finite false mc ec) = Some (CompOpp c).
Proof.
  rewrite !compare_finite. intros H. inversion H as [Hc]. clear H Hc. f_equal.
  rewrite (Z.compare_antisym ec e). destruct (ec ?= e); cbn; try reflexivity.
  apply Pos.compare_antisym.
Qed.

(** The quotient [y / t] stands to a threshold [p / q] as the integers
    [q * y] and [p * t] do: by the exponent when the two differ, by the
    mantissa otherwise, the quotient being within half a unit of the last
    place of [y / t] and [t] being small. *)
Ltac against_threshold y t :=
  let m := fresh "m" in let e := fresh "e" in
  let Hdiv := fresh "Hdiv" in let Hm := fresh "Hm" in
  let He := fresh "He" in let Henc := fresh "Henc" in
  destruct (div_num_num y t ltac:(lia) ltac:(lia)) as (m & e & Hdiv & Hm & He & Henc);
  rewrite Hdiv, compare_finite; f_equal;
  apply Z.abs_le in Henc;
  assert (2 ^ 52 * t <= Zpos m * t) by nia;
  assert (Zpos m * t <= (2 ^ 53 - 1) * t) by nia;
  match goal with
  | |- match ?ec ?= e with _ => _ end = _ =>
      destruct (Z.compare_spec ec e) as [Heq|Hlt|Hgt];
      [ subst e;
        match goal with
        | |- (?mc ?= Zpos m) = _ =>
            destruct (Z.compare_spec mc (Zpos m)) as [Hmeq|Hmlt|Hmgt];
            [ rewrite <- Hmeq in *
            | assert ((mc + 1) * t <= Zpos m * t) by nia
            | assert (Zpos m * t <= (mc - 1) * t) by nia ]
        end
      | assert (0 < 2 ^ (1 - e)) by (apply Z.pow_pos_nonneg; lia);
        assert (2 ^ (1 - e) <= 2 ^ (- ec)) by (apply Z.pow_le_mono_r; lia);
        assert (y * 2 ^ (1 - e) <= y * 2 ^ (- ec)) by nia
      | assert (2 ^ (2 - ec) <= 2 ^ (1 - e)) by (apply Z.pow_le_mono_r; lia);
        assert (y * 2 ^ (2 - ec) <= y * 2 ^ (1 - e)) by nia ]
  end;
  symmetry;
  first [ apply Z.compare_eq_iff | apply Z.compare_lt_iff | apply Z.compare_gt_iff ];
  lia.

Section Thresholds.

(** The yang tally [y] and the total [t] of an array of items. *)
Variables y t : Z.
Hypothesis Hy : 0 < y <= t.
Hypothesis Ht : t < 2 ^ 32.

Lemma compare_0_4 :
  SFcompare lit_0_4 (div (num y) (num t)) = Some (2 * t ?= 5 * y).
Proof. unfold lit_0_4. against_threshold y t. Qed.

Lemma compare_0_3 :
  SFcompare lit_0_3 (div (num y) (num t)) = Some (3 * t ?= 10 * y).
Proof. unfold lit_0_3. against_threshold y t. Qed.

Lemma compare_0_6 :
  SFcompare lit_0_6 (div (num y) (num t)) = Some (3 * t ?= 5 * y).
Proof. unfold lit_0_6. against_threshold y t. Qed.

Lemma compare_0_7 :
  SFcompare lit_0_7 (div (num y) (num t)) = Some (7 * t ?= 10 * y).
Proof. unfold lit_0_7. against_threshold y t. Qed.

End Thresholds.

(** * The scorer *)

(** ** The tallying loop *)

(** Counting the items that satisfy a predicate. *)
Lemma count_nil p : count p [] = 0.
Proof. reflexivity. Qed.

Lemma count_cons p it items :
  count p (it :: items) = (if p it then 1 else 0) + count p items.
Proof.
  unfold count. simpl. destruct (p it); simpl List.length; lia.
Qed.

Lemma count_nonneg p items : 0 <= count p items.
Proof. unfold count. lia. Qed.

Lemma count_le_length p items : count p items <= Z.of_nat (List.length items).
Proof. unfold count. pose proof (filter_length_le p items). lia. Qed.

(** One turn of the loop. *)
Lemma tally_step c e it :
  let r := tally (c, e) it in
  wood (fst r) = wood c + (if has_element Wood it then 1 else 0) /\
  fire (fst r) = fire c + (if has_element Fire it then 1 else 0) /\
  earth (fst r) = earth c + (if has_element Earth it then 1 else 0) /\
  metal (fst r) = metal c + (if has_element Metal it then 1 else 0) /\
  water (fst r) = water c + (if has_element Water it then 1 else 0) /\
  yin (snd r) = yin e + (if is_yin_or_neutral it then 1 else 0) /\
  yang (snd r) = yang e + (if is_yang it then 1 else 0) /\
  (inherits it = false ->
   counts_undefined (fst r) = counts_undefined c /\
   energy_undefined (snd r) = energy_undefined e).
Proof.
  unfold tally, has_element, is_yin_or_neutral, is_yang, inherits.
  destruct (get (type it)) as [[el en pl bg]| |];
    [destruct el, en|..]; cbn; repeat split; try lia; discriminate.
Qed.

(** The loop counts, element by element and energy by energy, the items
    the catalogue knows. *)
Lemma tally_counts items : forall c e,
  let r := fold_left tally items (c, e) in
  wood (fst r) = wood c + count (has_element Wood) items /\
  fire (fst r) = fire c + count (has_element Fire) items /\
  earth (fst r) = earth c + count (has_element Earth) items /\
  metal (fst r) = metal c + count (has_element Metal) items /\
  water (fst r) = water c + count (has_element Water) items /\
  yin (snd r) = yin e + count is_yin_or_neutral items /\
  yang (snd r) = yang e + count is_yang items.
Proof.
  induction items as [|it items IH]; intros c e r.
  - subst r. simpl. rewrite !count_nil. lia.
  - subst r. cbn [fold_left].
    specialize (IH (fst (tally (c, e) it)) (snd (tally (c, e) it))).
    rewrite <- surjective_pairing in IH. cbn zeta in IH.
    pose proof (tally_step c e it) as Hs. cbn zeta in Hs.
    rewrite !count_cons. lia.
Qed.

(** Without an inherited type the loop creates no extra property. *)
Lemma tally_undefined items : forall c e,
  forallb (fun it => negb (inherits it)) items = true ->
  let r := fold_left tally items (c, e) in
  counts_undefined (fst r) = counts_undefined c /\
  energy_undefined (snd r) = energy_undefined e.
Proof.
  induction items as [|it items IH]; intros c e H r.
  - subst r. simpl. auto.
  - subst r. cbn [fold_left]. cbn [forallb] in H.
    apply andb_true_iff in H. destruct H as [Hit H].
    apply negb_true_iff in Hit.
    specialize (IH (fst (tally (c, e) it)) (snd (tally (c, e) it)) H).
    rewrite <- surjective_pairing in IH. cbn zeta in IH.
    destruct IH as [IH1 IH2]. rewrite IH1, IH2.
    pose proof (tally_step c e it) as Hs. cbn zeta in Hs.
    apply Hs. exact Hit.
Qed.

(** Each catalogued item is counted under one energy and under one
    element. *)
Lemma catalogued_split it :
  (if catalogued it then 1 else 0) =
  (if is_yin_or_neutral it then 1 else 0) + (if is_yang it then 1 else 0).
Proof.
  unfold catalogued, is_yin_or_neutral, is_yang.
  destruct (get (type it)) as [[el [] pl bg]| |]; reflexivity.
Qed.

Lemma count_catalogued_energy items :
  count catalogued items = count is_yin_or_neutral items + count is_yang items.
Proof.
  induction items as [|it items IH]; [reflexivity|].
  rewrite !count_cons, IH. pose proof (catalogued_split it). lia.
Qed.

Lemma catalogued_split_element it :
  (if catalogued it then 1 else 0) =
  (if has_element Wood it then 1 else 0) + (if has_element Fire it then 1 else 0)
  + (if has_element Earth it then 1 else 0) + (if has_element Metal it then 1 else 0)
  + (if has_element Water it then 1 else 0).
Proof.
  unfold catalogued, has_element.
  destruct (get (type it)) as [[[] en pl bg]| |]; reflexivity.
Qed.

Lemma count_catalogued_element items :
  count catalogued items =
  count (has_element Wood) items + count (has_element Fire) items
  + count (has_element Earth) items + count (has_element Metal) items
  + count (has_element Water) items.
Proof.
  induction items as [|it items IH]; [reflexivity|].
  rewrite !count_cons, IH. pose proof (catalogued_split_element it). lia.
Qed.

(** The fields of the result, one by one. *)
Lemma result_fields elements roomType :
  let r := calculateDesignFengShui elements roomType in
  let t := fold_left tally elements (mkCounts 0 0 0 0 0 None, mkEnergy 0 0 None) in
  elementCounts r = fst t /\ energyBalance r = snd t /\
  elementBalance r = calculateElementBalanceScore (fst t) /\
  energyScore r = calculateEnergyBalanceScore (snd t) /\
  spacialScore r = calculateSpacialScore elements /\
  functionalScore r = calculateFunctionalScore elements roomType /\
  recommendations r = generateRecommendations (fst t) (snd t) elements roomType /\
  overallScore r =
    Math_round (elementBalance r * lit_0_3 + energyScore r * lit_0_25
                + spacialScore r * lit_0_25 + functionalScore r * lit_0_2)%js.
Proof.
  cbv zeta. unfold calculateDesignFengShui.
  destruct (fold_left tally elements _) as [c e]. cbn. repeat split.
Qed.

(** ** Space score *)

(** The space score by the length of the list. *)
Lemma spacial_cases elements :
  let n := List.length elements in
  calculateSpacialScore elements =
  num (if (n <? 5)%nat then 90 else if (n <? 10)%nat then 85
       else if (n <? 15)%nat then 75 else if (n <? 20)%nat then 65 else 50).
Proof.
  cbv zeta. unfold calculateSpacialScore.
  set (n := List.length elements).
  destruct (Nat.ltb_spec n 5); [destruct (Z.ltb_spec (Z.of_nat n) 5); [reflexivity|lia]|].
  destruct (Z.ltb_spec (Z.of_nat n) 5); [lia|].
  destruct (Nat.ltb_spec n 10); [destruct (Z.ltb_spec (Z.of_nat n) 10); [reflexivity|lia]|].
  destruct (Z.ltb_spec (Z.of_nat n) 10); [lia|].
  destruct (Nat.ltb_spec n 15); [destruct (Z.ltb_spec (Z.of_nat n) 15); [reflexivity|lia]|].
  destruct (Z.ltb_spec (Z.of_nat n) 15); [lia|].
  destruct (Nat.ltb_spec n 20); [destruct (Z.ltb_spec (Z.of_nat n) 20); [reflexivity|lia]|].
  destruct (Z.ltb_spec (Z.of_nat n) 20); [lia|reflexivity].
Qed.

(** C7. The space score is a step function of the number of items alone:
    90 for 0 to 4 items, 85 for 5 to 9, 75 for 10 to 14, 65 for 15 to 19
    and 50 from 20 on; it never increases with the number of items, and
    the empty list scores 90. *)
Theorem C7_spacialScore_steps (elements : list PlacedItem) (roomType : string) :
  let n := List.length elements in
  let s := spacialScore (calculateDesignFengShui elements roomType) in
  ((n <= 4)%nat -> s = num 90) /\
  ((5 <= n <= 9)%nat -> s = num 85) /\
  ((10 <= n <= 14)%nat -> s = num 75) /\
  ((15 <= n <= 19)%nat -> s = num 65) /\
  ((20 <= n)%nat -> s = num 50) /\
  (forall elements' roomType',
     (n <= List.length elements')%nat ->
     (spacialScore (calculateDesignFengShui elements' roomType') <= s)%js = true) /\
  spacialScore (calculateDesignFengShui [] roomType) = num 90.
Proof.
  cbv zeta.
  destruct (result_fields elements roomType) as (_ & _ & _ & _ & Hs & _).
  rewrite Hs, spacial_cases.
  set (n := List.length elements).
  repeat split.
  - intros H. destruct (Nat.ltb_spec n 5); [reflexivity|lia].
  - intros H. destruct (Nat.ltb_spec n 5); [lia|].
    destruct (Nat.ltb_spec n 10); [reflexivity|lia].
  - intros H. destruct (Nat.ltb_spec n 5); [lia|].
    destruct (Nat.ltb_spec n 10); [lia|].
    destruct (Nat.ltb_spec n 15); [reflexivity|lia].
  - intros H. destruct (Nat.ltb_spec n 5); [lia|].
    destruct (Nat.ltb_spec n 10); [lia|].
    destruct (Nat.ltb_spec n 15); [lia|].
    destruct (Nat.ltb_spec n 20); [reflexivity|lia].
  - intros H. destruct (Nat.ltb_spec n 5); [lia|].
    destruct (Nat.ltb_spec n 10); [lia|].
    destruct (Nat.ltb_spec n 15); [lia|].
    destruct (Nat.ltb_spec n 20); [lia|reflexivity].
  - intros elements' roomType' H.
    destruct (result_fields elements' roomType') as (_ & _ & _ & _ & Hs' & _).
    rewrite Hs', spacial_cases.
    set (n' := List.length elements') in *.
    destruct (Nat.ltb_spec n 5); destruct (Nat.ltb_spec n 10);
      destruct (Nat.ltb_spec n 15); destruct (Nat.ltb_spec n 20); try lia;
      destruct (Nat.ltb_spec n' 5); destruct (Nat.ltb_spec n' 10);
      destruct (Nat.ltb_spec n' 15); destruct (Nat.ltb_spec n' 20); try lia;
      reflexivity.
Qed.

Lemma C7_spacialScore_steps_witness :
  spacialScore (calculateDesignFengShui (repeat (item "rug") 12) "living") = num 75.
Proof.
  apply (proj1 (proj2 (proj2 (C7_spacialScore_steps (repeat (item "rug") 12) "living")))).
  simpl. lia.
Defined.

(** ** Functional score *)

(** The successive updates of [score] add up; the cap at 100 is never
    reached. *)
Lemma functional_additive elements roomType :
  calculateFunctionalScore elements roomType =
  num (functional_points roomType (includes (map type elements))).
Proof.
  unfold calculateFunctionalScore, functional_points, bonus.
  destruct (String.eqb roomType "bedroom");
    [|destruct (String.eqb roomType "living");
      [|destruct (String.eqb roomType "office")]];
    repeat match goal with
           | |- context [includes ?l ?t] => destruct (includes l t)
           end;
    reflexivity.
Qed.

Lemma includes_In types t : includes types t = true <-> In t types.
Proof.
  unfold includes. rewrite existsb_exists. split.
  - intros (x & H1 & H2). apply String.eqb_eq in H2. now subst.
  - intros H. exists t. split; [exact H|]. apply String.eqb_refl.
Qed.

Lemma present_In elements t : present elements t = true <-> In t (map type elements).
Proof.
  unfold present. destruct (in_dec string_dec t (map type elements)); split; auto; discriminate.
Qed.

(** [types.includes(t)] finds the type exactly when an item has it. *)
Lemma includes_present elements t : includes (map type elements) t = present elements t.
Proof.
  apply eq_true_iff_eq. rewrite includes_In, present_In. reflexivity.
Qed.

(** C5. The functional score starts from the base 70, to which the
    room type adds bonuses and penalties by the item types present in the
    room.  In a bedroom a bed adds 10 and a mirror together with a bed
    takes 10 off (a plant and a lamp add 5 each): with a bed and no mirror
    the score is 10 above that of the plant and the lamp alone, with a bed
    and a mirror, or without a bed, it is that score.  A room type other
    than bedroom, living and office scores the base 70. *)
Theorem C5_functionalScore_base_and_bonuses (elements : list PlacedItem) (roomType : string) :
  let s := functionalScore (calculateDesignFengShui elements roomType) in
  let types := map type elements in
  let has := present elements in
  (forall t, has t = true <-> In t types) /\
  s = num (functional_points roomType has) /\
  (roomType = "bedroom" ->
   s = num (70 + bonus (has "bed") 10 - bonus (has "mirror" && has "bed") 10
            + bonus (has "plant") 5 + bonus (has "lamp") 5) /\
   (In "bed" types -> ~ In "mirror" types ->
    s = num (70 + 10 + bonus (has "plant") 5 + bonus (has "lamp") 5)) /\
   (In "bed" types -> In "mirror" types ->
    s = num (70 + 10 - 10 + bonus (has "plant") 5 + bonus (has "lamp") 5)) /\
   (~ In "bed" types ->
    s = num (70 + bonus (has "plant") 5 + bonus (has "lamp") 5))) /\
  (roomType <> "bedroom" -> roomType <> "living" -> roomType <> "office" ->
   s = num 70).
Proof.
  cbv zeta.
  destruct (result_fields elements roomType) as (_ & _ & _ & _ & _ & Hf & _).
  rewrite Hf, functional_additive.
  replace (functional_points roomType (includes (map type elements)))
    with (functional_points roomType (present elements))
    by (unfold functional_points; now rewrite !includes_present).
  split; [intros t; apply present_In|].
  split; [reflexivity|].
  unfold functional_points. split.
  - intros ->. cbn [String.eqb Ascii.eqb Bool.eqb].
    split; [f_equal; lia|].
    split; [|split].
    + intros Hbed Hmirror.
      apply present_In in Hbed. rewrite Hbed.
      destruct (present elements "mirror") eqn:E;
        [apply present_In in E; contradiction|].
      cbn [bonus andb]. f_equal. lia.
    + intros Hbed Hmirror.
      apply present_In in Hbed, Hmirror. rewrite Hbed, Hmirror.
      cbn [bonus andb]. f_equal. lia.
    + intros Hbed.
      destruct (present elements "bed") eqn:E;
        [apply present_In in E; contradiction|].
      rewrite andb_false_r. cbn [bonus]. f_equal. lia.
  - intros H1 H2 H3.
    apply String.eqb_neq in H1, H2, H3. rewrite H1, H2, H3. reflexivity.
Qed.

Lemma C5_functionalScore_base_and_bonuses_witness :
  functionalScore (calculateDesignFengShui [item "bed"; item "lamp"] "bedroom") = num 85 /\
  functionalScore (calculateDesignFengShui [item "bed"; item "mirror"] "bedroom") = num 70 /\
  functionalScore (calculateDesignFengShui [item "bed"; item "mirror"] "kitchen") = num 70.
Proof.
  split; [|split].
  - refine (proj1 (proj2 (proj1 (proj2 (proj2 (C5_functionalScore_base_and_bonuses
                     [item "bed"; item "lamp"] "bedroom"))) eq_refl)) _ _).
    + cbn. auto.
    + cbn. intros [H|[H|[]]]; discriminate.
  - refine (proj1 (proj2 (proj2 (proj1 (proj2 (proj2 (C5_functionalScore_base_and_bonuses
                     [item "bed"; item "mirror"] "bedroom"))) eq_refl))) _ _).
    + cbn. auto.
    + cbn. auto.
  - apply (proj2 (proj2 (proj2 (C5_functionalScore_base_and_bonuses
                           [item "bed"; item "mirror"] "kitchen"))));
      discriminate.
Defined.

(** ** Energy score *)

(** C10. When no item adds to the yin or yang tally, as on the empty
    list, the energy score is the default 50: the total of zero is caught
    before the division. *)
Theorem C10_energyScore_default_50 (elements : list PlacedItem) (roomType : string) :
  let r := calculateDesignFengShui elements roomType in
  (yin (energyBalance r) + yang (energyBalance r) = 0 -> energyScore r = num 50) /\
  (forallb (fun it => negb (catalogued it)) elements = true -> energyScore r = num 50) /\
  energyScore (calculateDesignFengShui [] roomType) = num 50.
Proof.
  cbv zeta.
  destruct (result_fields elements roomType) as (_ & He & _ & Hs & _).
  pose proof (tally_counts elements (mkCounts 0 0 0 0 0 None) (mkEnergy 0 0 None)) as Ht.
  cbv zeta in Ht. destruct Ht as (_ & _ & _ & _ & _ & Hyin & Hyang).
  rewrite Hs, He.
  assert (Hz : forall b, yin b + yang b = 0 -> calculateEnergyBalanceScore b = num 50).
  { intros b Hb. unfold calculateEnergyBalanceScore. rewrite Hb. reflexivity. }
  repeat split.
  - apply Hz.
  - intros Hnone. apply Hz. rewrite Hyin, Hyang. cbn [yin yang].
    pose proof (count_catalogued_energy elements) as Hc.
    assert (H0 : count catalogued elements = 0).
    { unfold count.
      replace (filter catalogued elements) with (@nil PlacedItem); [reflexivity|].
      symmetry. clear -Hnone. induction elements as [|it l IH]; [reflexivity|].
      cbn [forallb] in Hnone. apply andb_true_iff in Hnone. destruct Hnone as [H1 H2].
      apply negb_true_iff in H1. cbn [filter]. rewrite H1. auto. }
    lia.
Qed.

Lemma C10_energyScore_default_50_witness :
  energyScore (calculateDesignFengShui [item "piano"; item "aquarium"] "office") = num 50.
Proof.
  exact (proj1 (proj2 (C10_energyScore_default_50 [item "piano"; item "aquarium"] "office"))
               eq_refl).
Defined.

(** ** Recommendations *)

(** No number is both above 0.7 and below 0.3. *)
Lemma not_above_and_below x : (x > lit_0_7)%js = true -> (x < lit_0_3)%js = false.
Proof.
  unfold lt, SFltb, lit_0_7, lit_0_3, SFcompare.
  destruct x as [s|s| |s m e]; try (destruct s); cbv beta iota; try congruence.
  destruct (Z.compare_spec (-53) e); destruct (Z.compare_spec e (-54));
    try lia; congruence.
Qed.

(** The sequence of pushes is the table of rules, filtered in order. *)
Lemma rules_table c e placed roomType :
  generateRecommendations c e placed roomType =
  match (fired element_rules c e placed roomType
         ++ fired energy_rules c e placed roomType
         ++ fired room_rules c e placed roomType
         ++ fired clutter_rules c e placed roomType)%list
  with
  | [] => [msg_good]
  | recommendations => recommendations
  end.
Proof.
  unfold generateRecommendations, fired, element_rules, energy_rules, room_rules,
    clutter_rules.
  cbn [filter map fires message].
  fold (yangRatio e).
  destruct (yangRatio e > lit_0_7)%js eqn:Habove.
  - rewrite (not_above_and_below _ Habove).
    generalize (wood c <? 2), (fire c =? 0), (water c =? 0), (earth c <? 2),
      (metal c =? 0), (String.eqb roomType "bedroom"), (some_of_type placed "plant"),
      (some_of_type placed "mirror"), (Z.of_nat (List.length placed) >? 15).
    intros [] [] [] [] [] [] [] [] []; reflexivity.
  - generalize (wood c <? 2), (fire c =? 0), (water c =? 0), (earth c <? 2),
      (metal c =? 0), (yangRatio e < lit_0_3)%js, (String.eqb roomType "bedroom"),
      (some_of_type placed "plant"), (some_of_type placed "mirror"),
      (Z.of_nat (List.length placed) >? 15).
    intros [] [] [] [] [] [] [] [] [] []; reflexivity.
Qed.

(** C6. The recommendations are the messages of the rules that fire,
    taken in the fixed order element deficiencies, energy imbalance, room
    warnings, clutter, each rule firing on its own condition whatever the
    others do; when none fires the list is the one affirmative message, so
    the list is never empty; on the empty item list all five element rules
    fire. *)
Theorem C6_recommendations_rule_order
    (c : ElementCounts) (e : EnergyBalance) (placed : list PlacedItem) (roomType : string) :
  let by_rules :=
    (fired element_rules c e placed roomType
     ++ fired energy_rules c e placed roomType
     ++ fired room_rules c e placed roomType
     ++ fired clutter_rules c e placed roomType)%list in
  generateRecommendations c e placed roomType =
    match by_rules with [] => [msg_good] | _ => by_rules end /\
  generateRecommendations c e placed roomType <> [] /\
  recommendations (calculateDesignFengShui placed roomType) =
    generateRecommendations (elementCounts (calculateDesignFengShui placed roomType))
      (energyBalance (calculateDesignFengShui placed roomType)) placed roomType /\
  firstn 5 (recommendations (calculateDesignFengShui [] roomType)) =
    [msg_wood; msg_fire; msg_water; msg_earth; msg_metal].
Proof.
  cbv zeta. split; [|split; [|split]].
  - rewrite rules_table.
    destruct (fired element_rules c e placed roomType ++ _)%list; reflexivity.
  - rewrite rules_table.
    destruct (fired element_rules c e placed roomType ++ _)%list; discriminate.
  - destruct (result_fields placed roomType) as (Hc & He & _ & _ & _ & _ & Hr & _).
    rewrite Hr, Hc, He. reflexivity.
  - destruct (result_fields [] roomType) as (_ & _ & _ & _ & _ & _ & Hr & _).
    rewrite Hr, rules_table. reflexivity.
Qed.

(** ** The scorer looks at the types of the items only *)

Lemma tally_type acc it : tally acc (item (type it)) = tally acc it.
Proof. reflexivity. Qed.

Lemma fold_tally_types elements : forall acc,
  fold_left tally (map (fun it => item (type it)) elements) acc = fold_left tally elements acc.
Proof.
  induction elements as [|it l IH]; intros acc; [reflexivity|].
  cbn [map fold_left]. rewrite tally_type. apply IH.
Qed.

Lemma some_of_type_types elements t :
  some_of_type (map (fun it => item (type it)) elements) t = some_of_type elements t.
Proof.
  unfold some_of_type. induction elements as [|it l IH]; [reflexivity|].
  cbn [map existsb]. rewrite IH. reflexivity.
Qed.

Lemma scorer_types elements roomType :
  calculateDesignFengShui (map (fun it => item (type it)) elements) roomType =
  calculateDesignFengShui elements roomType.
Proof.
  unfold calculateDesignFengShui. rewrite fold_tally_types.
  destruct (fold_left tally elements _) as [c e].
  unfold calculateSpacialScore, calculateFunctionalScore, generateRecommendations.
  rewrite !some_of_type_types, !length_map, map_map. reflexivity.
Qed.

Lemma all_of_type elements t :
  Forall (fun it => type it = t) elements ->
  map (fun it => item (type it)) elements = repeat (item t) (List.length elements).
Proof.
  induction 1 as [|it l Hit _ IH]; [reflexivity|].
  cbn [map List.length repeat]. rewrite Hit, IH. reflexivity.
Qed.

(** ** Scenario B: twenty televisions *)

(** C2, as stated, fails: twenty items of type ["tv"] score an element
    balance of 20, which is not near 0. *)
Lemma C2_all_tv_elementBalance_not_near_0 :
  let r := calculateDesignFengShui (repeat (item "tv") 20) "living" in
  elementBalance r = num 20 /\ near_zero (elementBalance r) = false.
Proof. vm_compute. split; reflexivity. Qed.

(** C2, amended.  For exactly twenty items, all of type ["tv"], and any
    room type: the element balance is exactly 20, the energy score is
    exactly 60, and the recommendations include the prompts to add wood,
    water, earth and metal elements and the clutter warning. *)
Theorem C2_all_tv_scenario (elements : list PlacedItem) (roomType : string) :
  List.length elements = 20%nat ->
  Forall (fun it => type it = "tv") elements ->
  let r := calculateDesignFengShui elements roomType in
  elementBalance r = num 20 /\
  energyScore r = num 60 /\
  In msg_wood (recommendations r) /\
  In msg_water (recommendations r) /\
  In msg_earth (recommendations r) /\
  In msg_metal (recommendations r) /\
  In msg_declutter (recommendations r).
Proof.
  intros Hlen Hall. cbv zeta.
  rewrite <- scorer_types, (all_of_type _ _ Hall), Hlen.
  destruct (result_fields (repeat (item "tv") 20) roomType)
    as (_ & _ & Hb & He & _ & _ & Hr & _).
  rewrite Hb, He, Hr, rules_table.
  split; [vm_compute; reflexivity|]. split; [vm_compute; reflexivity|].
  unfold fired, room_rules. cbn [filter fires].
  destruct (String.eqb roomType "bedroom"); vm_compute; tauto.
Qed.

Lemma C2_all_tv_scenario_witness :
  elementBalance (calculateDesignFengShui (repeat (item "tv") 20) "office") = num 20.
Proof.
  refine (proj1 (C2_all_tv_scenario (repeat (item "tv") 20) "office" eq_refl _)).
  repeat constructor.
Defined.

(** ** Purity: the scorer in the store *)

Lemma run_bind_step {A B : Type} (c : Run A) (k : A -> Run B) s a s' :
  c s = Some (a, s') -> run_bind c k s = k a s'.
Proof. intros H. unfold run_bind. rewrite H. reflexivity. Qed.

Ltac step tac := eapply eq_trans; [apply run_bind_step; tac | cbv beta].

Lemma nth_error_old (h f : list Object) r o :
  nth_error h r = Some o -> nth_error (h ++ f) r = Some o.
Proof.
  intros H. rewrite nth_error_app1; [exact H|].
  apply nth_error_Some. congruence.
Qed.

Lemma nth_error_fresh (h f : list Object) k :
  nth_error (h ++ f) (List.length h + k)%nat = nth_error f k.
Proof.
  rewrite nth_error_app2 by lia. f_equal. lia.
Qed.

Lemma update_fresh (h f : list Object) k o :
  update (h ++ f) (List.length h + k)%nat o = (h ++ update f k o)%list.
Proof.
  induction h as [|a h IH]; cbn [List.length app Nat.add update].
  - reflexivity.
  - rewrite IH. reflexivity.
Qed.

Lemma alloc_fresh w (h f : list Object) o :
  alloc o (mkStore w (h ++ f)) =
  Some ((List.length h + List.length f)%nat, mkStore w (h ++ (f ++ [o]))).
Proof.
  unfold alloc. cbn [heap world]. rewrite length_app, app_assoc. reflexivity.
Qed.

Lemma load_at s r o : nth_error (heap s) r = Some o -> load r s = Some (o, s).
Proof. intros H. unfold load. rewrite H. reflexivity. Qed.

Lemma load_items_at s r items :
  nth_error (heap s) r = Some (items_array items) -> load_items r s = Some (items, s).
Proof. intros H. unfold load_items. step ltac:(apply load_at; exact H). reflexivity. Qed.

Lemma load_counts_at s r counts :
  nth_error (heap s) r = Some (counts_object counts) -> load_counts r s = Some (counts, s).
Proof. intros H. unfold load_counts. step ltac:(apply load_at; exact H). reflexivity. Qed.

Lemma load_energy_at s r energy :
  nth_error (heap s) r = Some (energy_object energy) -> load_energy r s = Some (energy, s).
Proof. intros H. unfold load_energy. step ltac:(apply load_at; exact H). reflexivity. Qed.

Lemma load_strings_at s r strings :
  nth_error (heap s) r = Some (strings_array strings) -> load_strings r s = Some (strings, s).
Proof. intros H. unfold load_strings. step ltac:(apply load_at; exact H). reflexivity. Qed.

Lemma store_fresh w (h f : list Object) k o o' :
  nth_error f k = Some o' ->
  store (List.length h + k)%nat o (mkStore w (h ++ f)) =
  Some (tt, mkStore w (h ++ update f k o)).
Proof.
  intros H. unfold store. cbn [heap world].
  rewrite nth_error_fresh, H, update_fresh. reflexivity.
Qed.

(** *** The tallying loop *)

Lemma run_increment_element_fresh w h k f counts key :
  nth_error f k = Some (counts_object counts) ->
  run_increment_element (List.length h + k)%nat key (mkStore w (h ++ f)) =
  Some (tt, mkStore w (h ++ update f k (counts_object (increment_element key counts)))).
Proof.
  intros H. unfold run_increment_element.
  step ltac:(apply load_counts_at; cbn [heap]; rewrite nth_error_fresh; exact H).
  apply (store_fresh w h f k _ _ H).
Qed.

Lemma run_increment_energy_fresh w h k f energy key :
  nth_error f k = Some (energy_object energy) ->
  run_increment_energy (List.length h + k)%nat key (mkStore w (h ++ f)) =
  Some (tt, mkStore w (h ++ update f k (energy_object (increment_energy key energy)))).
Proof.
  intros H. unfold run_increment_energy.
  step ltac:(apply load_energy_at; cbn [heap]; rewrite nth_error_fresh; exact H).
  apply (store_fresh w h f k _ _ H).
Qed.

(** One turn of the loop updates the two objects as [tally] does, and
    nothing else. *)
Lemma run_tally_fresh w h counts energy item :
  run_tally (List.length h + 0)%nat (List.length h + 1)%nat item
    (mkStore w (h ++ [counts_object counts; energy_object energy])) =
  Some (tt, mkStore w (h ++ [counts_object (fst (tally (counts, energy) item));
                             energy_object (snd (tally (counts, energy) item))])).
Proof.
  unfold run_tally, tally.
  destruct (get (type item)) as [data| |].
  - step ltac:(apply run_increment_element_fresh; reflexivity).
    rewrite run_increment_energy_fresh with (energy := energy) by reflexivity.
    reflexivity.
  - step ltac:(apply run_increment_element_fresh; reflexivity).
    rewrite run_increment_energy_fresh with (energy := energy) by reflexivity.
    reflexivity.
  - reflexivity.
Qed.

Lemma skipn_nth_error {A : Type} (l : list A) k x :
  nth_error l k = Some x -> skipn k l = x :: skipn (S k) l.
Proof.
  revert k. induction l as [|a l IH]; intros [|k]; cbn; try discriminate.
  - intros [= ->]. reflexivity.
  - intros H. apply (IH k H).
Qed.

Lemma forEach_tally w h elements items :
  nth_error h elements = Some (items_array items) ->
  forall remaining k counts energy,
    (k + remaining = List.length items)%nat ->
    forEach_from elements k remaining
       (run_tally (List.length h + 0)%nat (List.length h + 1)%nat)
       (mkStore w (h ++ [counts_object counts; energy_object energy])) =
    Some (tt, mkStore w
                (h ++ [counts_object (fst (fold_left tally (skipn k items) (counts, energy)));
                       energy_object (snd (fold_left tally (skipn k items) (counts, energy)))])).
Proof.
  intros Hel. induction remaining as [|remaining IH]; intros k counts energy Hk.
  - rewrite skipn_all2 by lia. reflexivity.
  - cbn [forEach_from].
    step ltac:(apply load_items_at; cbn [heap]; apply nth_error_old; exact Hel).
    destruct (nth_error items k) as [item|] eqn:Hitem.
    + step ltac:(apply run_tally_fresh).
      rewrite IH by lia.
      rewrite (skipn_nth_error items k item Hitem). cbn [fold_left].
      destruct (tally (counts, energy) item) as [counts' energy']. reflexivity.
    + apply nth_error_None in Hitem. lia.
Qed.

(** *** The recommendations *)

Lemma run_push_last w h strings msg :
  run_push (List.length h) msg (mkStore w (h ++ [strings_array strings])) =
  Some (tt, mkStore w (h ++ [strings_array (push strings msg)])).
Proof.
  replace (List.length h) with (List.length h + 0)%nat by lia.
  unfold run_push.
  step ltac:(apply load_strings_at; cbn [heap]; rewrite nth_error_fresh; reflexivity).
  rewrite store_fresh with (o' := strings_array strings) by reflexivity.
  reflexivity.
Qed.

Lemma when_push_last w h strings msg condition :
  when condition (run_push (List.length h) msg) (mkStore w (h ++ [strings_array strings])) =
  Some (tt, mkStore w (h ++ [strings_array (if condition then push strings msg else strings)])).
Proof. destruct condition; [apply run_push_last|reflexivity]. Qed.

Lemma run_generateRecommendations_spec w h elements energy placed counts balance items roomType :
  nth_error h elements = Some (counts_object counts) ->
  nth_error h energy = Some (energy_object balance) ->
  nth_error h placed = Some (items_array items) ->
  run_generateRecommendations elements energy placed roomType (mkStore w h) =
  Some (List.length h,
        mkStore w (h ++ [strings_array (generateRecommendations counts balance items roomType)])).
Proof.
  intros Hc He Hp. unfold run_generateRecommendations.
  step ltac:(unfold alloc; cbn [heap world]; reflexivity).
  assert (Lc : forall l, load_counts elements (mkStore w (h ++ [strings_array l])) =
                         Some (counts, mkStore w (h ++ [strings_array l])))
    by (intros l; apply load_counts_at; cbn [heap]; apply nth_error_old; exact Hc).
  assert (Le : forall l, load_energy energy (mkStore w (h ++ [strings_array l])) =
                         Some (balance, mkStore w (h ++ [strings_array l])))
    by (intros l; apply load_energy_at; cbn [heap]; apply nth_error_old; exact He).
  assert (Lp : forall l, load_items placed (mkStore w (h ++ [strings_array l])) =
                         Some (items, mkStore w (h ++ [strings_array l])))
    by (intros l; apply load_items_at; cbn [heap]; apply nth_error_old; exact Hp).
  step ltac:(apply Lc). step ltac:(apply when_push_last).
  step ltac:(apply Lc). step ltac:(apply when_push_last).
  step ltac:(apply Lc). step ltac:(apply when_push_last).
  step ltac:(apply Lc). step ltac:(apply when_push_last).
  step ltac:(apply Lc). step ltac:(apply when_push_last).
  step ltac:(apply Le). step ltac:(apply Le). cbv zeta.
  unfold generateRecommendations. cbv zeta.
  set (l5 := if metal counts =? 0 then _ else _).
  eapply eq_trans.
  { apply run_bind_step.
    instantiate (1 := mkStore w (h ++ [strings_array
       (if (num (yang balance) / num (yin balance + yang balance) > lit_0_7)%js
        then push l5 msg_too_yang
        else if (num (yang balance) / num (yin balance + yang balance) < lit_0_3)%js
             then push l5 msg_too_yin else l5)])).
    instantiate (1 := tt).
    destruct (_ > lit_0_7)%js; [apply run_push_last|].
    destruct (_ < lit_0_3)%js; [apply run_push_last|reflexivity]. }
  cbv beta.
  set (l6 := if (_ > lit_0_7)%js then _ else _).
  eapply eq_trans.
  { apply run_bind_step.
    instantiate (1 := mkStore w (h ++ [strings_array
       (if String.eqb roomType "bedroom"
        then let l7 := if negb (some_of_type items "plant") then push l6 msg_plants else l6 in
             if some_of_type items "mirror" then push l7 msg_mirror else l7
        else l6)])).
    instantiate (1 := tt).
    destruct (String.eqb roomType "bedroom"); [|reflexivity].
    step ltac:(apply Lp). step ltac:(apply when_push_last).
    step ltac:(apply Lp). apply when_push_last. }
  cbv beta zeta.
  set (l8 := if String.eqb roomType "bedroom" then _ else _).
  step ltac:(apply Lp). step ltac:(apply when_push_last).
  step ltac:(apply load_strings_at; cbn [heap];
             replace (List.length h) with (List.length h + 0)%nat by lia;
             rewrite nth_error_fresh; reflexivity).
  step ltac:(apply when_push_last).
  reflexivity.
Qed.

(** *** The score functions *)

Lemma run_calculateElementBalanceScore_spec s counts object :
  nth_error (heap s) counts = Some (counts_object object) ->
  run_calculateElementBalanceScore counts s = Some (calculateElementBalanceScore object, s).
Proof.
  intros H. unfold run_calculateElementBalanceScore, calculateElementBalanceScore.
  step ltac:(apply load_counts_at; exact H). cbv zeta.
  destruct (_ === num 0)%js; [reflexivity|].
  step ltac:(apply load_counts_at; exact H). reflexivity.
Qed.

Lemma run_calculateEnergyBalanceScore_spec s energy object :
  nth_error (heap s) energy = Some (energy_object object) ->
  run_calculateEnergyBalanceScore energy s = Some (calculateEnergyBalanceScore object, s).
Proof.
  intros H. unfold run_calculateEnergyBalanceScore, calculateEnergyBalanceScore.
  step ltac:(apply load_energy_at; exact H). cbv zeta.
  destruct (_ =? 0); [reflexivity|].
  step ltac:(apply load_energy_at; exact H). cbv zeta.
  destruct (_ && _); [reflexivity|]. destruct (_ && _); reflexivity.
Qed.

Lemma run_calculateSpacialScore_spec s elements items :
  nth_error (heap s) elements = Some (items_array items) ->
  run_calculateSpacialScore elements s = Some (calculateSpacialScore items, s).
Proof.
  intros H. unfold run_calculateSpacialScore, calculateSpacialScore.
  step ltac:(apply load_items_at; exact H). cbv zeta.
  repeat (destruct (_ <? _); [reflexivity|]). reflexivity.
Qed.

Lemma run_calculateFunctionalScore_spec s elements items roomType :
  nth_error (heap s) elements = Some (items_array items) ->
  run_calculateFunctionalScore elements roomType s =
  Some (calculateFunctionalScore items roomType, s).
Proof.
  intros H. unfold run_calculateFunctionalScore, calculateFunctionalScore.
  step ltac:(apply load_items_at; exact H). reflexivity.
Qed.

(** *** The whole function *)

(** Run on a reference to an array of items, in any store, the scorer
    returns; it leaves the world and every object of the store as they
    were, adds three objects, and what the object it returns holds is
    what [calculateDesignFengShui] computes from the items. *)
Lemma run_calculateDesignFengShui_spec s elements items roomType :
  nth_error (heap s) elements = Some (items_array items) ->
  exists a fresh,
    run_calculateDesignFengShui elements roomType s =
      Some (a, mkStore (world s) (heap s ++ fresh)) /\
    contents (heap s ++ fresh) a = Some (calculateDesignFengShui items roomType) /\
    List.length fresh = 3%nat.
Proof.
  destruct s as [w h]. cbn [heap world]. intros Hel.
  unfold run_calculateDesignFengShui, calculateDesignFengShui.
  destruct (fold_left tally items (mkCounts 0 0 0 0 0 None, mkEnergy 0 0 None))
    as [counts energy] eqn:Hfold.
  exists (mkAnalysisObject
            (Math_round (calculateElementBalanceScore counts * lit_0_3
                         + calculateEnergyBalanceScore energy * lit_0_25
                         + calculateSpacialScore items * lit_0_25
                         + calculateFunctionalScore items roomType * lit_0_2)%js)
            (calculateElementBalanceScore counts) (calculateEnergyBalanceScore energy)
            (calculateSpacialScore items) (calculateFunctionalScore items roomType)
            (List.length h + 0)%nat (List.length h + 1)%nat (List.length h + 2)%nat),
         [counts_object counts; energy_object energy;
          strings_array (generateRecommendations counts energy items roomType)].
  split; [|split; [|reflexivity]].
  - rewrite <- (app_nil_r h) at 1.
    step ltac:(apply alloc_fresh). cbn [List.length app].
    step ltac:(apply alloc_fresh). cbn [List.length app].
    step ltac:(unfold run_forEach;
               step ltac:(apply load_items_at; cbn [heap]; apply nth_error_old; exact Hel);
               apply (forEach_tally w h elements items Hel); reflexivity).
    cbn [skipn]. rewrite Hfold. cbn [fst snd].
    step ltac:(apply run_calculateElementBalanceScore_spec with (object := counts);
               cbn [heap]; rewrite nth_error_fresh; reflexivity).
    step ltac:(apply run_calculateEnergyBalanceScore_spec with (object := energy);
               cbn [heap]; rewrite nth_error_fresh; reflexivity).
    step ltac:(apply run_calculateSpacialScore_spec with (items := items);
               cbn [heap]; apply nth_error_old; exact Hel).
    step ltac:(apply run_calculateFunctionalScore_spec with (items := items);
               cbn [heap]; apply nth_error_old; exact Hel).
    cbv zeta.
    step ltac:(apply (run_generateRecommendations_spec w _ _ _ _ counts energy items);
               [rewrite nth_error_fresh; reflexivity
               |rewrite nth_error_fresh; reflexivity
               |apply nth_error_old; exact Hel]).
    rewrite length_app, <- app_assoc. cbn [List.length app]. reflexivity.
  - unfold contents. cbn [object_elementCounts object_energyBalance object_recommendations].
    rewrite !nth_error_fresh. cbn [nth_error]. reflexivity.
Qed.

(** C8. Run on arrays that hold the same items and with the same room
    type, in any two stores (whatever the three globals, the numbers
    [Math.random] is still to return and the objects that exist), the
    scorer returns, and the two analysis objects hold the same scores,
    counts and recommendations: those of [calculateDesignFengShui] on the
    items.  Each run leaves the globals, the random numbers and every
    object of its store as it found them, the array it was given
    included; all it adds are the three objects its result refers to. *)
Theorem C8_scorer_is_pure (s1 s2 : Store) (elements1 elements2 : Ref)
    (items : list PlacedItem) (roomType : string) :
  nth_error (heap s1) elements1 = Some (items_array items) ->
  nth_error (heap s2) elements2 = Some (items_array items) ->
  exists a1 a2 fresh1 fresh2 analysis,
    run_calculateDesignFengShui elements1 roomType s1 =
      Some (a1, mkStore (world s1) (heap s1 ++ fresh1)) /\
    run_calculateDesignFengShui elements2 roomType s2 =
      Some (a2, mkStore (world s2) (heap s2 ++ fresh2)) /\
    contents (heap s1 ++ fresh1) a1 = Some analysis /\
    contents (heap s2 ++ fresh2) a2 = Some analysis /\
    analysis = calculateDesignFengShui items roomType /\
    List.length fresh1 = 3%nat /\ List.length fresh2 = 3%nat.
Proof.
  intros H1 H2.
  destruct (run_calculateDesignFengShui_spec s1 elements1 items roomType H1)
    as (a1 & fresh1 & R1 & C1 & L1).
  destruct (run_calculateDesignFengShui_spec s2 elements2 items roomType H2)
    as (a2 & fresh2 & R2 & C2 & L2).
  exists a1, a2, fresh1, fresh2, (calculateDesignFengShui items roomType).
  repeat split; assumption.
Qed.

Lemma C8_scorer_is_pure_witness :
  exists a1 a2 fresh1 fresh2 analysis,
    run_calculateDesignFengShui 0%nat "bedroom" quiet_store =
      Some (a1, mkStore (world quiet_store) (heap quiet_store ++ fresh1)) /\
    run_calculateDesignFengShui 2%nat "bedroom" busy_store =
      Some (a2, mkStore (world busy_store) (heap busy_store ++ fresh2)) /\
    contents (heap quiet_store ++ fresh1) a1 = Some analysis /\
    contents (heap busy_store ++ fresh2) a2 = Some analysis /\
    analysis = calculateDesignFengShui [item "bed"; item "lamp"] "bedroom" /\
    List.length fresh1 = 3%nat /\ List.length fresh2 = 3%nat.
Proof.
  exact (C8_scorer_is_pure quiet_store busy_store 0%nat 2%nat
           [item "bed"; item "lamp"] "bedroom" eq_refl eq_refl).
Defined.

(** The photo mode does write the world: run in a store, it uses up six
    of the pending random numbers. *)
Lemma on_world_simulatePhotoAnalysis s :
  exists a,
    on_world simulatePhotoAnalysis s =
    Some (a, mkStore (mkWorld (globals (world s))
                              (fun n => random_tape (world s) (6 + n)%nat))
                     (heap s)).
Proof. eexists. reflexivity. Qed.

(** By contrast the photo mode is not pure: it returns different scores
    in worlds that differ in the pending random numbers only. *)
Lemma simulatePhotoAnalysis_depends_on_world :
  let g := mkGlobals (Some "upload") [] [("north", Some "photo")] in
  let w1 := mkWorld g (fun _ => num 0) in
  let w2 := mkWorld g (fun _ => lit_0_7) in
  photo_overallScore (fst (simulatePhotoAnalysis w1)) = num 58 /\
  photo_overallScore (fst (simulatePhotoAnalysis w2)) = num 68.
Proof. vm_compute. split; reflexivity. Qed.

(** ** Ranges of the sub-scores *)

(** Reading back small integers. *)
Lemma same_number_eq a b : same_number a b = true -> a = b.
Proof.
  destruct a as [s|s| |s m e], b as [t|t| |t n f]; cbn; try discriminate; auto.
  - intros H. apply Bool.eqb_prop in H. congruence.
  - intros H. apply Bool.eqb_prop in H. congruence.
  - intros H. apply andb_true_iff in H. destruct H as [H He].
    apply andb_true_iff in H. destruct H as [Hs Hm].
    apply Bool.eqb_prop in Hs. apply Pos.eqb_eq in Hm. apply Z.eqb_eq in He.
    congruence.
Qed.

Lemma in_balance_values n : 0 <= n <= 100 -> In n balance_values.
Proof.
  intros H. unfold balance_values. apply in_map_iff.
  exists (Z.to_nat n). split; [lia|]. apply in_seq. lia.
Qed.

Lemma int_of_num_small n : 0 <= n <= 100 -> int_of (num n) = Some n.
Proof.
  intros H. apply in_balance_values in H.
  assert (Hall : forallb (fun n => match int_of (num n) with
                                   | Some k => k =? n | None => false end)
                         balance_values = true) by (vm_compute; reflexivity).
  rewrite forallb_forall in Hall. specialize (Hall n H).
  destruct (int_of (num n)); [|discriminate].
  apply Z.eqb_eq in Hall. congruence.
Qed.

(** The total and the summed deviation are not negative (or are
    [NaN]). *)
Lemma fold_add_nonneg l : forall a,
  Forall nan_or_nonneg l -> nan_or_nonneg a -> nan_or_nonneg (fold_left add l a).
Proof.
  induction l as [|x l IH]; intros a Hl Ha; [exact Ha|].
  inversion Hl; subst. cbn [fold_left]. apply IH; auto with numbers.
Qed.

Lemma fold_deviation_nonneg ideal l : forall a,
  nan_or_nonneg a ->
  nan_or_nonneg (fold_left (fun sum count => sum + Math_abs (count - ideal))%js l a).
Proof.
  induction l as [|x l IH]; intros a Ha; [exact Ha|].
  cbn [fold_left]. apply IH. auto with numbers.
Qed.

Lemma values_nonneg c : tallied c -> Forall nan_or_nonneg (Object_values c).
Proof.
  intros (Hw & Hf & He & Hm & Hwa & Hu). unfold Object_values.
  apply Forall_app. split.
  - repeat apply Forall_cons; auto with numbers.
  - destruct Hu as [-> | ->]; auto with numbers.
Qed.

(** The element balance is [NaN] or an integer between 0 and 100. *)
Lemma elementBalance_range c : tallied c ->
  calculateElementBalanceScore c = NaN \/ in_0_100 (calculateElementBalanceScore c).
Proof.
  intros Hc. unfold calculateElementBalanceScore.
  pose proof (values_nonneg c Hc) as Hv.
  set (total := fold_left _ (Object_values c) (num 0)).
  assert (Ht : nan_or_nonneg total)
    by (apply fold_add_nonneg; auto with numbers zarith).
  destruct (total === num 0)%js.
  - right. exists 0. split; [lia|reflexivity].
  - destruct (round_max_sub_100
                ((fold_left (fun sum count => sum + Math_abs (count - total / num 5))%js
                            (Object_values c) (num 0) / total) * num 50)%js) as [H|H].
    + apply mul_nonneg; [apply div_nonneg; [|exact Ht]|]; auto with numbers zarith.
      apply fold_deviation_nonneg. auto with numbers zarith.
    + now left.
    + now right.
Qed.

(** The loop leaves counts that are not negative. *)
Lemma tally_tallied items : forall c e,
  tallied c -> tallied (fst (fold_left tally items (c, e))).
Proof.
  induction items as [|it items IH]; intros c e Hc; [exact Hc|].
  cbn [fold_left]. rewrite (surjective_pairing (tally (c, e) it)). apply IH.
  destruct Hc as (Hw & Hf & He & Hm & Hwa & Hu).
  unfold tally. destruct (get (type it)) as [[[] en pl bg]| |]; cbn;
    unfold tallied; cbn; repeat split; try lia; auto.
  right. destruct Hu as [-> | ->]; reflexivity.
Qed.

(** The values of the three other sub-scores. *)
Lemma energy_values_spec b : exists n, In n energy_values /\ calculateEnergyBalanceScore b = num n.
Proof.
  unfold calculateEnergyBalanceScore, energy_values.
  repeat match goal with |- context [if ?c then _ else _] => destruct c end;
    eexists; (split; [|reflexivity]); cbn; auto 10.
Qed.

Lemma spacial_values_spec elements :
  exists n, In n spacial_values /\ calculateSpacialScore elements = num n.
Proof.
  rewrite spacial_cases. cbv zeta. unfold spacial_values.
  repeat match goal with |- context [if ?b then _ else _] => destruct b end;
    eexists; (split; [|reflexivity]); cbn; auto 10.
Qed.

Lemma functional_values_spec elements roomType :
  exists n, In n functional_values /\ calculateFunctionalScore elements roomType = num n.
Proof.
  rewrite functional_additive. eexists. split; [|reflexivity].
  unfold functional_points, functional_values, bonus.
  generalize (includes (map type elements)). intros has.
  destruct (String.eqb roomType "bedroom");
    [destruct (has "bed"), (has "plant"), (has "mirror"), (has "lamp")
    |destruct (String.eqb roomType "living");
     [destruct (has "sofa"), (has "plant"), (has "lamp"), (has "chandelier")
     |destruct (String.eqb roomType "office");
      [destruct (has "desk"), (has "chair"), (has "plant"), (has "bookshelf")|]]];
    cbn; auto 10.
Qed.

(** The overall score of integer sub-scores, by evaluation of every
    combination. *)
Lemma overall_exact_all :
  forallb (fun b => forallb (fun e => forallb (fun s => forallb (fun f =>
    overall_exact b e s f) functional_values) spacial_values) energy_values)
    balance_values = true.
Proof. vm_compute. reflexivity. Qed.

Lemma overall_exact_holds b e s f :
  In b balance_values -> In e energy_values -> In s spacial_values ->
  In f functional_values ->
  overall_of b e s f = num (weighted_round b e s f) /\
  0 <= weighted_round b e s f <= 100.
Proof.
  intros Hb He Hs Hf.
  pose proof overall_exact_all as H.
  rewrite forallb_forall in H. specialize (H b Hb).
  rewrite forallb_forall in H. specialize (H e He).
  rewrite forallb_forall in H. specialize (H s Hs).
  rewrite forallb_forall in H. specialize (H f Hf).
  unfold overall_exact in H.
  apply andb_true_iff in H. destruct H as [H H3].
  apply andb_true_iff in H. destruct H as [H1 H2].
  apply same_number_eq in H1. apply Z.leb_le in H2, H3. auto.
Qed.

(** ** Overall score *)

Lemma energy_values_small n : In n energy_values -> 0 <= n <= 100.
Proof. cbn. intuition lia. Qed.

Lemma spacial_values_small n : In n spacial_values -> 0 <= n <= 100.
Proof. cbn. intuition lia. Qed.

Lemma functional_values_small n : In n functional_values -> 0 <= n <= 100.
Proof. cbn. intuition lia. Qed.

Lemma initial_tallied : tallied (mkCounts 0 0 0 0 0 None).
Proof. unfold tallied. cbn. repeat split; auto; lia. Qed.

Lemma overall_of_NaN x y z :
  Math_round (NaN * lit_0_3 + x * lit_0_25 + y * lit_0_25 + z * lit_0_2)%js = NaN.
Proof. reflexivity. Qed.

(** C1. The overall score is [Math.round] of the weighted sum of the four
    sub-scores of the same result, with weights 0.30, 0.25, 0.25 and 0.20.
    Read as integers, it is the weighted sum computed exactly and rounded
    to the nearest integer; it is a number exactly when the element
    balance is one. *)
Theorem C1_overallScore_weighted_round (elements : list PlacedItem) (roomType : string) :
  let r := calculateDesignFengShui elements roomType in
  overallScore r =
    Math_round (elementBalance r * lit_0_3 + energyScore r * lit_0_25
                + spacialScore r * lit_0_25 + functionalScore r * lit_0_2)%js /\
  int_of (overallScore r) =
    match int_of (elementBalance r), int_of (energyScore r),
          int_of (spacialScore r), int_of (functionalScore r) with
    | Some b, Some e, Some s, Some f => Some (weighted_round b e s f)
    | _, _, _, _ => None
    end.
Proof.
  cbv zeta.
  destruct (result_fields elements roomType)
    as (Hc & _ & Hb & He & Hs & Hf & _ & Ho).
  split; [exact Ho|]. rewrite Ho.
  destruct (energy_values_spec (snd (fold_left tally elements
              (mkCounts 0 0 0 0 0 None, mkEnergy 0 0 None)))) as (e & Hine & Hev).
  destruct (spacial_values_spec elements) as (s & Hins & Hsv).
  destruct (functional_values_spec elements roomType) as (f & Hinf & Hfv).
  rewrite He, Hev, Hs, Hsv, Hf, Hfv.
  rewrite (int_of_num_small e (energy_values_small e Hine)).
  rewrite (int_of_num_small s (spacial_values_small s Hins)).
  rewrite (int_of_num_small f (functional_values_small f Hinf)).
  destruct (elementBalance_range _ (tally_tallied elements _ (mkEnergy 0 0 None)
                                      initial_tallied)) as [Hnan|(b & Hb100 & Hbv)];
    rewrite Hb.
  - rewrite Hnan, overall_of_NaN. reflexivity.
  - rewrite Hbv. rewrite (int_of_num_small b Hb100).
    fold (overall_of b e s f).
    destruct (overall_exact_holds b e s f (in_balance_values b Hb100) Hine Hins Hinf)
      as [Hov Hr].
    rewrite Hov. apply int_of_num_small. exact Hr.
Qed.

(** ** Energy score, exactly *)

(** The comparisons of the energy score, read on the integers. *)
Lemma leb_of_compare a b : match a ?= b with Gt => false | _ => true end = (a <=? b).
Proof. reflexivity. Qed.

Lemma ge_threshold c y t p q :
  SFcompare c (div (num y) (num t)) = Some (p ?= q) ->
  (div (num y) (num t) >= c)%js = (p <=? q).
Proof.
  intros H. unfold le, SFleb. rewrite H. unfold Z.leb. destruct (p ?= q); reflexivity.
Qed.

Lemma le_threshold mc ec y t p q : 0 < y <= t -> t < 2 ^ 53 ->
  SFcompare (S754_finite false mc ec) (div (num y) (num t)) = Some (p ?= q) ->
  (div (num y) (num t) <= S754_finite false mc ec)%js = (q <=? p).
Proof.
  intros Hy Ht H.
  destruct (div_num_num y t Hy Ht) as (m & e & Hdiv & _).
  rewrite Hdiv in H |- *. apply compare_swap in H.
  unfold le, SFleb. rewrite H. unfold Z.leb. rewrite (Z.compare_antisym p q).
  destruct (p ?= q); reflexivity.
Qed.

(** The energy score of two tallies is the tier of their exact
    ratio. *)
Lemma energy_score_exact b :
  0 <= yin b -> 0 <= yang b -> 0 < yin b + yang b < 2 ^ 32 ->
  calculateEnergyBalanceScore b = num (energy_tier (yang b) (yin b + yang b)).
Proof.
  intros Hyin Hyang Ht. unfold calculateEnergyBalanceScore, energy_tier.
  set (t := yin b + yang b) in *. set (y := yang b) in *.
  destruct (Z.eqb_spec t 0) as [H0|_]; [lia|].
  destruct (Z.eq_dec y 0) as [Hy0|Hy0].
  - (* no yang at all: the ratio is zero *)
    rewrite Hy0. destruct t as [|pt|pt]; try lia.
    rewrite (num_pos pt) by lia. cbn.
    destruct (Z.leb_spec (Zpos pt~0) 0); [lia|].
    destruct (Z.leb_spec (Zpos pt~1 + Zpos pt~0) 0); [lia|]. reflexivity.
  - assert (Hy : 0 < y <= t) by (unfold y, t in *; lia).
    rewrite (ge_threshold _ _ _ _ _ (compare_0_4 y t Hy ltac:(lia))).
    rewrite (ge_threshold _ _ _ _ _ (compare_0_3 y t Hy ltac:(lia))).
    unfold lit_0_6, lit_0_7.
    rewrite (le_threshold _ _ y t _ _ Hy ltac:(lia) (compare_0_6 y t Hy ltac:(lia))).
    rewrite (le_threshold _ _ y t _ _ Hy ltac:(lia) (compare_0_7 y t Hy ltac:(lia))).
    repeat match goal with |- context [if ?c then _ else _] => destruct c end;
      reflexivity.
Qed.

Lemma exists_catalogued_count elements :
  existsb catalogued elements = true -> 0 < count catalogued elements.
Proof.
  induction elements as [|it l IH]; [discriminate|].
  cbn [existsb]. rewrite count_cons. pose proof (count_nonneg catalogued l) as Hl.
  destruct (catalogued it); [lia|]. cbn [orb]. intros H. specialize (IH H). lia.
Qed.

(** C4.  Of a list with at least one catalogued item, the yin tally
    counts the items whose energy is yin or neutral and the yang tally
    those whose energy is yang.  The energy score is a three-tier bucket of
    the yang share of the two: 100 when the share lies in [0.4, 0.6], 80
    when it lies in [0.3, 0.7] outside that band, and 60 otherwise.  The
    code decides on the binary64 quotient and the binary64 literals; for
    an array (fewer than 2^32 items) this is the decision on the exact
    share. *)
Theorem C4_energyScore_three_tiers (elements : list PlacedItem) (roomType : string) :
  existsb catalogued elements = true ->
  let r := calculateDesignFengShui elements roomType in
  let Y := count is_yang elements in
  let T := count is_yin_or_neutral elements + count is_yang elements in
  yin (energyBalance r) = count is_yin_or_neutral elements /\
  yang (energyBalance r) = Y /\
  0 < T /\
  energyScore r =
    (let ratio := (num Y / num T)%js in
     if (ratio >= lit_0_4)%js && (ratio <= lit_0_6)%js then num 100
     else if (ratio >= lit_0_3)%js && (ratio <= lit_0_7)%js then num 80
     else num 60) /\
  (Z.of_nat (List.length elements) < 2 ^ 32 ->
   energyScore r = num (energy_tier Y T) /\
   (2 * T <= 5 * Y <= 3 * T -> energyScore r = num 100) /\
   (3 * T <= 10 * Y <= 7 * T -> ~ (2 * T <= 5 * Y <= 3 * T) -> energyScore r = num 80) /\
   (~ (3 * T <= 10 * Y <= 7 * T) -> energyScore r = num 60)).
Proof.
  intros Hsome. cbv zeta.
  destruct (result_fields elements roomType) as (_ & He & _ & Hs & _).
  pose proof (tally_counts elements (mkCounts 0 0 0 0 0 None) (mkEnergy 0 0 None)) as Ht.
  cbv zeta in Ht. destruct Ht as (_ & _ & _ & _ & _ & Hyin & Hyang).
  cbn [yin yang] in Hyin, Hyang. rewrite Z.add_0_l in Hyin, Hyang.
  pose proof (exists_catalogued_count elements Hsome) as Hpos.
  pose proof (count_le_length catalogued elements) as Hle.
  rewrite count_catalogued_energy in Hpos, Hle.
  pose proof (count_nonneg is_yang elements) as HY.
  pose proof (count_nonneg is_yin_or_neutral elements) as HN.
  rewrite He, Hs.
  set (b := snd (fold_left tally elements _)) in *.
  split; [exact Hyin|]. split; [exact Hyang|]. split; [exact Hpos|]. split.
  - unfold calculateEnergyBalanceScore. rewrite Hyin, Hyang.
    destruct (Z.eqb_spec (count is_yin_or_neutral elements + count is_yang elements) 0);
      [lia|reflexivity].
  - intros Hlen.
    assert (Hscore : calculateEnergyBalanceScore b =
                     num (energy_tier (count is_yang elements)
                            (count is_yin_or_neutral elements + count is_yang elements))).
    { rewrite energy_score_exact; rewrite ?Hyin, ?Hyang; try lia. reflexivity. }
    split; [exact Hscore|]. rewrite Hscore. unfold energy_tier.
    set (Y := count is_yang elements) in *.
    set (T := count is_yin_or_neutral elements + Y) in *.
    repeat split; intros;
      destruct (Z.leb_spec (2 * T) (5 * Y)) as [?|?];
      destruct (Z.leb_spec (5 * Y) (3 * T)) as [?|?];
      destruct (Z.leb_spec (3 * T) (10 * Y)) as [?|?];
      destruct (Z.leb_spec (10 * Y) (7 * T)) as [?|?];
      cbn [andb]; try reflexivity; lia.
Qed.

Lemma C4_energyScore_three_tiers_witness :
  energyScore (calculateDesignFengShui
                 [item "bed"; item "table"; item "tv"; item "piano"] "living") = num 80.
Proof.
  refine (proj1 (proj2 (proj2
            (proj2 (proj2 (proj2 (proj2
               (C4_energyScore_three_tiers
                  [item "bed"; item "table"; item "tv"; item "piano"] "living" _))))
             _)))
          _ _).
  - reflexivity.
  - vm_compute. reflexivity.
  - vm_compute. split; discriminate.
  - vm_compute. intros [H _]. apply H. reflexivity.
Defined.

(** ** Element balance, as the code computes it *)

(** An integer below 2^53 is [=== 0] just when it is 0. *)
Lemma strict_eq_num_0 t : 0 <= t < 2 ^ 53 -> (num t === num 0)%js = (t =? 0).
Proof.
  intros Ht. destruct t as [|p|p]; try lia; [reflexivity|].
  rewrite num_pos by lia. reflexivity.
Qed.

(** Without the [NaN] count, the total is the exact sum of the five
    counts, and the score is the formula over them. *)
Lemma balance_of_plain_counts c :
  0 <= wood c -> 0 <= fire c -> 0 <= earth c -> 0 <= metal c -> 0 <= water c ->
  counts_undefined c = None ->
  wood c + fire c + earth c + metal c + water c < 2 ^ 53 ->
  calculateElementBalanceScore c =
  if wood c + fire c + earth c + metal c + water c =? 0 then num 0
  else balance_of_counts (wood c) (fire c) (earth c) (metal c) (water c).
Proof.
  intros Hw Hf He Hm Hwa Hu Hsum.
  unfold calculateElementBalanceScore, Object_values. rewrite Hu, app_nil_r.
  cbn [fold_left].
  rewrite (add_num_num 0 (wood c)) by lia. rewrite Z.add_0_l.
  rewrite (add_num_num (wood c) (fire c)) by lia.
  rewrite (add_num_num (wood c + fire c) (earth c)) by lia.
  rewrite (add_num_num (wood c + fire c + earth c) (metal c)) by lia.
  rewrite (add_num_num (wood c + fire c + earth c + metal c) (water c)) by lia.
  rewrite strict_eq_num_0 by lia.
  reflexivity.
Qed.

(** The formula over counts of which at least one is positive never
    yields [NaN]. *)
Lemma balance_of_counts_not_nan w f e m wa :
  0 <= w -> 0 <= f -> 0 <= e -> 0 <= m -> 0 <= wa ->
  0 < w + f + e + m + wa < 2 ^ 53 ->
  balance_of_counts w f e m wa <> NaN.
Proof.
  intros Hw Hf He Hm Hwa Ht. unfold balance_of_counts.
  destruct (num_zero_or_finite (w + f + e + m + wa) ltac:(lia)) as [H0|(mt & et & Htot)].
  { destruct (w + f + e + m + wa) as [|p|p]; try lia.
    rewrite num_pos in H0 by lia. discriminate. }
  rewrite Htot.
  assert (Hideal : signed false (S754_finite false mt et / num 5)%js).
  { change (num 5) with (S754_finite false 5629499534213120 (-50)).
    apply div_signed_finite. constructor. }
  set (ideal := (S754_finite false mt et / num 5)%js) in *.
  apply round_not_nan, max_0_not_nan, sub_100_not_nan.
  change (num 50) with (S754_finite false 7036874417766400 (-47)).
  apply mul_signed_finite, div_signed_finite.
  repeat apply add_signed; try (apply abs_signed, sub_num_not_nan; [lia|assumption]).
  constructor.
Qed.

(** C3, as stated, fails.  With the factor 50 of the code, the stated
    value [max 0 (100 - 50 * deviation / total)] fits the twenty
    televisions (20), but: eight catalogued items with counts 3, 2, 1, 1, 1
    score 78 where the stated value is 77.5; with counts 0, 1, 1, 1, 5 they
    score 57 where the stated value 57.5 rounds to 58; and the non-empty
    list of one uncatalogued item scores 0 where the stated value, over
    one item, is 50. *)
Lemma C3_elementBalance_as_stated_fails :
  let score items := elementBalance (calculateDesignFengShui (map item items) "living") in
  agrees (score (repeat "tv" 20)) (elementBalance_as_stated 50 [0; 20; 0; 0; 0] 20) = true /\
  score ["plant"; "plant"; "plant"; "tv"; "tv"; "bed"; "clock"; "mirror"] = num 78 /\
  agrees (num 78) (elementBalance_as_stated 50 [3; 2; 1; 1; 1] 8) = false /\
  score ["tv"; "bed"; "clock"; "fountain"; "fountain"; "fountain"; "fountain"; "fountain"]
    = num 57 /\
  Qround_half_up (elementBalance_as_stated 50 [0; 1; 1; 1; 5] 8) = 58 /\
  score ["piano"] = num 0 /\
  agrees (num 0) (elementBalance_as_stated 50 [0; 0; 0; 0; 0] 1) = false.
Proof. vm_compute. repeat split. Qed.

(** The element balance of a list without inherited types. *)
Lemma elementBalance_of_plain_list elements roomType :
  Z.of_nat (List.length elements) < 2 ^ 32 ->
  forallb (fun it => negb (inherits it)) elements = true ->
  let n el := count (has_element el) elements in
  elementBalance (calculateDesignFengShui elements roomType) =
    (if count catalogued elements =? 0 then num 0
     else balance_of_counts (n Wood) (n Fire) (n Earth) (n Metal) (n Water)) /\
  in_0_100 (elementBalance (calculateDesignFengShui elements roomType)).
Proof.
  intros Hlen Hplain. cbv zeta.
  destruct (result_fields elements roomType) as (_ & _ & Hb & _).
  pose proof (tally_counts elements (mkCounts 0 0 0 0 0 None) (mkEnergy 0 0 None)) as Ht.
  cbv zeta in Ht. destruct Ht as (Hw & Hf & He & Hm & Hwa & _).
  cbn [wood fire earth metal water] in Hw, Hf, He, Hm, Hwa.
  rewrite Z.add_0_l in Hw, Hf, He, Hm, Hwa.
  destruct (tally_undefined elements (mkCounts 0 0 0 0 0 None) (mkEnergy 0 0 None) Hplain)
    as [Hu _]. cbn [counts_undefined] in Hu.
  pose proof (count_le_length catalogued elements) as Hle.
  pose proof (count_catalogued_element elements) as Hsum.
  pose proof (count_nonneg (has_element Wood) elements) as Hnw.
  pose proof (count_nonneg (has_element Fire) elements) as Hnf.
  pose proof (count_nonneg (has_element Earth) elements) as Hne.
  pose proof (count_nonneg (has_element Metal) elements) as Hnm.
  pose proof (count_nonneg (has_element Water) elements) as Hnwa.
  pose proof (tally_tallied elements (mkCounts 0 0 0 0 0 None) (mkEnergy 0 0 None)
                initial_tallied) as Htal.
  pose proof (elementBalance_range _ Htal) as Hrange.
  set (c := fst (fold_left tally elements _)) in *.
  rewrite Hb.
  rewrite (balance_of_plain_counts c) in * by (rewrite ?Hw, ?Hf, ?He, ?Hm, ?Hwa; auto; lia).
  rewrite Hw, Hf, He, Hm, Hwa in *. rewrite <- Hsum in *.
  split; [reflexivity|].
  destruct Hrange as [Hnan|Hin]; [|exact Hin].
  exfalso. revert Hnan.
  destruct (Z.eqb_spec (count catalogued elements) 0) as [H0|H0]; [discriminate|].
  apply balance_of_counts_not_nan; lia.
Qed.

(** C3, amended.  Of a list of fewer than 2^32 items, none of which has a
    type inherited from [Object.prototype]: when no item is catalogued, as
    on the empty list, the element balance is exactly 0; otherwise it is
    [Math.round] of [max 0 (100 - (deviation / total) * 50)] evaluated in
    binary64, where [total] is the number of catalogued items and
    [deviation] sums, in the order wood, fire, earth, metal, water, the
    absolute deviations of the five counts from [total / 5]; it is then an
    integer between 0 and 100. *)
Theorem C3_elementBalance_formula (elements : list PlacedItem) (roomType : string) :
  Z.of_nat (List.length elements) < 2 ^ 32 ->
  forallb (fun it => negb (inherits it)) elements = true ->
  let r := calculateDesignFengShui elements roomType in
  let n el := count (has_element el) elements in
  (count catalogued elements = 0 -> elementBalance r = num 0) /\
  (0 < count catalogued elements ->
   elementBalance r = balance_of_counts (n Wood) (n Fire) (n Earth) (n Metal) (n Water) /\
   in_0_100 (elementBalance r)) /\
  elementBalance (calculateDesignFengShui [] roomType) = num 0.
Proof.
  intros Hlen Hplain. cbv zeta.
  destruct (elementBalance_of_plain_list elements roomType Hlen Hplain) as [Heq Hin].
  cbv zeta in Heq. split; [|split].
  - intros H0. rewrite Heq, H0. reflexivity.
  - intros Hpos. split; [|exact Hin]. rewrite Heq.
    destruct (Z.eqb_spec (count catalogued elements) 0) as [H0|_]; [lia|reflexivity].
  - reflexivity.
Qed.

Lemma C3_elementBalance_formula_witness :
  elementBalance (calculateDesignFengShui [item "piano"] "office") = num 0.
Proof.
  refine (proj1 (C3_elementBalance_formula [item "piano"] "office" _ _) _).
  - vm_compute. reflexivity.
  - reflexivity.
  - reflexivity.
Defined.

(** ** All five scores, without inherited types *)

(** Of a list of fewer than 2^32 items, none of which has a type inherited
    from [Object.prototype], each of the five scores is an integer between
    0 and 100. *)
Theorem scores_in_range_without_inherited_types
    (elements : list PlacedItem) (roomType : string) :
  Z.of_nat (List.length elements) < 2 ^ 32 ->
  forallb (fun it => negb (inherits it)) elements = true ->
  let r := calculateDesignFengShui elements roomType in
  in_0_100 (elementBalance r) /\ in_0_100 (energyScore r) /\
  in_0_100 (spacialScore r) /\ in_0_100 (functionalScore r) /\
  in_0_100 (overallScore r).
Proof.
  intros Hlen Hplain. cbv zeta.
  destruct (elementBalance_of_plain_list elements roomType Hlen Hplain)
    as [_ (b & Hb100 & Hbv)].
  destruct (result_fields elements roomType) as (_ & _ & _ & He & Hs & Hf & _ & Ho).
  destruct (energy_values_spec (snd (fold_left tally elements
              (mkCounts 0 0 0 0 0 None, mkEnergy 0 0 None)))) as (e & Hine & Hev).
  destruct (spacial_values_spec elements) as (s & Hins & Hsv).
  destruct (functional_values_spec elements roomType) as (f & Hinf & Hfv).
  rewrite Ho, Hbv, He, Hev, Hs, Hsv, Hf, Hfv.
  fold (overall_of b e s f).
  destruct (overall_exact_holds b e s f (in_balance_values b Hb100) Hine Hins Hinf)
    as [Hov Hr].
  rewrite Hov. unfold in_0_100.
  repeat split; eauto using energy_values_small, spacial_values_small,
    functional_values_small.
Qed.

(** ** All five scores *)

(** C9. Every score lies between 0 and 100.  Whatever the items, the
    energy score is one of 50, 60, 80, 100, the space score one of 50, 65,
    75, 85, 90 and the functional score an integer from 60 to 100 (in
    fact from 70 to 95: the penalty only ever cancels the bonus of the
    bed).  For an array of items whose types are catalogue keys, or
    strings the catalogue object does not answer to, the element balance
    and the overall score are integers between 0 and 100. *)
Theorem C9_scores_in_range (elements : list PlacedItem) (roomType : string) :
  let r := calculateDesignFengShui elements roomType in
  In (energyScore r) (map num [50; 60; 80; 100]) /\
  In (spacialScore r) (map num [50; 65; 75; 85; 90]) /\
  (exists f, functionalScore r = num f /\ 60 <= f <= 100 /\ 70 <= f <= 95) /\
  (Z.of_nat (List.length elements) < 2 ^ 32 ->
   forallb (fun it => negb (inherits it)) elements = true ->
   in_0_100 (elementBalance r) /\ in_0_100 (overallScore r)).
Proof.
  cbv zeta.
  destruct (result_fields elements roomType) as (_ & _ & _ & He & Hs & Hf & _).
  destruct (energy_values_spec (snd (fold_left tally elements
              (mkCounts 0 0 0 0 0 None, mkEnergy 0 0 None)))) as (e & Hine & Hev).
  destruct (spacial_values_spec elements) as (s & Hins & Hsv).
  destruct (functional_values_spec elements roomType) as (f & Hinf & Hfv).
  split; [|split; [|split; [|]]].
  - rewrite He, Hev. apply in_map. exact Hine.
  - rewrite Hs, Hsv. apply in_map.
    unfold spacial_values in Hins. cbn in Hins |- *. tauto.
  - exists f. rewrite Hf. split; [exact Hfv|].
    unfold functional_values in Hinf. cbn in Hinf. lia.
  - intros Hlen Hplain.
    destruct (scores_in_range_without_inherited_types elements roomType Hlen Hplain)
      as (Hb & _ & _ & _ & Ho).
    split; assumption.
Qed.

Lemma C9_scores_in_range_witness :
  in_0_100 (elementBalance (calculateDesignFengShui
              [item "bed"; item "mirror"; item "tv"; item "plant"; item "piano"] "bedroom")) /\
  in_0_100 (overallScore (calculateDesignFengShui
              [item "bed"; item "mirror"; item "tv"; item "plant"; item "piano"] "bedroom")).
Proof.
  apply (proj2 (proj2 (proj2 (C9_scores_in_range
           [item "bed"; item "mirror"; item "tv"; item "plant"; item "piano"] "bedroom")))).
  - vm_compute. reflexivity.
  - vm_compute. reflexivity.
Defined.

(** * Further properties of the scorer *)

(** ** The order of the items *)

(** Two turns of the tallying loop commute. *)
Lemma tally_comm acc a b : tally (tally acc a) b = tally (tally acc b) a.
Proof.
  destruct acc as [c e]. unfold tally.
  destruct (get (type a)) as [[[] [] pa ba]| |], (get (type b)) as [[[] [] pb bb]| |];
    reflexivity.
Qed.

Lemma fold_tally_permutation l l' : Permutation l l' ->
  forall acc, fold_left tally l acc = fold_left tally l' acc.
Proof.
  induction 1 as [|a l l' _ IH|a b l|l l' l'' _ IH1 _ IH2]; intros acc; cbn [fold_left].
  - reflexivity.
  - apply IH.
  - rewrite tally_comm. reflexivity.
  - rewrite IH1. apply IH2.
Qed.

Lemma existsb_permutation {A} (p : A -> bool) l l' : Permutation l l' ->
  existsb p l = existsb p l'.
Proof.
  induction 1 as [|a l l' _ IH|a b l|l l' l'' _ IH1 _ IH2]; cbn [existsb].
  - reflexivity.
  - now rewrite IH.
  - destruct (p a), (p b); reflexivity.
  - now rewrite IH1.
Qed.

(** X1. The analysis does not depend on the order in which the items
    were placed: two lists that are permutations of one another get the
    same result, field by field, the recommendations and the [NaN] count
    of inherited types included. *)
Theorem X1_placement_order_is_irrelevant (elements elements' : list PlacedItem) (roomType : string) :
  Permutation elements elements' ->
  calculateDesignFengShui elements roomType = calculateDesignFengShui elements' roomType.
Proof.
  intros HP. unfold calculateDesignFengShui.
  rewrite (fold_tally_permutation _ _ HP).
  destruct (fold_left tally elements' _) as [c e].
  unfold calculateSpacialScore, calculateFunctionalScore, generateRecommendations,
    includes, some_of_type.
  rewrite !(existsb_permutation _ _ _ (Permutation_map type HP)).
  rewrite !(existsb_permutation _ _ _ HP).
  rewrite (Permutation_length HP). reflexivity.
Qed.

Lemma X1_placement_order_is_irrelevant_witness :
  calculateDesignFengShui [item "bed"; item "mirror"; item "lamp"] "bedroom" =
  calculateDesignFengShui [item "lamp"; item "bed"; item "mirror"] "bedroom".
Proof.
  apply X1_placement_order_is_irrelevant.
  apply (Permutation_cons_app [item "lamp"] [item "mirror"] (item "bed")).
  apply (Permutation_cons_app [item "lamp"] [] (item "mirror")).
  apply Permutation_refl.
Defined.

(** ** Types the catalogue does not know *)

(** An item of unknown type leaves the tallies as they are, and its type
    is none of the types the scorer asks for by name. *)
Lemma tally_unknown acc it : unknown it = true -> tally acc it = acc.
Proof.
  unfold unknown, tally. destruct acc as [c e].
  destruct (get (type it)); try discriminate. reflexivity.
Qed.

Lemma fold_tally_known l : forall acc,
  fold_left tally (filter (fun it => negb (unknown it)) l) acc = fold_left tally l acc.
Proof.
  induction l as [|it l IH]; intros acc; [reflexivity|].
  cbn [filter fold_left]. destruct (unknown it) eqn:E; cbn [negb fold_left].
  - rewrite (tally_unknown _ _ E). apply IH.
  - apply IH.
Qed.

Lemma unknown_type_differs it t :
  unknown it = true -> get t <> Undefined -> String.eqb t (type it) = false.
Proof.
  intros Hu Ht. destruct (String.eqb_spec t (type it)) as [E|E]; [|reflexivity].
  exfalso. apply Ht. rewrite E. unfold unknown in Hu.
  destruct (get (type it)); try discriminate. reflexivity.
Qed.

Lemma includes_known l t : get t <> Undefined ->
  includes (map type (filter (fun it => negb (unknown it)) l)) t = includes (map type l) t.
Proof.
  intros Ht. unfold includes. induction l as [|it l IH]; [reflexivity|].
  cbn [filter map existsb]. destruct (unknown it) eqn:E; cbn [negb map existsb].
  - rewrite (unknown_type_differs it t E Ht). exact IH.
  - now rewrite IH.
Qed.

Lemma some_of_type_known l t : get t <> Undefined ->
  some_of_type (filter (fun it => negb (unknown it)) l) t = some_of_type l t.
Proof.
  intros Ht. unfold some_of_type. induction l as [|it l IH]; [reflexivity|].
  cbn [filter existsb]. destruct (unknown it) eqn:E; cbn [negb existsb].
  - rewrite String.eqb_sym, (unknown_type_differs it t E Ht). exact IH.
  - now rewrite IH.
Qed.

Lemma functional_known l roomType :
  calculateFunctionalScore (filter (fun it => negb (unknown it)) l) roomType =
  calculateFunctionalScore l roomType.
Proof.
  unfold calculateFunctionalScore.
  rewrite !includes_known by (vm_compute; discriminate). reflexivity.
Qed.

Lemma recommendations_known c e l roomType : Z.of_nat (List.length l) <= 15 ->
  generateRecommendations c e (filter (fun it => negb (unknown it)) l) roomType =
  generateRecommendations c e l roomType.
Proof.
  intros H15.
  pose proof (filter_length_le (fun it => negb (unknown it)) l) as Hlen.
  rewrite !rules_table.
  unfold fired, room_rules, clutter_rules.
  cbn [filter map fires message].
  rewrite !some_of_type_known by (vm_compute; discriminate).
  destruct (Z.gtb_spec (Z.of_nat (List.length l)) 15) as [?|_]; [lia|].
  destruct (Z.gtb_spec (Z.of_nat (List.length (filter (fun it => negb (unknown it)) l))) 15)
    as [?|_]; [lia|].
  reflexivity.
Qed.

(** X2. Items of a type the catalogue does not know only crowd the room.
    Dropping them from the list changes neither the element counts, the
    energy tallies, the element balance, the energy score nor the
    functional score; with at most 15 items placed the recommendations are
    the same too, and with fewer than 5 the whole result is. *)
Theorem X2_unknown_types_only_crowd (elements : list PlacedItem) (roomType : string) :
  let known := filter (fun it => negb (unknown it)) elements in
  let r := calculateDesignFengShui elements roomType in
  let r' := calculateDesignFengShui known roomType in
  elementCounts r = elementCounts r' /\ energyBalance r = energyBalance r' /\
  elementBalance r = elementBalance r' /\ energyScore r = energyScore r' /\
  functionalScore r = functionalScore r' /\
  (Z.of_nat (List.length elements) <= 15 -> recommendations r = recommendations r') /\
  ((List.length elements < 5)%nat -> r = r').
Proof.
  cbv zeta.
  set (known := filter (fun it => negb (unknown it)) elements).
  pose proof (filter_length_le (fun it => negb (unknown it)) elements) as Hlen.
  fold known in Hlen.
  destruct (result_fields elements roomType) as (Hc & He & Hb & Hen & Hs & Hf & Hr & Ho).
  destruct (result_fields known roomType) as (Hc' & He' & Hb' & Hen' & Hs' & Hf' & Hr' & Ho').
  unfold known in Hc', He', Hb', Hen', Hf', Hr'.
  rewrite fold_tally_known in Hc', He', Hb', Hen', Hr'.
  rewrite functional_known in Hf'. fold known in Hc', He', Hb', Hen', Hf', Hr'.
  assert (Hrec : Z.of_nat (List.length elements) <= 15 ->
                 recommendations (calculateDesignFengShui elements roomType) =
                 recommendations (calculateDesignFengShui known roomType)).
  { intros H15. rewrite Hr, Hr'. unfold known. now rewrite recommendations_known. }
  repeat split; try congruence.
  - exact Hrec.
  - intros H5.
    assert (Hsp : spacialScore (calculateDesignFengShui elements roomType) =
                  spacialScore (calculateDesignFengShui known roomType)).
    { rewrite Hs, Hs', !spacial_cases. cbv zeta.
      destruct (Nat.ltb_spec (List.length elements) 5) as [_|?]; [|lia].
      destruct (Nat.ltb_spec (List.length known) 5) as [_|?]; [|lia]. reflexivity. }
    specialize (Hrec ltac:(lia)).
    assert (Hov : overallScore (calculateDesignFengShui elements roomType) =
                  overallScore (calculateDesignFengShui known roomType)).
    { rewrite Ho, Ho'. congruence. }
    destruct (calculateDesignFengShui elements roomType),
             (calculateDesignFengShui known roomType).
    cbn in *. congruence.
Qed.

(** ** Inherited types, in general *)

Lemma add_NaN_r x : add x NaN = NaN.
Proof. destruct x; reflexivity. Qed.

Lemma div_NaN_r x : div x NaN = NaN.
Proof. destruct x; reflexivity. Qed.

(** Once the [NaN] count exists it stays [NaN]. *)
Lemma tally_keeps_NaN it c e :
  counts_undefined c = Some NaN ->
  counts_undefined (fst (tally (c, e) it)) = Some NaN.
Proof.
  intros H. unfold tally.
  destruct (get (type it)) as [[[] en pl bg]| |]; cbn; rewrite ?H; reflexivity.
Qed.

Lemma fold_tally_keeps_NaN l : forall c e,
  counts_undefined c = Some NaN ->
  counts_undefined (fst (fold_left tally l (c, e))) = Some NaN.
Proof.
  induction l as [|it l IH]; intros c e H; [exact H|].
  cbn [fold_left]. rewrite (surjective_pairing (tally (c, e) it)).
  apply IH. now apply tally_keeps_NaN.
Qed.

Lemma fold_tally_inherited l : forall c e,
  counts_undefined c = None \/ counts_undefined c = Some NaN ->
  existsb inherits l = true ->
  counts_undefined (fst (fold_left tally l (c, e))) = Some NaN.
Proof.
  induction l as [|it l IH]; intros c e Hc H; [discriminate|].
  cbn [fold_left existsb] in *. rewrite (surjective_pairing (tally (c, e) it)).
  destruct (inherits it) eqn:E.
  - apply fold_tally_keeps_NaN. unfold inherits in E. unfold tally.
    destruct (get (type it)); try discriminate. cbn.
    destruct Hc as [-> | ->]; reflexivity.
  - apply IH; [|exact H].
    pose proof (tally_step c e it) as Hs. cbv zeta in Hs.
    destruct Hs as (_ & _ & _ & _ & _ & _ & _ & Hs). destruct (Hs E) as [-> _]. exact Hc.
Qed.

Lemma balance_NaN c : counts_undefined c = Some NaN -> calculateElementBalanceScore c = NaN.
Proof.
  intros H. unfold calculateElementBalanceScore, Object_values. rewrite H.
  rewrite !fold_left_app. cbn [fold_left]. rewrite !add_NaN_r.
  cbn [strict_eq SFeqb SFcompare]. rewrite div_NaN_r. reflexivity.
Qed.

(** X3. One item whose type is a name inherited from [Object.prototype],
    anywhere in the list and whatever else the list holds, makes the
    element balance and the overall score [NaN]; [getRating] then answers
    "Needs Improvement", since every comparison with [NaN] is false.  The
    three other sub-scores are still integers between 0 and 100. *)
Theorem X3_inherited_type_poisons_scores (elements : list PlacedItem) (roomType : string) :
  existsb inherits elements = true ->
  let r := calculateDesignFengShui elements roomType in
  elementBalance r = NaN /\ overallScore r = NaN /\
  getRating (overallScore r) = mkRating "Needs Improvement" "#ef4444" /\
  in_0_100 (energyScore r) /\ in_0_100 (spacialScore r) /\ in_0_100 (functionalScore r).
Proof.
  intros H. cbv zeta.
  destruct (result_fields elements roomType) as (_ & _ & Hb & Hen & Hs & Hf & _ & Ho).
  assert (HbN : elementBalance (calculateDesignFengShui elements roomType) = NaN).
  { rewrite Hb. apply balance_NaN. apply fold_tally_inherited; auto. }
  assert (HoN : overallScore (calculateDesignFengShui elements roomType) = NaN).
  { rewrite Ho, HbN. reflexivity. }
  split; [exact HbN|]. split; [exact HoN|]. split; [rewrite HoN; reflexivity|].
  destruct (energy_values_spec (snd (fold_left tally elements
              (mkCounts 0 0 0 0 0 None, mkEnergy 0 0 None)))) as (e & Hine & Hev).
  destruct (spacial_values_spec elements) as (s & Hins & Hsv).
  destruct (functional_values_spec elements roomType) as (f & Hinf & Hfv).
  rewrite Hen, Hev, Hs, Hsv, Hf, Hfv. unfold in_0_100.
  repeat split; eauto using energy_values_small, spacial_values_small,
    functional_values_small.
Qed.

Lemma X3_inherited_type_poisons_scores_witness :
  overallScore (calculateDesignFengShui [item "bed"; item "toString"; item "lamp"] "bedroom")
  = NaN.
Proof.
  exact (proj1 (proj2 (X3_inherited_type_poisons_scores [item "bed"; item "toString"; item "lamp"] "bedroom"
                         eq_refl))).
Defined.

(** ** More binary64 arithmetic on integers *)

(** The order of two integers below 2^53 is the order of their binary64
    forms. *)
Lemma compare_canonical a b : Zpos a < 2 ^ 53 -> Zpos b < 2 ^ 53 ->
  SFcompare (canonical a) (canonical b) = Some (Zpos a ?= Zpos b).
Proof.
  intros Ha Hb. unfold canonical. cbv zeta. rewrite compare_finite. f_equal.
  pose proof (digits_le_53 a Ha) as Hda. pose proof (digits_le_53 b Hb) as Hdb.
  pose proof (digits_lower a) as Hal. pose proof (digits_upper a) as Hau.
  pose proof (digits_lower b) as Hbl. pose proof (digits_upper b) as Hbu.
  set (da := Zpos (digits2_pos a)) in *. set (db := Zpos (digits2_pos b)) in *.
  assert (0 < da) by (unfold da; lia). assert (0 < db) by (unfold db; lia).
  destruct (Z.compare_spec (da - 53) (db - 53)) as [E|E|E].
  - replace db with da by lia.
    assert (Hp : 0 < 2 ^ (53 - da)) by (apply Z.pow_pos_nonneg; lia).
    rewrite !Z2Pos.id by nia.
    destruct (Z.compare_spec (Zpos a * 2 ^ (53 - da)) (Zpos b * 2 ^ (53 - da)));
      destruct (Z.compare_spec (Zpos a) (Zpos b)); try reflexivity; nia.
  - symmetry. apply Z.compare_lt_iff.
    assert (2 ^ da <= 2 ^ (db - 1)) by (apply Z.pow_le_mono_r; lia). lia.
  - symmetry. apply Z.compare_gt_iff.
    assert (2 ^ db <= 2 ^ (da - 1)) by (apply Z.pow_le_mono_r; lia). lia.
Qed.

Lemma compare_num a b : 0 <= a < 2 ^ 53 -> 0 <= b < 2 ^ 53 ->
  SFcompare (num a) (num b) = Some (a ?= b).
Proof.
  intros Ha Hb. destruct a as [|a|a]; try lia; destruct b as [|b|b]; try lia.
  - reflexivity.
  - rewrite (num_pos b) by lia. reflexivity.
  - rewrite (num_pos a) by lia. reflexivity.
  - rewrite (num_pos a), (num_pos b) by lia. apply compare_canonical; lia.
Qed.

Lemma num_neg v : Zpos v < 2 ^ 53 ->
  num (Zneg v) =
  S754_finite true (Z.to_pos (Zpos v * 2 ^ (53 - Zpos (digits2_pos v))))
              (Zpos (digits2_pos v) - 53).
Proof.
  intros Hv. unfold num, binary_normalize.
  pose proof (binary_round_int true v 0 Hv ltac:(lia)) as H.
  rewrite Z.pow_0_r, Z.mul_1_r, Pos2Z.id in H. exact H.
Qed.

Lemma le_num a b : 0 <= a < 2 ^ 53 -> - 2 ^ 53 < b < 2 ^ 53 ->
  (num a <= num b)%js = (a <=? b).
Proof.
  intros Ha Hb. destruct b as [|b|b].
  - unfold le, SFleb. rewrite compare_num by lia. unfold Z.leb. destruct (a ?= 0); reflexivity.
  - unfold le, SFleb. rewrite compare_num by lia. unfold Z.leb.
    destruct (a ?= Zpos b); reflexivity.
  - rewrite num_neg by lia. destruct (Z.leb_spec a (Zneg b)); [lia|].
    destruct a as [|a|a]; try lia; [reflexivity|]. rewrite num_pos by lia. reflexivity.
Qed.

(** The binary64 form of a non-zero integer below 2^53 in magnitude. *)
Lemma num_nonzero z : z <> 0 -> Z.abs z < 2 ^ 53 ->
  num z =
  let v := Z.to_pos (Z.abs z) in
  S754_finite (z <? 0) (Z.to_pos (Zpos v * 2 ^ (53 - Zpos (digits2_pos v))))
              (Zpos (digits2_pos v) - 53).
Proof.
  intros Hz Hb. destruct z as [|p|p]; try lia; cbn [Z.abs Z.to_pos Z.ltb Z.compare].
  - rewrite num_pos by lia. reflexivity.
  - apply num_neg. lia.
Qed.

Lemma binary_normalize_int z k : Z.abs z < 2 ^ 53 -> 0 <= k ->
  binary_normalize prec emax (z * 2 ^ k) (- k) false = num z.
Proof.
  intros Hz Hk.
  assert (Hp : 0 < 2 ^ k) by (apply Z.pow_pos_nonneg; lia).
  destruct z as [|p|p].
  - reflexivity.
  - destruct (Zpos p * 2 ^ k) as [|s|s] eqn:Es; try nia.
    unfold binary_normalize.
    replace s with (Z.to_pos (Zpos p * 2 ^ k)) by (rewrite Es; reflexivity).
    rewrite binary_round_int by lia. rewrite num_pos by lia. reflexivity.
  - destruct (Zneg p * 2 ^ k) as [|s|s] eqn:Es; try nia.
    unfold binary_normalize.
    replace s with (Z.to_pos (Zpos p * 2 ^ k)).
    2:{ assert (Zpos s = Zpos p * 2 ^ k) by lia. rewrite <- H. reflexivity. }
    rewrite binary_round_int by lia. rewrite num_neg by lia. reflexivity.
Qed.

(** Sums of integers of either sign and products of integers that are
    not negative are exact below 2^53. *)
Lemma add_num_int a b : Z.abs a < 2 ^ 53 -> Z.abs b < 2 ^ 53 -> Z.abs (a + b) < 2 ^ 53 ->
  add (num a) (num b) = num (a + b).
Proof.
  intros Ha Hb Hab.
  destruct (Z.eq_dec a 0) as [->|Ha0].
  { rewrite Z.add_0_l. destruct (Z.eq_dec b 0) as [->|Hb0]; [reflexivity|].
    rewrite (num_nonzero b) by assumption. reflexivity. }
  destruct (Z.eq_dec b 0) as [->|Hb0].
  { rewrite Z.add_0_r. rewrite (num_nonzero a) by assumption. reflexivity. }
  rewrite (num_nonzero a), (num_nonzero b) by assumption. cbv zeta.
  set (va := Z.to_pos (Z.abs a)). set (vb := Z.to_pos (Z.abs b)).
  assert (Hva : Zpos va = Z.abs a) by (unfold va; rewrite Z2Pos.id; lia).
  assert (Hvb : Zpos vb = Z.abs b) by (unfold vb; rewrite Z2Pos.id; lia).
  pose proof (digits_le_53 va ltac:(lia)) as Hda.
  pose proof (digits_le_53 vb ltac:(lia)) as Hdb.
  set (da := Zpos (digits2_pos va)) in *. set (db := Zpos (digits2_pos vb)) in *.
  assert (0 < da) by (unfold da; lia). assert (0 < db) by (unfold db; lia).
  unfold add, SFadd.
  set (ez := Z.min (da - 53) (db - 53)).
  assert (Hpa : 0 < 2 ^ (53 - da)) by (apply Z.pow_pos_nonneg; lia).
  assert (Hpb : 0 < 2 ^ (53 - db)) by (apply Z.pow_pos_nonneg; lia).
  rewrite !fst_shl_align by (unfold ez; lia).
  rewrite !Z2Pos.id by nia.
  rewrite <- !Z.mul_assoc, <- !Z.pow_add_r by (unfold ez; lia).
  replace (53 - da + (da - 53 - ez)) with (- ez) by lia.
  replace (53 - db + (db - 53 - ez)) with (- ez) by lia.
  replace (cond_Zopp (a <? 0) (Zpos va * 2 ^ (- ez))) with (a * 2 ^ (- ez)).
  2:{ rewrite Hva. destruct (Z.ltb_spec a 0); cbn [cond_Zopp]; [rewrite Z.abs_neq|rewrite Z.abs_eq]; lia. }
  replace (cond_Zopp (b <? 0) (Zpos vb * 2 ^ (- ez))) with (b * 2 ^ (- ez)).
  2:{ rewrite Hvb. destruct (Z.ltb_spec b 0); cbn [cond_Zopp]; [rewrite Z.abs_neq|rewrite Z.abs_eq]; lia. }
  rewrite <- Z.mul_add_distr_r.
  replace ez with (- (- ez)) at 2 by lia.
  apply binary_normalize_int; [assumption|unfold ez; lia].
Qed.

Lemma digits_product a b :
  Zpos (digits2_pos a) + Zpos (digits2_pos b) - 1 <= Zpos (digits2_pos (a * b)).
Proof.
  pose proof (digits_lower a) as Ha. pose proof (digits_lower b) as Hb.
  pose proof (digits_upper (a * b)) as Hab.
  set (da := Zpos (digits2_pos a)) in *. set (db := Zpos (digits2_pos b)) in *.
  set (d := Zpos (digits2_pos (a * b))) in *.
  assert (0 < da) by (unfold da; lia). assert (0 < db) by (unfold db; lia).
  assert (0 < d) by (unfold d; lia).
  destruct (Z.le_gt_cases (da + db - 1) d) as [?|Hgt]; auto.
  assert (Hpow : 2 ^ d <= 2 ^ (da - 1 + (db - 1))) by (apply Z.pow_le_mono_r; lia).
  rewrite Z.pow_add_r in Hpow by lia.
  assert (0 < 2 ^ (da - 1)) by (apply Z.pow_pos_nonneg; lia).
  assert (0 < 2 ^ (db - 1)) by (apply Z.pow_pos_nonneg; lia).
  rewrite Pos2Z.inj_mul in Hab. nia.
Qed.

Lemma mul_num_num a b : 0 <= a < 2 ^ 53 -> 0 <= b < 2 ^ 53 -> a * b < 2 ^ 53 ->
  mul (num a) (num b) = num (a * b).
Proof.
  intros Ha Hb Hab.
  destruct a as [|a|a]; try lia.
  { destruct b as [|b|b]; try lia; [reflexivity|]. rewrite num_pos by lia. reflexivity. }
  destruct b as [|b|b]; try lia.
  { rewrite Z.mul_0_r. rewrite num_pos by lia. reflexivity. }
  assert (HA : Zpos a < 2 ^ 53) by lia. assert (HB : Zpos b < 2 ^ 53) by lia.
  rewrite (num_pos a), (num_pos b) by assumption.
  change (Zpos a * Zpos b) with (Zpos (a * b)) in *.
  rewrite (num_pos (a * b)) by assumption.
  pose proof (digits_le_53 a HA) as Hda. pose proof (digits_le_53 b HB) as Hdb.
  pose proof (digits_le_53 (a * b) Hab) as Hd.
  pose proof (digits_product a b) as Hprod.
  unfold canonical. cbv zeta.
  set (da := Zpos (digits2_pos a)) in *. set (db := Zpos (digits2_pos b)) in *.
  set (d := Zpos (digits2_pos (a * b))) in *.
  assert (0 < da) by (unfold da; lia). assert (0 < db) by (unfold db; lia).
  assert (0 < d) by (unfold d; lia).
  assert (Hpa : 0 < 2 ^ (53 - da)) by (apply Z.pow_pos_nonneg; lia).
  assert (Hpb : 0 < 2 ^ (53 - db)) by (apply Z.pow_pos_nonneg; lia).
  set (ma := Z.to_pos (Zpos a * 2 ^ (53 - da))).
  set (mb := Z.to_pos (Zpos b * 2 ^ (53 - db))).
  assert (Hma : Zpos ma = Zpos a * 2 ^ (53 - da)) by (unfold ma; rewrite Z2Pos.id; nia).
  assert (Hmb : Zpos mb = Zpos b * 2 ^ (53 - db)) by (unfold mb; rewrite Z2Pos.id; nia).
  unfold mul, SFmul. cbn [xorb].
  set (k := 106 - da - db).
  assert (HP : Zpos (ma * mb) = Zpos (a * b) * 2 ^ k).
  { rewrite !Pos2Z.inj_mul, Hma, Hmb. unfold k.
    replace (106 - da - db) with ((53 - da) + (53 - db)) by lia.
    rewrite Z.pow_add_r by lia. ring. }
  assert (HdP : Zpos (digits2_pos (ma * mb)) = d + k).
  { apply digits_quotient; [unfold k; lia|exact HP]. }
  replace (da - 53 + (db - 53)) with (- k) by (unfold k; lia).
  rewrite binary_round_aux_exact; rewrite HdP, fexp_eq;
    replace (d + k + - k) with d by lia;
    replace (Z.max (d - 53) (-1074)) with (d - 53) by lia;
    replace (d - 53 - - k) with (k - (53 - d)) by lia;
    try (unfold k; lia).
  - f_equal. f_equal. rewrite HP.
    replace k with ((53 - d) + (k - (53 - d))) at 1 by lia.
    rewrite Z.pow_add_r by (unfold k; lia). rewrite Z.mul_assoc. apply Z.div_mul.
    apply Z.pow_nonzero; unfold k; lia.
  - rewrite HP. replace k with ((53 - d) + (k - (53 - d))) at 1 by lia.
    rewrite Z.pow_add_r by (unfold k; lia). rewrite Z.mul_assoc. apply Z.mod_mul.
    apply Z.pow_nonzero; unfold k; lia.
Qed.

(** The quotient of two integers below 2^53: a 53-bit mantissa within
    half a unit of the last place of the exact quotient. *)
Lemma div_num_num_wide y t : 0 < y < 2 ^ 53 -> 0 < t < 2 ^ 53 ->
  exists m e,
    div (num y) (num t) = S754_finite false m e /\
    2 ^ 52 <= Zpos m < 2 ^ 53 /\ e <= 1 /\
    Z.abs (2 * (Zpos m * t) - y * 2 ^ (1 - e)) <= t.
Proof.
  intros Hy Ht.
  destruct y as [|y|y]; try lia. destruct t as [|t|t]; try lia.
  rewrite (num_pos y), (num_pos t) by lia. unfold canonical. cbv zeta.
  pose proof (digits_le_53 y ltac:(lia)) as HdY.
  pose proof (digits_le_53 t ltac:(lia)) as HdT.
  set (dY := Zpos (digits2_pos y)) in *. set (dT := Zpos (digits2_pos t)) in *.
  assert (0 < dY) by (unfold dY; lia). assert (0 < dT) by (unfold dT; lia).
  assert (HGA : 0 < 2 ^ (53 - dY)) by (apply Z.pow_pos_nonneg; lia).
  assert (HGB : 0 < 2 ^ (53 - dT)) by (apply Z.pow_pos_nonneg; lia).
  set (a := Z.to_pos (Zpos y * 2 ^ (53 - dY))).
  set (b := Z.to_pos (Zpos t * 2 ^ (53 - dT))).
  assert (Ha : Zpos a = Zpos y * 2 ^ (53 - dY)) by (unfold a; rewrite Z2Pos.id; nia).
  assert (Hb : Zpos b = Zpos t * 2 ^ (53 - dT)) by (unfold b; rewrite Z2Pos.id; nia).
  assert (Hda : Zpos (digits2_pos a) = 53).
  { rewrite (digits_quotient a y (53 - dY)); auto; fold dY; lia. }
  assert (Hdb : Zpos (digits2_pos b) = 53).
  { rewrite (digits_quotient b t (53 - dT)); auto; fold dT; lia. }
  pose proof (digits_lower a) as Hal. pose proof (digits_upper a) as Hau.
  pose proof (digits_lower b) as Hbl. pose proof (digits_upper b) as Hbu.
  rewrite Hda in Hal, Hau. rewrite Hdb in Hbl, Hbu.
  change (2 ^ (53 - 1)) with (2 ^ 52) in *.
  unfold div, SFdiv. rewrite div_core_53 by (auto; lia). cbn [xorb].
  set (e' := dY - 53 - (dT - 53) - 53).
  pose proof (Z.div_mod (Zpos a * 2 ^ 53) (Zpos b) ltac:(lia)) as Hdm.
  pose proof (Z.mod_pos_bound (Zpos a * 2 ^ 53) (Zpos b) ltac:(lia)) as Hmb.
  set (q := Zpos a * 2 ^ 53 / Zpos b) in *.
  set (r := (Zpos a * 2 ^ 53) mod Zpos b) in *.
  assert (Hq : 2 ^ 52 <= q < 2 ^ 54).
  { split.
    - apply Z.div_le_lower_bound; lia.
    - apply Z.div_lt_upper_bound; lia. }
  assert (He' : -105 <= e' <= -1) by (unfold e'; lia).
  destruct (round_quotient q (Zpos b) r e' ltac:(lia) Hmb Hq ltac:(lia))
    as (m3 & k & Hres & Hm3 & Hk & Henc).
  exists m3, (e' + k). split; [exact Hres|]. split; [exact Hm3|].
  split; [lia|].
  assert (HGk : 0 < 2 ^ k) by (apply Z.pow_pos_nonneg; lia).
  set (G := 2 ^ (53 - dT) * 2 ^ k).
  assert (HG : 0 < G) by (unfold G; nia).
  assert (HP : 2 ^ (1 - (e' + k)) * G = 2 * (2 ^ (53 - dY) * 2 ^ 53)).
  { unfold G. rewrite <- !Z.pow_add_r by lia.
    replace (1 - (e' + k) + (53 - dT + k)) with (1 + (53 - dY + 53)) by (unfold e'; lia).
    rewrite Z.pow_add_r by lia. reflexivity. }
  set (P := 2 ^ (1 - (e' + k))) in *.
  assert (Hrew : 2 * (Zpos m3 * Zpos b) * 2 ^ k - 2 * (q * Zpos b + r) =
                 G * (2 * (Zpos m3 * Zpos t) - Zpos y * P)).
  { replace (q * Zpos b + r) with (Zpos a * 2 ^ 53) by lia.
    rewrite Ha, Hb. unfold G.
    transitivity (2 * Zpos m3 * Zpos t * (2 ^ (53 - dT) * 2 ^ k)
                  - Zpos y * (2 * (2 ^ (53 - dY) * 2 ^ 53))); [ring|].
    rewrite <- HP. unfold G. ring. }
  rewrite Hrew in Henc. rewrite Z.abs_mul, (Z.abs_eq G) in Henc by lia.
  replace (Zpos b * 2 ^ k) with (G * Zpos t) in Henc by (rewrite Hb; unfold G; ring).
  apply Z.mul_le_mono_pos_l in Henc; assumption.
Qed.

(** A quotient that is an integer is computed exactly. *)
Lemma div_exact c t : 0 < c -> 0 < t -> c * t < 2 ^ 52 ->
  div (num (c * t)) (num t) = num c.
Proof.
  intros Hc Ht Hct.
  destruct (div_num_num_wide (c * t) t ltac:(nia) ltac:(nia))
    as (m & e & Hdiv & Hm & He & Henc).
  rewrite Hdiv. destruct c as [|c|c]; try lia.
  rewrite num_pos by nia. unfold canonical. cbv zeta.
  assert (Hp : 0 < 2 ^ (1 - e)) by (apply Z.pow_pos_nonneg; lia).
  replace (2 * (Zpos m * t) - Zpos c * t * 2 ^ (1 - e))
    with (t * (2 * Zpos m - Zpos c * 2 ^ (1 - e))) in Henc by ring.
  rewrite Z.abs_mul, (Z.abs_eq t) in Henc by lia.
  assert (Hone : Z.abs (2 * Zpos m - Zpos c * 2 ^ (1 - e)) <= 1) by nia.
  assert (He0 : e <= 0).
  { destruct (Z.le_gt_cases e 0); auto. replace e with 1 in * by lia.
    change (2 ^ (1 - 1)) with 1 in *. nia. }
  assert (Hpe : 2 ^ (1 - e) = 2 * 2 ^ (- e)).
  { replace (1 - e) with (1 + - e) by lia. rewrite Z.pow_add_r by lia. reflexivity. }
  assert (Hp' : 0 < 2 ^ (- e)) by (apply Z.pow_pos_nonneg; lia).
  assert (Heq : Zpos m = Zpos c * 2 ^ (- e)) by (rewrite Hpe in Hone; lia).
  assert (Hd : Zpos (digits2_pos m) = 53) by (apply digits_unique; lia).
  rewrite (digits_quotient m c (- e)) in Hd by (auto; lia).
  replace (Zpos (digits2_pos c) - 53) with e by lia.
  replace (53 - Zpos (digits2_pos c)) with (- e) by lia.
  rewrite <- Heq, Pos2Z.id. reflexivity.
Qed.

(** ** An even split of the elements *)

Lemma sub_self m e : sub (S754_finite false m e) (S754_finite false m e) = S754_zero false.
Proof.
  unfold sub, SFsub. cbn [cond_Zopp]. rewrite Z.min_id, shl_align_spec, Z.ltb_irrefl.
  cbn [fst]. rewrite Z.sub_diag. reflexivity.
Qed.

Lemma balance_even c : 0 < c -> c * 5 < 2 ^ 52 -> balance_of_counts c c c c c = num 100.
Proof.
  intros Hc H5. unfold balance_of_counts.
  replace (c + c + c + c + c) with (c * 5) by lia.
  rewrite div_exact by lia.
  destruct c as [|c|c]; try lia.
  rewrite (num_pos c) by lia. unfold canonical at 1 2 3 4 5 6 7 8 9 10. cbv zeta.
  rewrite sub_self.
  change (Zpos c * 5) with (Zpos (c * 5)). rewrite (num_pos (c * 5)) by lia.
  reflexivity.
Qed.

(** X4. A room whose catalogued items are spread evenly over the five
    elements, the same positive number of each, has element balance
    exactly 100, for every such number an array can hold: the division by
    5 is exact, so every deviation is zero. *)
Theorem X4_even_split_scores_100 (elements : list PlacedItem) (roomType : string) :
  Z.of_nat (List.length elements) < 2 ^ 32 ->
  forallb (fun it => negb (inherits it)) elements = true ->
  let n el := count (has_element el) elements in
  0 < n Wood -> n Fire = n Wood -> n Earth = n Wood -> n Metal = n Wood -> n Water = n Wood ->
  elementBalance (calculateDesignFengShui elements roomType) = num 100.
Proof.
  intros Hlen Hplain n Hw Hf He Hm Hwa. subst n. cbv beta in *.
  destruct (elementBalance_of_plain_list elements roomType Hlen Hplain) as [Heq _].
  cbv zeta in Heq. rewrite Heq.
  pose proof (count_catalogued_element elements) as Hsum.
  pose proof (count_le_length catalogued elements) as Hle.
  destruct (Z.eqb_spec (count catalogued elements) 0) as [H0|_]; [lia|].
  rewrite Hf, He, Hm, Hwa. apply balance_even; lia.
Qed.

Lemma X4_even_split_scores_100_witness :
  elementBalance (calculateDesignFengShui
    [item "plant"; item "lamp"; item "rug"; item "clock"; item "fountain"] "living") = num 100.
Proof.
  apply X4_even_split_scores_100; vm_compute; reflexivity.
Defined.

(** ** The advice, rule by rule *)

Lemma fired_app r1 r2 c e placed roomType :
  fired (r1 ++ r2) c e placed roomType =
  (fired r1 c e placed roomType ++ fired r2 c e placed roomType)%list.
Proof. unfold fired. now rewrite filter_app, map_app. Qed.

Lemma recommendations_by_rules c e placed roomType :
  generateRecommendations c e placed roomType =
  match fired all_rules c e placed roomType with
  | [] => [msg_good]
  | recommendations => recommendations
  end.
Proof. rewrite rules_table. unfold all_rules. now rewrite !fired_app. Qed.

(** The eleven messages are pairwise different. *)
Lemma messages_distinct : NoDup (msg_good :: map message all_rules).
Proof.
  repeat (constructor; [cbn; intuition discriminate|]). constructor.
Qed.

Lemma good_not_a_rule : ~ In msg_good (map message all_rules).
Proof. exact (proj1 (proj1 (NoDup_cons_iff _ _) messages_distinct)). Qed.

Lemma rule_messages_distinct : NoDup (map message all_rules).
Proof. exact (proj2 (proj1 (NoDup_cons_iff _ _) messages_distinct)). Qed.

Lemma NoDup_map_filter {A B} (g : A -> B) (f : A -> bool) l :
  NoDup (map g l) -> NoDup (map g (filter f l)).
Proof.
  induction l as [|a l IH]; cbn [map filter]; intros H; [constructor|].
  inversion H as [|? ? Hnin Hnd]; subst.
  destruct (f a); cbn [map]; auto.
  constructor; auto. intros Hin. apply Hnin.
  apply in_map_iff in Hin. destruct Hin as (x & Hx & Hin).
  apply filter_In in Hin. apply in_map_iff. exists x. tauto.
Qed.

Lemma NoDup_map_injective {A B} (g : A -> B) l a b :
  NoDup (map g l) -> In a l -> In b l -> g a = g b -> a = b.
Proof.
  induction l as [|x l IH]; cbn [map]; intros Hnd Ha Hb Hg; [contradiction|].
  inversion Hnd as [|? ? Hnin Hnd']; subst.
  destruct Ha as [Ha|Ha], Hb as [Hb|Hb]; subst; auto.
  - exfalso. apply Hnin. rewrite Hg. now apply in_map.
  - exfalso. apply Hnin. rewrite <- Hg. now apply in_map.
Qed.

Lemma in_fired rule c e placed roomType : In rule all_rules ->
  (In (message rule) (fired all_rules c e placed roomType) <->
   fires rule c e placed roomType = true).
Proof.
  intros Hin. unfold fired. rewrite in_map_iff. split.
  - intros (r & Hm & Hr). apply filter_In in Hr. destruct Hr as [Hr Hf].
    now rewrite <- (NoDup_map_injective message all_rules r rule
                      rule_messages_distinct Hr Hin Hm).
  - intros Hf. exists rule. split; [reflexivity|]. apply filter_In. auto.
Qed.

Lemma good_not_fired c e placed roomType :
  ~ In msg_good (fired all_rules c e placed roomType).
Proof.
  intros Hin. apply good_not_a_rule.
  unfold fired in Hin. apply in_map_iff in Hin. destruct Hin as (r & Hm & Hr).
  apply filter_In in Hr. apply in_map_iff. exists r. tauto.
Qed.

(** An advice is given exactly when its rule fires. *)
Lemma advice_iff rule c e placed roomType : In rule all_rules ->
  (In (message rule) (generateRecommendations c e placed roomType) <->
   fires rule c e placed roomType = true).
Proof.
  intros Hin. rewrite recommendations_by_rules.
  rewrite <- (in_fired rule c e placed roomType Hin).
  destruct (fired all_rules c e placed roomType) as [|m l] eqn:E; [|tauto].
  split; [|intros []]. intros [H|[]]. exfalso.
  apply good_not_a_rule. rewrite H. now apply in_map.
Qed.

Ltac in_rules := unfold all_rules, element_rules, energy_rules, room_rules, clutter_rules;
  cbn [app In]; tauto.

(** The comparisons of the energy rules, read on the integers. *)
Lemma above_0_7 y t : 0 <= y <= t -> t < 2 ^ 32 ->
  (div (num y) (num t) > lit_0_7)%js = (7 * t <? 10 * y).
Proof.
  intros Hy Ht. destruct (Z.eq_dec y 0) as [->|Hy0].
  - destruct t as [|pt|pt]; try lia; [reflexivity|].
    rewrite (num_pos pt) by lia. reflexivity.
  - unfold lt, SFltb. rewrite (compare_0_7 y t) by lia.
    unfold Z.ltb. destruct (7 * t ?= 10 * y); reflexivity.
Qed.

Lemma below_0_3 y t : 0 <= y <= t -> t < 2 ^ 32 ->
  (div (num y) (num t) < lit_0_3)%js = (0 <? t) && (10 * y <? 3 * t).
Proof.
  intros Hy Ht. destruct (Z.eq_dec y 0) as [->|Hy0].
  - destruct t as [|pt|pt]; try lia; [reflexivity|].
    rewrite (num_pos pt) by lia. reflexivity.
  - pose proof (compare_0_3 y t ltac:(lia) Ht) as H.
    destruct (div_num_num y t ltac:(lia) ltac:(lia)) as (m & e & Hdiv & _).
    rewrite Hdiv in H |- *. unfold lit_0_3 in *. apply compare_swap in H.
    unfold lt, SFltb. rewrite H.
    destruct (Z.ltb_spec 0 t); [|lia]. cbn [andb].
    unfold Z.ltb. rewrite (Z.compare_antisym (3 * t) (10 * y)).
    destruct (3 * t ?= 10 * y); reflexivity.
Qed.

(** X5. The advice on energy follows the exact yang share of the
    catalogued items of an array: "balance yang energy" is given exactly
    when more than 70% of them are yang, "add more yang energy" exactly
    when there is a catalogued item and fewer than 30% are yang; and the
    energy score is 60 exactly when one of the two is given. *)
Theorem X5_energy_advice_exact (elements : list PlacedItem) (roomType : string) :
  Z.of_nat (List.length elements) < 2 ^ 32 ->
  let r := calculateDesignFengShui elements roomType in
  let Y := count is_yang elements in
  let T := count catalogued elements in
  (In msg_too_yang (recommendations r) <-> 7 * T < 10 * Y) /\
  (In msg_too_yin (recommendations r) <-> 0 < T /\ 10 * Y < 3 * T) /\
  (energyScore r = num 60 <->
   In msg_too_yang (recommendations r) \/ In msg_too_yin (recommendations r)).
Proof.
  intros Hlen. cbv zeta.
  destruct (result_fields elements roomType) as (_ & _ & _ & Hs & _ & _ & Hr & _).
  pose proof (tally_counts elements (mkCounts 0 0 0 0 0 None) (mkEnergy 0 0 None)) as Ht.
  cbv zeta in Ht. destruct Ht as (_ & _ & _ & _ & _ & Hyin & Hyang).
  cbn [yin yang] in Hyin, Hyang. rewrite Z.add_0_l in Hyin, Hyang.
  pose proof (count_le_length catalogued elements) as Hle.
  pose proof (count_catalogued_energy elements) as Hsum.
  pose proof (count_nonneg is_yang elements) as HY.
  pose proof (count_nonneg is_yin_or_neutral elements) as HN.
  rewrite Hr, Hs.
  set (c := fst (fold_left tally elements _)) in *.
  set (b := snd (fold_left tally elements _)) in *.
  assert (Hyang_iff : In msg_too_yang (generateRecommendations c b elements roomType) <->
                      7 * count catalogued elements < 10 * count is_yang elements).
  { rewrite (advice_iff (mkRule (fun _ e _ _ => (yangRatio e > lit_0_7)%js) msg_too_yang))
      by in_rules.
    cbn [fires]. unfold yangRatio. rewrite above_0_7 by lia.
    rewrite Z.ltb_lt. lia. }
  assert (Hyin_iff : In msg_too_yin (generateRecommendations c b elements roomType) <->
                     0 < count catalogued elements /\
                     10 * count is_yang elements < 3 * count catalogued elements).
  { rewrite (advice_iff (mkRule (fun _ e _ _ => (yangRatio e < lit_0_3)%js) msg_too_yin))
      by in_rules.
    cbn [fires]. unfold yangRatio. rewrite below_0_3 by lia.
    rewrite andb_true_iff, !Z.ltb_lt. lia. }
  split; [exact Hyang_iff|]. split; [exact Hyin_iff|].
  rewrite Hyang_iff, Hyin_iff.
  destruct (Z.eq_dec (count catalogued elements) 0) as [H0|H0].
  - unfold calculateEnergyBalanceScore.
    destruct (Z.eqb_spec (yin b + yang b) 0) as [_|?]; [|lia].
    split; [discriminate|lia].
  - rewrite energy_score_exact by lia. unfold energy_tier.
    rewrite Hyin, Hyang, <- Hsum.
    set (Y := count is_yang elements) in *. set (T := count catalogued elements) in *.
    destruct (Z.leb_spec (2 * T) (5 * Y)); destruct (Z.leb_spec (5 * Y) (3 * T));
      destruct (Z.leb_spec (3 * T) (10 * Y)); destruct (Z.leb_spec (10 * Y) (7 * T));
      cbn [andb]; split; intros; try lia; try discriminate; try reflexivity.
Qed.

Lemma X5_energy_advice_exact_witness :
  In msg_too_yang
     (recommendations (calculateDesignFengShui [item "tv"; item "lamp"; item "desk"] "office")).
Proof.
  refine (proj2 (proj1 (X5_energy_advice_exact [item "tv"; item "lamp"; item "desk"] "office" _)) _).
  - vm_compute. reflexivity.
  - vm_compute. reflexivity.
Defined.

(** X6. The energy score treats yin and yang alike: exchanging the two
    tallies of an array leaves it unchanged, although the code compares
    the yang share only, against binary64 literals that are not
    symmetric about one half. *)
Theorem X6_energyScore_symmetric (a b : Z) (u u' : option number) :
  0 <= a -> 0 <= b -> a + b < 2 ^ 32 ->
  calculateEnergyBalanceScore (mkEnergy a b u) = calculateEnergyBalanceScore (mkEnergy b a u').
Proof.
  intros Ha Hb Hab. destruct (Z.eq_dec (a + b) 0) as [H0|H0].
  - unfold calculateEnergyBalanceScore. cbn [yin yang].
    destruct (Z.eqb_spec (a + b) 0); [|lia]. destruct (Z.eqb_spec (b + a) 0); [|lia].
    reflexivity.
  - rewrite !energy_score_exact by (cbn [yin yang]; lia). cbn [yin yang].
    f_equal. unfold energy_tier.
    destruct (Z.leb_spec (2 * (a + b)) (5 * b)); destruct (Z.leb_spec (5 * b) (3 * (a + b)));
    destruct (Z.leb_spec (3 * (a + b)) (10 * b)); destruct (Z.leb_spec (10 * b) (7 * (a + b)));
    destruct (Z.leb_spec (2 * (b + a)) (5 * a)); destruct (Z.leb_spec (5 * a) (3 * (b + a)));
    destruct (Z.leb_spec (3 * (b + a)) (10 * a)); destruct (Z.leb_spec (10 * a) (7 * (b + a)));
    cbn [andb]; try reflexivity; lia.
Qed.

Lemma X6_energyScore_symmetric_witness :
  calculateEnergyBalanceScore (mkEnergy 7 3 None) = calculateEnergyBalanceScore (mkEnergy 3 7 None).
Proof. apply X6_energyScore_symmetric; lia. Defined.

(** X7. The five element prompts follow the items of the list: the wood
    and earth prompts are given exactly when fewer than two catalogued
    items have that element, the fire, water and metal prompts exactly
    when none has. *)
Theorem X7_element_prompts_by_count (elements : list PlacedItem) (roomType : string) :
  let recs := recommendations (calculateDesignFengShui elements roomType) in
  let n el := count (has_element el) elements in
  (In msg_wood recs <-> n Wood < 2) /\
  (In msg_fire recs <-> n Fire = 0) /\
  (In msg_water recs <-> n Water = 0) /\
  (In msg_earth recs <-> n Earth < 2) /\
  (In msg_metal recs <-> n Metal = 0).
Proof.
  cbv zeta.
  destruct (result_fields elements roomType) as (_ & _ & _ & _ & _ & _ & Hr & _).
  rewrite Hr.
  pose proof (tally_counts elements (mkCounts 0 0 0 0 0 None) (mkEnergy 0 0 None)) as Ht.
  cbv zeta in Ht. destruct Ht as (Hw & Hf & He & Hm & Hwa & _).
  cbn [wood fire earth metal water] in Hw, Hf, He, Hm, Hwa.
  rewrite Z.add_0_l in Hw, Hf, He, Hm, Hwa.
  set (c := fst (fold_left tally elements _)) in *.
  set (e := snd (fold_left tally elements _)) in *.
  repeat split.
  - intros H. apply (advice_iff (mkRule (fun c _ _ _ => wood c <? 2) msg_wood)) in H;
      [|in_rules]. cbn [fires] in H. apply Z.ltb_lt in H. lia.
  - intros H. apply (advice_iff (mkRule (fun c _ _ _ => wood c <? 2) msg_wood));
      [in_rules|]. cbn [fires]. apply Z.ltb_lt. lia.
  - intros H. apply (advice_iff (mkRule (fun c _ _ _ => fire c =? 0) msg_fire)) in H;
      [|in_rules]. cbn [fires] in H. apply Z.eqb_eq in H. lia.
  - intros H. apply (advice_iff (mkRule (fun c _ _ _ => fire c =? 0) msg_fire));
      [in_rules|]. cbn [fires]. apply Z.eqb_eq. lia.
  - intros H. apply (advice_iff (mkRule (fun c _ _ _ => water c =? 0) msg_water)) in H;
      [|in_rules]. cbn [fires] in H. apply Z.eqb_eq in H. lia.
  - intros H. apply (advice_iff (mkRule (fun c _ _ _ => water c =? 0) msg_water));
      [in_rules|]. cbn [fires]. apply Z.eqb_eq. lia.
  - intros H. apply (advice_iff (mkRule (fun c _ _ _ => earth c <? 2) msg_earth)) in H;
      [|in_rules]. cbn [fires] in H. apply Z.ltb_lt in H. lia.
  - intros H. apply (advice_iff (mkRule (fun c _ _ _ => earth c <? 2) msg_earth));
      [in_rules|]. cbn [fires]. apply Z.ltb_lt. lia.
  - intros H. apply (advice_iff (mkRule (fun c _ _ _ => metal c =? 0) msg_metal)) in H;
      [|in_rules]. cbn [fires] in H. apply Z.eqb_eq in H. lia.
  - intros H. apply (advice_iff (mkRule (fun c _ _ _ => metal c =? 0) msg_metal));
      [in_rules|]. cbn [fires]. apply Z.eqb_eq. lia.
Qed.

Lemma fired_length rules c e placed roomType :
  (List.length (fired rules c e placed roomType) <= List.length rules)%nat.
Proof. unfold fired. rewrite length_map. apply filter_length_le. Qed.

Lemma fired_energy_length c e placed roomType :
  (List.length (fired energy_rules c e placed roomType) <= 1)%nat.
Proof.
  unfold fired, energy_rules. cbn [filter fires].
  destruct (yangRatio e > lit_0_7)%js eqn:E.
  - rewrite (not_above_and_below _ E). cbn. lia.
  - destruct (yangRatio e < lit_0_3)%js; cbn; lia.
Qed.

(** X8. The list of recommendations has between 1 and 9 entries and no
    entry twice; the affirmative message appears only alone, exactly when
    none of the ten rules fires. *)
Theorem X8_recommendations_shape (c : ElementCounts) (e : EnergyBalance) (placed : list PlacedItem)
    (roomType : string) :
  let recs := generateRecommendations c e placed roomType in
  NoDup recs /\ (1 <= List.length recs <= 9)%nat /\
  (In msg_good recs <-> recs = [msg_good]) /\
  (recs = [msg_good] <->
   forall rule, In rule all_rules -> fires rule c e placed roomType = false).
Proof.
  cbv zeta.
  assert (Hnd : NoDup (fired all_rules c e placed roomType))
    by (apply NoDup_map_filter, rule_messages_distinct).
  assert (Hlen : (List.length (fired all_rules c e placed roomType) <= 9)%nat).
  { unfold all_rules. rewrite !fired_app, !length_app.
    pose proof (fired_length element_rules c e placed roomType).
    pose proof (fired_energy_length c e placed roomType).
    pose proof (fired_length room_rules c e placed roomType).
    pose proof (fired_length clutter_rules c e placed roomType).
    cbn [List.length element_rules room_rules clutter_rules] in *. lia. }
  pose proof (good_not_fired c e placed roomType) as Hgood.
  assert (Hnone : fired all_rules c e placed roomType = [] <->
                  forall rule, In rule all_rules -> fires rule c e placed roomType = false).
  { split.
    - intros E rule Hin. destruct (fires rule c e placed roomType) eqn:F; [|reflexivity].
      apply (in_fired rule c e placed roomType Hin) in F. rewrite E in F. destruct F.
    - intros H. destruct (fired all_rules c e placed roomType) as [|m l] eqn:E; [reflexivity|].
      exfalso. assert (Hin : In m (fired all_rules c e placed roomType))
        by (rewrite E; now left).
      unfold fired in Hin. apply in_map_iff in Hin. destruct Hin as (r & _ & Hr).
      apply filter_In in Hr. destruct Hr as [Hr Hf]. rewrite (H r Hr) in Hf. discriminate. }
  rewrite recommendations_by_rules.
  destruct (fired all_rules c e placed roomType) as [|m l] eqn:E.
  - split; [repeat constructor; intros []|]. split; [cbn; lia|].
    split; [split; auto; intros _; now left|].
    split; [intros _; now apply Hnone|reflexivity].
  - split; [exact Hnd|]. split; [cbn [List.length] in *; lia|].
    split; [split; [intros H; now elim Hgood|intros H; elim Hgood; rewrite H; now left]|].
    split.
    + intros H. elim Hgood. rewrite H. now left.
    + intros H. apply Hnone in H. discriminate.
Qed.

(** X9. The clutter warning is given exactly when more than 15 items are
    placed.  It comes with a space score of 65 or 50, and a space score of
    50 always comes with it; but with exactly 15 items the space score has
    already dropped to 65 and no warning is given. *)
Theorem X9_clutter_warning_and_space_score (elements : list PlacedItem) (roomType : string) :
  let r := calculateDesignFengShui elements roomType in
  let n := Z.of_nat (List.length elements) in
  (In msg_declutter (recommendations r) <-> 15 < n) /\
  (In msg_declutter (recommendations r) ->
   spacialScore r = num 65 \/ spacialScore r = num 50) /\
  (spacialScore r = num 50 -> In msg_declutter (recommendations r)) /\
  (n = 15 -> spacialScore r = num 65 /\ ~ In msg_declutter (recommendations r)).
Proof.
  cbv zeta.
  destruct (result_fields elements roomType) as (_ & _ & _ & _ & Hs & _ & Hr & _).
  rewrite Hr, Hs.
  set (c := fst (fold_left tally elements _)). set (e := snd (fold_left tally elements _)).
  assert (Hiff : In msg_declutter (generateRecommendations c e elements roomType) <->
                 15 < Z.of_nat (List.length elements)).
  { rewrite (advice_iff (mkRule (fun _ _ placed _ => Z.of_nat (List.length placed) >? 15)
                           msg_declutter)) by in_rules.
    cbn [fires]. rewrite Z.gtb_ltb. apply Z.ltb_lt. }
  split; [exact Hiff|]. rewrite Hiff.
  unfold calculateSpacialScore.
  destruct (Z.ltb_spec (Z.of_nat (List.length elements)) 5);
  destruct (Z.ltb_spec (Z.of_nat (List.length elements)) 10);
  destruct (Z.ltb_spec (Z.of_nat (List.length elements)) 15);
  destruct (Z.ltb_spec (Z.of_nat (List.length elements)) 20);
  try lia; repeat split; intros; try lia; auto; try discriminate.
Qed.

Lemma some_of_type_In placed t : some_of_type placed t = true <-> In t (map type placed).
Proof.
  unfold some_of_type. rewrite existsb_exists, in_map_iff.
  split; intros (x & H1 & H2).
  - exists x. apply String.eqb_eq in H2. auto.
  - exists x. split; [exact H2|]. now apply String.eqb_eq.
Qed.

Lemma includes_without l t u : t <> u ->
  includes (map type (filter (fun it => negb (String.eqb (type it) u)) l)) t =
  includes (map type l) t.
Proof.
  intros Htu. unfold includes. induction l as [|it l IH]; [reflexivity|].
  cbn [filter map existsb]. destruct (String.eqb_spec (type it) u) as [E|E]; cbn [negb map existsb].
  - rewrite IH. destruct (String.eqb_spec t (type it)); [congruence|reflexivity].
  - now rewrite IH.
Qed.

Lemma includes_removed l u :
  includes (map type (filter (fun it => negb (String.eqb (type it) u)) l)) u = false.
Proof.
  unfold includes. induction l as [|it l IH]; [reflexivity|].
  cbn [filter map existsb]. destruct (String.eqb_spec (type it) u) as [E|E]; cbn [negb map existsb].
  - exact IH.
  - rewrite IH. destruct (String.eqb_spec u (type it)); [congruence|reflexivity].
Qed.

(** X10. The two room warnings are given in a bedroom only, and look at
    the exact type of the items: the advice to add plants exactly when no
    item has type "plant" (a bamboo or a bonsai does not count), the
    warning about mirrors facing the bed exactly when some item has type
    "mirror", bed or no bed.  Without a bed the mirrors cost nothing: the
    functional score is that of the list without them. *)
Theorem X10_bedroom_warnings (elements : list PlacedItem) (roomType : string) :
  let r := calculateDesignFengShui elements roomType in
  let types := map type elements in
  (In msg_plants (recommendations r) <-> roomType = "bedroom" /\ ~ In "plant" types) /\
  (In msg_mirror (recommendations r) <-> roomType = "bedroom" /\ In "mirror" types) /\
  (~ In "bed" types ->
   functionalScore r =
   functionalScore (calculateDesignFengShui
                      (filter (fun it => negb (String.eqb (type it) "mirror")) elements)
                      roomType)).
Proof.
  cbv zeta.
  destruct (result_fields elements roomType) as (_ & _ & _ & _ & _ & Hf & Hr & _).
  rewrite Hr, Hf.
  set (c := fst (fold_left tally elements _)). set (e := snd (fold_left tally elements _)).
  split; [|split].
  - rewrite (advice_iff (mkRule (fun _ _ placed roomType =>
               String.eqb roomType "bedroom" && negb (some_of_type placed "plant"))
               msg_plants)) by in_rules.
    cbn [fires]. rewrite andb_true_iff, negb_true_iff, String.eqb_eq.
    rewrite <- some_of_type_In. destruct (some_of_type elements "plant"); intuition congruence.
  - rewrite (advice_iff (mkRule (fun _ _ placed roomType =>
               String.eqb roomType "bedroom" && some_of_type placed "mirror")
               msg_mirror)) by in_rules.
    cbn [fires]. rewrite andb_true_iff, String.eqb_eq, some_of_type_In. tauto.
  - intros Hbed.
    destruct (result_fields (filter (fun it => negb (String.eqb (type it) "mirror")) elements)
                roomType) as (_ & _ & _ & _ & _ & Hf' & _).
    rewrite Hf'. rewrite <- includes_In in Hbed.
    unfold calculateFunctionalScore.
    rewrite includes_removed.
    rewrite !(includes_without elements _ "mirror") by discriminate.
    destruct (includes (map type elements) "bed"); [now elim Hbed|].
    rewrite !andb_false_r. reflexivity.
Qed.

Lemma X10_bedroom_warnings_witness :
  functionalScore (calculateDesignFengShui [item "mirror"; item "lamp"] "bedroom") =
  functionalScore (calculateDesignFengShui [item "lamp"] "bedroom").
Proof.
  refine (proj2 (proj2 (X10_bedroom_warnings [item "mirror"; item "lamp"] "bedroom")) _).
  cbn. intuition discriminate.
Defined.

(** ** The values the scores take *)

Lemma weighted_bounds b e s f :
  0 <= b <= 100 -> 50 <= e <= 100 -> 50 <= s <= 90 -> 70 <= f <= 95 ->
  39 <= weighted_round b e s f <= 97.
Proof.
  intros Hb He Hs Hf. unfold weighted_round, Qround_half_up. split.
  - rewrite <- (Qfloor_Z 39). apply Qfloor_resp_le.
    unfold Qle, Qplus, Qmult, inject_Z. cbn [Qnum Qden]. lia.
  - rewrite <- (Qfloor_Z 97). apply Qfloor_resp_le.
    unfold Qle, Qplus, Qmult, inject_Z. cbn [Qnum Qden]. lia.
Qed.

Lemma no_catalogued_includes elements t :
  (exists d, get t = Own d) -> count catalogued elements = 0 ->
  includes (map type elements) t = false.
Proof.
  intros [d Hd] H0. destruct (includes (map type elements) t) eqn:E; [|reflexivity].
  exfalso. unfold includes in E. apply existsb_exists in E. destruct E as (x & Hin & Hx).
  apply String.eqb_eq in Hx. subst x. apply in_map_iff in Hin. destruct Hin as (it & Ht & Hin).
  assert (Hex : existsb catalogued elements = true).
  { apply existsb_exists. exists it. split; [exact Hin|].
    unfold catalogued. rewrite Ht, Hd. reflexivity. }
  apply exists_catalogued_count in Hex. lia.
Qed.

Lemma no_catalogued_functional elements roomType : count catalogued elements = 0 ->
  calculateFunctionalScore elements roomType = num 70.
Proof.
  intros H0. unfold calculateFunctionalScore.
  rewrite !(no_catalogued_includes elements _) by (try exact H0; eexists; reflexivity).
  destruct (String.eqb roomType "bedroom"); [reflexivity|].
  destruct (String.eqb roomType "living"); [reflexivity|].
  destruct (String.eqb roomType "office"); reflexivity.
Qed.

(** X11. Of an array of items without inherited types, the element
    balance is an integer between 0 and 100, the energy score is one of
    50, 60, 80, 100, the space score one of 90, 85, 75, 65, 50, the
    functional score one of 70, 75, 80, 85, 90, 95, and the overall score
    an integer between 39 and 97.  A room where nothing is catalogued
    scores at most 49 overall and is rated "Needs Improvement". *)
Theorem X11_score_ranges (elements : list PlacedItem) (roomType : string) :
  Z.of_nat (List.length elements) < 2 ^ 32 ->
  forallb (fun it => negb (inherits it)) elements = true ->
  let r := calculateDesignFengShui elements roomType in
  in_0_100 (elementBalance r) /\
  In (energyScore r) (map num energy_values) /\
  In (spacialScore r) (map num spacial_values) /\
  In (functionalScore r) (map num functional_values) /\
  exists n, overallScore r = num n /\ 39 <= n <= 97 /\
    (count catalogued elements = 0 ->
     n <= 49 /\ getRating (overallScore r) = mkRating "Needs Improvement" "#ef4444").
Proof.
  intros Hlen Hplain. cbv zeta.
  destruct (elementBalance_of_plain_list elements roomType Hlen Hplain)
    as [Hbeq (b & Hb100 & Hbv)]. cbv zeta in Hbeq.
  destruct (result_fields elements roomType) as (_ & _ & _ & He & Hs & Hf & _ & Ho).
  destruct (energy_values_spec (snd (fold_left tally elements
              (mkCounts 0 0 0 0 0 None, mkEnergy 0 0 None)))) as (e & Hine & Hev).
  destruct (spacial_values_spec elements) as (s & Hins & Hsv).
  destruct (functional_values_spec elements roomType) as (f & Hinf & Hfv).
  split; [exists b; auto|].
  split; [rewrite He, Hev; now apply in_map|].
  split; [rewrite Hs, Hsv; now apply in_map|].
  split; [rewrite Hf, Hfv; now apply in_map|].
  destruct (Z.eq_dec (count catalogued elements) 0) as [H0|H0].
  - (* nothing the catalogue knows *)
    rewrite H0 in Hbeq. cbn [Z.eqb] in Hbeq.
    pose proof (tally_counts elements (mkCounts 0 0 0 0 0 None) (mkEnergy 0 0 None)) as Ht.
    cbv zeta in Ht. destruct Ht as (_ & _ & _ & _ & _ & Hyin & Hyang).
    cbn [yin yang] in Hyin, Hyang. rewrite Z.add_0_l in Hyin, Hyang.
    pose proof (count_catalogued_energy elements) as Hsum.
    assert (Hen : energyScore (calculateDesignFengShui elements roomType) = num 50).
    { rewrite He. unfold calculateEnergyBalanceScore.
      destruct (Z.eqb_spec (yin (snd (fold_left tally elements
                  (mkCounts 0 0 0 0 0 None, mkEnergy 0 0 None)))
                + yang (snd (fold_left tally elements
                  (mkCounts 0 0 0 0 0 None, mkEnergy 0 0 None)))) 0); [reflexivity|lia]. }
    rewrite Ho, Hbeq, Hen, Hs, Hsv, Hf, (no_catalogued_functional _ _ H0).
    unfold spacial_values in Hins. cbn [In] in Hins.
    destruct Hins as [<-|[<-|[<-|[<-|[<-|[]]]]]].
    + exists 49. split; [vm_compute; reflexivity|]. split; [lia|]. intros _. split; [lia|].
      vm_compute. reflexivity.
    + exists 48. split; [vm_compute; reflexivity|]. split; [lia|]. intros _. split; [lia|].
      vm_compute. reflexivity.
    + exists 45. split; [vm_compute; reflexivity|]. split; [lia|]. intros _. split; [lia|].
      vm_compute. reflexivity.
    + exists 43. split; [vm_compute; reflexivity|]. split; [lia|]. intros _. split; [lia|].
      vm_compute. reflexivity.
    + exists 39. split; [vm_compute; reflexivity|]. split; [lia|]. intros _. split; [lia|].
      vm_compute. reflexivity.
  - rewrite Ho, Hbv, He, Hev, Hs, Hsv, Hf, Hfv.
    fold (overall_of b e s f).
    destruct (overall_exact_holds b e s f (in_balance_values b Hb100) Hine Hins Hinf)
      as [Hov _].
    exists (weighted_round b e s f). split; [exact Hov|]. split; [|intros; lia].
    apply weighted_bounds; auto.
    + unfold energy_values in Hine. cbn [In] in Hine. lia.
    + unfold spacial_values in Hins. cbn [In] in Hins. lia.
    + unfold functional_values in Hinf. cbn [In] in Hinf. lia.
Qed.

Lemma X11_score_ranges_witness :
  In (functionalScore (calculateDesignFengShui [item "piano"; item "desk"] "office"))
     (map num functional_values).
Proof.
  refine (proj1 (proj2 (proj2 (proj2
            (X11_score_ranges [item "piano"; item "desk"] "office" _ _))))).
  - vm_compute. reflexivity.
  - reflexivity.
Defined.

(** * The rating *)

(** A threshold below a number is below every larger number. *)
Lemma le_trans_threshold mc ec a b :
  (S754_finite false mc ec <= a)%js = true -> (a <= b)%js = true ->
  (S754_finite false mc ec <= b)%js = true.
Proof.
  unfold le, SFleb.
  destruct a as [sa|sa| |sa ma ea]; try destruct sa; cbn [SFcompare]; try discriminate;
    destruct b as [sb|sb| |sb mb eb]; try destruct sb; cbn [SFcompare]; try discriminate;
    try reflexivity.
  fold (Z.compare ec ea).
  change (Pos.compare_cont Eq mc ma) with (Zpos mc ?= Zpos ma).
  change (Pos.compare_cont Eq ma mb) with (Zpos ma ?= Zpos mb).
  change (Pos.compare_cont Eq mc mb) with (Zpos mc ?= Zpos mb).
  destruct (Z.compare_spec ec ea); destruct (Z.compare_spec ea eb);
    destruct (Z.compare_spec ec eb); try lia; try discriminate; try reflexivity;
    destruct (Z.compare_spec (Zpos mc) (Zpos ma));
    destruct (Z.compare_spec (Zpos ma) (Zpos mb));
    destruct (Z.compare_spec (Zpos mc) (Zpos mb)); try lia; try discriminate; reflexivity.
Qed.

Lemma getRating_monotone (a b : number) :
  (a <= b)%js = true -> stars (getRating a) <= stars (getRating b).
Proof.
  intros Hab. unfold getRating.
  change (num 90) with (S754_finite false 6333186975989760 (-46)).
  change (num 75) with (S754_finite false 5277655813324800 (-46)).
  change (num 60) with (S754_finite false 8444249301319680 (-47)).
  pose proof (fun H => le_trans_threshold 6333186975989760 (-46) a b H Hab) as H90.
  pose proof (fun H => le_trans_threshold 5277655813324800 (-46) a b H Hab) as H75.
  pose proof (fun H => le_trans_threshold 8444249301319680 (-47) a b H Hab) as H60.
  destruct (le (S754_finite false 6333186975989760 (-46)) a);
    destruct (le (S754_finite false 5277655813324800 (-46)) a);
    destruct (le (S754_finite false 8444249301319680 (-47)) a);
    try rewrite (H90 eq_refl); try rewrite (H75 eq_refl); try rewrite (H60 eq_refl);
    clear H90 H75 H60;
    destruct (le (S754_finite false 6333186975989760 (-46)) b);
    destruct (le (S754_finite false 5277655813324800 (-46)) b);
    destruct (le (S754_finite false 8444249301319680 (-47)) b);
    cbn; lia.
Qed.

Lemma getRating_bands (n : Z) : - 2 ^ 53 < n < 2 ^ 53 ->
  getRating (num n) =
    (if 90 <=? n then mkRating "Excellent Feng Shui!" "#10b981"
     else if 75 <=? n then mkRating "Good Balance" "#3b82f6"
     else if 60 <=? n then mkRating "Fair - Room for Improvement" "#f59e0b"
     else mkRating "Needs Improvement" "#ef4444").
Proof. intros Hn. unfold getRating. rewrite !le_num by lia. reflexivity. Qed.

(** X12. [getRating] never gives a larger number a worse rating; on the
    integers it cuts at 90, 75 and 60, a score of 90 or more being
    "Excellent Feng Shui!", 75 to 89 "Good Balance", 60 to 74 "Fair - Room
    for Improvement" and anything below "Needs Improvement"; [NaN] is
    rated "Needs Improvement". *)
Theorem X12_getRating_bands_and_order (a b : number) (n : Z) :
  ((a <= b)%js = true -> stars (getRating a) <= stars (getRating b)) /\
  (- 2 ^ 53 < n < 2 ^ 53 ->
   getRating (num n) =
     (if 90 <=? n then mkRating "Excellent Feng Shui!" "#10b981"
      else if 75 <=? n then mkRating "Good Balance" "#3b82f6"
      else if 60 <=? n then mkRating "Fair - Room for Improvement" "#f59e0b"
      else mkRating "Needs Improvement" "#ef4444")) /\
  getRating NaN = mkRating "Needs Improvement" "#ef4444".
Proof.
  split; [apply getRating_monotone|]. split; [apply getRating_bands|reflexivity].
Qed.

Lemma X12_getRating_bands_and_order_witness :
  stars (getRating (num 59)) <= stars (getRating (num 60)) /\
  getRating (num 74) = mkRating "Fair - Room for Improvement" "#f59e0b".
Proof.
  split.
  - apply (proj1 (X12_getRating_bands_and_order (num 59) (num 60) 0)). vm_compute. reflexivity.
  - apply (proj1 (proj2 (X12_getRating_bands_and_order NaN NaN 74))). lia.
Defined.

(** * The photo mode *)

(** ** Rounding a product that is below an integer *)

(** The round bit after at least one shift is the last bit that left. *)
Lemma shr_iter_round k m : 0 <= m ->
  shr_r (Nat.iter (S k) shr_1 (Build_shr_record m false false)) = Z.odd (m / 2 ^ Z.of_nat k).
Proof.
  intros Hm. rewrite Nat.iter_succ.
  pose proof (shr_iter_spec k m Hm) as H. cbv zeta in H. destruct H as [H _].
  destruct (Nat.iter k shr_1 _) as [m' r' s']. cbn [shr_m] in H.
  assert (0 <= m') by (subst m'; apply Z.div_pos; [lia|apply Z.pow_pos_nonneg; lia]).
  rewrite shr_1_spec by assumption. cbn [shr_r]. now subst m'.
Qed.

(** A mantissa whose dropped bits are below the half is rounded down. *)
Lemma shr_round_down m e n : 0 <= m -> 0 <= n -> 2 * (m mod 2 ^ n) < 2 ^ n ->
  let mrs := fst (shr (Build_shr_record m false false) e n) in
  round_nearest_even (shr_m mrs) (loc_of_shr_record mrs) = m / 2 ^ n.
Proof.
  intros Hm Hn Hrem. cbv zeta.
  pose proof (shr_spec m e n Hm) as Hs.
  destruct n as [|p|p]; try lia.
  - cbn. now rewrite Z.div_1_r.
  - unfold shr in *. cbn [fst]. rewrite iter_pos_nat in *.
    replace (Z.max (Zpos p) 0) with (Zpos p) in Hs by lia.
    destruct Hs as (Hsm & _ & _).
    destruct (Pos.to_nat p) as [|k] eqn:Ek; [lia|].
    pose proof (shr_iter_round k m Hm) as Hr.
    assert (Hk : Zpos p = Z.of_nat k + 1) by lia.
    assert (Hpk : 0 < 2 ^ Z.of_nat k) by (apply Z.pow_pos_nonneg; lia).
    assert (Hpow : 2 ^ Zpos p = 2 * 2 ^ Z.of_nat k).
    { rewrite Hk, Z.pow_add_r by lia. change (2 ^ 1) with 2. lia. }
    assert (Heven : Z.odd (m / 2 ^ Z.of_nat k) = false).
    { pose proof (Z.div_mod m (2 ^ Zpos p) ltac:(lia)) as Hdm.
      pose proof (Z.mod_pos_bound m (2 ^ Zpos p) ltac:(lia)) as Hmb.
      replace (m / 2 ^ Z.of_nat k) with (2 * (m / 2 ^ Zpos p)).
      - rewrite Z.odd_mul. reflexivity.
      - apply Z.div_unique with (m mod 2 ^ Zpos p); lia. }
    rewrite Heven in Hr.
    destruct (Nat.iter (S k) shr_1 _) as [m' r' s']. cbn [shr_m shr_r] in *.
    subst r'. rewrite Hsm. destruct s'; reflexivity.
Qed.

(** The product of a number below 1 by an integer [c] that is not a power
    of two stays below [c] after rounding. *)
Lemma mul_below c k m e : 2 ^ k < c < 2 ^ (k + 1) -> 0 <= k <= 52 ->
  Zpos m < 2 ^ 53 -> e <= -53 ->
  let x := binary_round_aux prec emax false (Zpos m * (c * 2 ^ (52 - k))) (e + (k - 52))
             loc_Exact in
  x = S754_zero false \/
  exists m3 e3, x = S754_finite false m3 e3 /\ e3 <= 0 /\ Zpos m3 < c * 2 ^ (- e3).
Proof.
  intros Hc Hk Hm He. cbv zeta.
  set (C := c * 2 ^ (52 - k)).
  assert (Hp52 : 0 < 2 ^ (52 - k)) by (apply Z.pow_pos_nonneg; lia).
  assert (Hpk : 0 < 2 ^ k) by (apply Z.pow_pos_nonneg; lia).
  assert (H52 : 2 ^ 52 = 2 ^ k * 2 ^ (52 - k)).
  { rewrite <- Z.pow_add_r by lia. f_equal. lia. }
  assert (H53 : 2 ^ 53 = 2 ^ (k + 1) * 2 ^ (52 - k)).
  { rewrite <- Z.pow_add_r by lia. f_equal. lia. }
  assert (HC : 2 ^ 52 < C < 2 ^ 53) by (unfold C; nia).
  destruct (Zpos m * C) as [|P|P] eqn:EP; try nia.
  assert (HdP : 53 <= Zpos (digits2_pos P) <= 106).
  { pose proof (digits_lower P) as Hl. pose proof (digits_upper P) as Hu.
    set (dP := Zpos (digits2_pos P)) in *.
    assert (0 < dP) by (unfold dP; lia). split.
    - destruct (Z.le_gt_cases 53 dP); auto.
      assert (2 ^ dP <= 2 ^ 52) by (apply Z.pow_le_mono_r; lia). nia.
    - destruct (Z.le_gt_cases dP 106); auto.
      assert (2 ^ 106 <= 2 ^ (dP - 1)) by (apply Z.pow_le_mono_r; lia).
      change (2 ^ 106) with (2 ^ 53 * 2 ^ 53) in *. nia. }
  set (dP := Zpos (digits2_pos P)) in *.
  set (eP := e + (k - 52)).
  set (E := fexp prec emax (dP + eP)).
  assert (HE : E = Z.max (dP + eP - 53) (-1074)) by (unfold E; apply fexp_eq).
  set (n := E - eP).
  assert (Hn : 0 <= n) by (unfold n, eP in *; lia).
  assert (HEk : E <= k - 52) by (unfold eP in *; lia).
  set (B := c * 2 ^ (- E)).
  assert (HpE : 0 < 2 ^ (- E)) by (apply Z.pow_pos_nonneg; lia).
  assert (Hpn : 0 < 2 ^ n) by (apply Z.pow_pos_nonneg; lia).
  assert (HBC : C <= B).
  { unfold B, C. apply Z.mul_le_mono_nonneg_l; [lia|]. apply Z.pow_le_mono_r; lia. }
  assert (HBn : B * 2 ^ n = C * 2 ^ (- e)).
  { unfold B, C. rewrite <- !Z.mul_assoc, <- !Z.pow_add_r by (unfold n, eP; lia).
    do 2 f_equal. unfold n, eP. lia. }
  assert (Hkey : Zpos P * 2 ^ 53 <= (2 ^ 53 - 1) * (B * 2 ^ n)).
  { rewrite HBn, <- EP.
    assert (Ht : 0 < 2 ^ (- e - 53)) by (apply Z.pow_pos_nonneg; lia).
    assert (Hpe : 2 ^ (- e) = 2 ^ 53 * 2 ^ (- e - 53)).
    { rewrite <- Z.pow_add_r by lia. f_equal. lia. }
    rewrite Hpe. nia. }
  unfold binary_round_aux, shr_fexp. cbn [Zdigits2 shr_record_of_loc].
  fold dP. fold eP. fold E. fold n.
  pose proof (shr_spec (Zpos P) eP n ltac:(lia)) as H1.
  pose proof (shr_round_down (Zpos P) eP n ltac:(lia) Hn) as Hdown. cbv zeta in Hdown.
  destruct (shr _ eP n) as [mrs' e'] eqn:Eshr. cbn [fst] in Hdown.
  replace (Z.max n 0) with n in H1 by lia.
  destruct H1 as (H1m & H1e & _).
  replace e' with E by (unfold n in H1e; lia). clear H1e.
  pose proof (Z.div_mod (Zpos P) (2 ^ n) ltac:(lia)) as Hdm.
  pose proof (Z.mod_pos_bound (Zpos P) (2 ^ n) Hpn) as Hmb.
  set (m2 := round_nearest_even (shr_m mrs') (loc_of_shr_record mrs')) in *.
  assert (Hm2 : 0 <= m2 <= B - 1).
  { pose proof (round_nearest_even_le (shr_m mrs') (loc_of_shr_record mrs')) as Hr.
    fold m2 in Hr. rewrite H1m in Hr.
    assert (0 <= Zpos P / 2 ^ n) by (apply Z.div_pos; lia).
    split; [lia|].
    assert (Zpos P / 2 ^ n <= B - 1) by nia.
    destruct (Z.eq_dec (Zpos P / 2 ^ n) (B - 1)) as [Heq|Hne]; [|lia].
    rewrite Hdown; [lia|]. nia. }
  clearbody m2. clear Hdown H1m Eshr mrs'.
  destruct m2 as [|p|p]; try lia.
  - left. cbn [Zdigits2 shr_record_of_loc].
    pose proof (shr_spec 0 E (fexp prec emax (0 + E) - E) ltac:(lia)) as H2.
    destruct (shr _ E _) as [mrs'' e''].
    destruct H2 as (H2m & _). rewrite H2m, Z.div_0_l by (apply Z.pow_nonzero; lia).
    reflexivity.
  - right. cbn [Zdigits2 shr_record_of_loc].
    assert (Hd2 : Zpos (digits2_pos p) + E <= k + 1).
    { pose proof (digits_lower p) as Hl.
      destruct (Z.le_gt_cases (Zpos (digits2_pos p) + E) (k + 1)); auto.
      assert (2 ^ (k + 1 - E) <= 2 ^ (Zpos (digits2_pos p) - 1))
        by (apply Z.pow_le_mono_r; lia).
      assert (B < 2 ^ (k + 1 - E)).
      { unfold B. replace (k + 1 - E) with (k + 1 + - E) by lia.
        rewrite Z.pow_add_r by lia. apply Z.mul_lt_mono_pos_r; lia. }
      lia. }
    set (E2 := fexp prec emax (Zpos (digits2_pos p) + E)) in *.
    assert (HE2 : E2 <= k - 52) by (unfold E2; rewrite fexp_eq; lia).
    pose proof (shr_spec (Zpos p) E (E2 - E) ltac:(lia)) as H2.
    destruct (shr _ E (E2 - E)) as [mrs'' e''].
    destruct H2 as (H2m & H2e & _).
    set (j := Z.max (E2 - E) 0) in *.
    assert (Hj : 0 <= j) by (unfold j; lia).
    assert (Hpj : 0 < 2 ^ j) by (apply Z.pow_pos_nonneg; lia).
    assert (He'' : e'' <= 0) by (unfold j in H2e; lia).
    assert (Hb3 : Zpos p / 2 ^ j < c * 2 ^ (- e'')).
    { apply Z.div_lt_upper_bound; [lia|].
      replace (2 ^ j * (c * 2 ^ (- e''))) with B; [lia|].
      unfold B. replace (- E) with (j + - e'') by lia.
      rewrite Z.pow_add_r by lia. ring. }
    rewrite H2m.
    destruct (Zpos p / 2 ^ j) as [|q|q] eqn:Eq.
    + exfalso. (* a mantissa of at most 53 digits is not shifted away *)
      pose proof (digits_lower p) as Hl.
      assert (Hjd : j <= Zpos (digits2_pos p) - 1).
      { unfold j, E2. rewrite fexp_eq. unfold dP, eP in *. lia. }
      assert (2 ^ j <= 2 ^ (Zpos (digits2_pos p) - 1)) by (apply Z.pow_le_mono_r; lia).
      assert (1 <= Zpos p / 2 ^ j) by (apply Z.div_le_lower_bound; lia). lia.
    + replace (e'' <=? emax - prec) with true
        by (symmetry; apply Z.leb_le; unfold emax, prec; lia).
      exists q, e''. repeat split; assumption.
    + pose proof (Z.div_pos (Zpos p) (2 ^ j) ltac:(lia) Hpj). lia.
Qed.

Lemma random_cases r : is_random r = true ->
  (exists s, r = S754_zero s) \/
  exists m e, r = S754_finite false m e /\ Zpos m < 2 ^ 53 /\ e <= -53.
Proof.
  unfold is_random. intros H.
  apply andb_true_iff in H. destruct H as [H Hlt].
  apply andb_true_iff in H. destruct H as [Hv Hle].
  destruct r as [s|s| |s m e].
  - left. now exists s.
  - destruct s; discriminate.
  - discriminate.
  - right. destruct s; [discriminate|]. exists m, e. split; [reflexivity|].
    cbn [valid_binary] in Hv. unfold bounded, canonical_mantissa in Hv.
    apply andb_true_iff in Hv. destruct Hv as [Hc _].
    apply Z.eqb_eq in Hc. rewrite fexp_eq in Hc.
    pose proof (digits_lower m) as Hl. pose proof (digits_upper m) as Hu.
    set (d := Zpos (digits2_pos m)) in *.
    assert (Hd : d <= 53) by lia.
    assert (2 ^ d <= 2 ^ 53) by (apply Z.pow_le_mono_r; lia).
    split; [lia|].
    change (num 1) with (S754_finite false 4503599627370496 (-52)) in Hlt.
    unfold lt, SFltb in Hlt. rewrite compare_finite in Hlt.
    destruct (Z.compare_spec e (-52)) as [E|E|E]; try discriminate; [|lia].
    exfalso. subst e. assert (d = 53) by lia.
    assert (2 ^ 52 <= Zpos m) by (replace 52 with (d - 1) by lia; exact Hl).
    destruct (Z.compare_spec (Zpos m) 4503599627370496); try discriminate.
    change (2 ^ 52) with 4503599627370496 in *. lia.
Qed.

Lemma floor_below c m e : 0 < c -> e <= 0 -> Zpos m < c * 2 ^ (- e) ->
  exists n, 0 <= n < c /\ Math_floor (S754_finite false m e) = num n.
Proof.
  intros Hc He Hm. cbn [Math_floor cond_Zopp].
  assert (Hp : 0 < 2 ^ (- e)) by (apply Z.pow_pos_nonneg; lia).
  destruct (Z.leb_spec 0 e) as [H0|H0].
  - replace e with 0 in * by lia. change (2 ^ 0) with 1. change (2 ^ (- 0)) with 1 in Hm.
    rewrite Z.mul_1_r in *. exists (Zpos m). split; [lia|]. reflexivity.
  - exists (Zpos m / 2 ^ (- e)). split.
    + split; [apply Z.div_pos; lia|apply Z.div_lt_upper_bound; lia].
    + destruct (Z.eqb_spec (Zpos m / 2 ^ (- e)) 0) as [E|E]; [rewrite E|]; reflexivity.
Qed.

(** [Math.floor(Math.random() * c)] is one of [0], ..., [c - 1]. *)
Lemma floor_scaled c k r : 2 ^ k < c < 2 ^ (k + 1) -> 0 <= k <= 52 ->
  num c = S754_finite false (Z.to_pos (c * 2 ^ (52 - k))) (k - 52) ->
  is_random r = true ->
  exists n, 0 <= n < c /\
    (Math_floor (r * num c)%js = num n \/
     n = 0 /\ Math_floor (r * num c)%js = S754_zero true).
Proof.
  intros Hc Hk Hnum Hr.
  assert (Hpk : 0 < 2 ^ k) by (apply Z.pow_pos_nonneg; lia).
  assert (Hp52 : 0 < 2 ^ (52 - k)) by (apply Z.pow_pos_nonneg; lia).
  rewrite Hnum.
  destruct (random_cases r Hr) as [[s ->]|(m & e & -> & Hm & He)].
  - exists 0. split; [lia|]. destruct s; [right|left]; auto.
  - unfold mul, SFmul. cbn [xorb].
    rewrite Pos2Z.inj_mul, Z2Pos.id by nia.
    destruct (mul_below c k m e Hc Hk Hm He) as [H|(m3 & e3 & H & He3 & Hm3)];
      cbv zeta in H; rewrite H.
    + exists 0. split; [lia|]. left. reflexivity.
    + destruct (floor_below c m3 e3 ltac:(lia) He3 Hm3) as (n & Hn & Hfl).
      exists n. split; [exact Hn|]. now left.
Qed.

(** ** The scores of [simulatePhotoAnalysis] *)

Lemma small_cases n k : 0 <= n < Z.of_nat k -> In n (map Z.of_nat (seq 0 k)).
Proof. intros H. apply in_map_iff. exists (Z.to_nat n). split; [lia|]. apply in_seq. lia. Qed.

Lemma floor_minus_7 n : 0 <= n < 15 -> sub (num n) (num 7) = num (n - 7).
Proof.
  intros H. apply (small_cases n 15) in H.
  assert (Hall : forallb (fun n => same_number (sub (num n) (num 7)) (num (n - 7)))
                         (map Z.of_nat (seq 0 15)) = true) by (vm_compute; reflexivity).
  rewrite forallb_forall in Hall. apply same_number_eq. now apply Hall.
Qed.

Lemma max_50 v : 50 <= v < 2 ^ 53 -> Math_max (num 50) (num v) = num v.
Proof.
  intros Hv. unfold Math_max. rewrite compare_num by lia.
  destruct (Z.compare_spec 50 v) as [<-|_|?]; try lia; reflexivity.
Qed.

Lemma min_100 v : 0 <= v < 2 ^ 53 -> Math_min (num 100) (num v) = num (Z.min 100 v).
Proof.
  intros Hv. unfold Math_min. rewrite compare_num by lia.
  destruct (Z.compare_spec 100 v) as [<-|?|?].
  - reflexivity.
  - now rewrite Z.min_l by lia.
  - now rewrite Z.min_r by lia.
Qed.

Lemma category n base : 0 <= base < 2 ^ 52 ->
  (exists v, 0 <= v < 20 /\ (n = num v \/ v = 0 /\ n = S754_zero true)) ->
  exists v, base <= v <= base + 19 /\ add n (num base) = num v.
Proof.
  intros Hb (v & Hv & [->|[-> ->]]).
  - exists (v + base). split; [lia|]. apply add_num_num; lia.
  - exists base. split; [lia|]. destruct base as [|b|b]; try lia; [reflexivity|].
    rewrite num_pos by lia. reflexivity.
Qed.

Lemma simulatePhotoAnalysis_unfolded w :
  simulatePhotoAnalysis w =
  (let r := random_tape w in
   let photoCount := Z.of_nat (List.length (filter has_photo (uploadedPhotos (globals w)))) in
   mkPhoto (Math_min (num 100)
              (Math_max (num 50)
                 ((num 60 + num photoCount * num 5)
                  + (Math_floor (r 0%nat * num 15) - num 7))%js))
           (Math_floor (r 1%nat * num 20) + num 75)%js
           (Math_floor (r 2%nat * num 20) + num 70)%js
           (Math_floor (r 3%nat * num 20) + num 65)%js
           (Math_floor (r 4%nat * num 20) + num 70)%js
           (Math_floor (r 5%nat * num 20) + num 60)%js
           [ "Consider adding more natural light sources";
             "Balance the five elements with appropriate colors";
             "Ensure clear pathways for qi energy flow";
             "Position furniture to face auspicious directions";
             "Add plants for wood element energy" ],
   mkWorld (globals w) (fun n => random_tape w (6 + n)%nat)).
Proof. reflexivity. Qed.

(** X13. Whatever [Math.random] returns in [0, 1), the photo mode's
    overall score is the integer [min(100, 53 + 5 * photos + v)] for some
    [v] from 0 to 14, where [photos] counts the slots that hold a photo:
    the lower clamp at 50 never acts.  The five category scores are
    integers in 75..94, 70..89, 65..84, 70..89 and 60..79.  With two photos
    or more the rating is never "Needs Improvement".  The call draws six
    random numbers and leaves the globals as they are. *)
Theorem X13_photo_scores_in_range (w : World) :
  (forall i, (i < 6)%nat -> is_random (random_tape w i) = true) ->
  let p := Z.of_nat (List.length (filter has_photo (uploadedPhotos (globals w)))) in
  p < 2 ^ 32 ->
  let a := fst (simulatePhotoAnalysis w) in
  let w' := snd (simulatePhotoAnalysis w) in
  (exists v, 0 <= v <= 14 /\ photo_overallScore a = num (Z.min 100 (53 + 5 * p + v))) /\
  (exists n, 75 <= n <= 94 /\ lighting a = num n) /\
  (exists n, 70 <= n <= 89 /\ spaceFlow a = num n) /\
  (exists n, 65 <= n <= 84 /\ colorHarmony a = num n) /\
  (exists n, 70 <= n <= 89 /\ furniture a = num n) /\
  (exists n, 60 <= n <= 79 /\ declutter a = num n) /\
  (2 <= p -> 1 <= stars (getRating (photo_overallScore a))) /\
  globals w' = globals w /\
  (forall i, random_tape w' i = random_tape w (6 + i)%nat).
Proof.
  intros Hr p Hp a w'. subst a w'. rewrite simulatePhotoAnalysis_unfolded. cbv zeta.
  cbn [fst snd photo_overallScore lighting spaceFlow colorHarmony furniture declutter
       globals random_tape].
  fold p.
  assert (H20 : forall i, (i < 6)%nat ->
            exists v, 0 <= v < 20 /\
              (Math_floor (random_tape w i * num 20)%js = num v \/
               v = 0 /\ Math_floor (random_tape w i * num 20)%js = S754_zero true)).
  { intros i Hi. apply (floor_scaled 20 4); [cbn; lia|lia|reflexivity|auto]. }
  assert (Hov : exists v, 0 <= v <= 14 /\
            Math_min (num 100)
              (Math_max (num 50)
                 ((num 60 + num p * num 5) + (Math_floor (random_tape w 0%nat * num 15) - num 7))%js)
            = num (Z.min 100 (53 + 5 * p + v))).
  { assert (Hp0 : 0 <= p) by (unfold p; lia).
    destruct (floor_scaled 15 3 (random_tape w 0%nat)) as (v & Hv & Hfl);
      [cbn; lia|lia|reflexivity|apply Hr; lia|].
    exists v. split; [lia|].
    assert (Hvar : (Math_floor (random_tape w 0%nat * num 15) - num 7)%js = num (v - 7)).
    { destruct Hfl as [->|[-> ->]]; [apply floor_minus_7; lia|reflexivity]. }
    rewrite Hvar, mul_num_num, (add_num_num 60), add_num_int by lia.
    rewrite max_50, min_100 by lia. do 2 f_equal. lia. }
  split; [exact Hov|].
  split; [destruct (category _ 75 ltac:(lia) (H20 1%nat ltac:(lia))) as (v & ? & ?); exists v; split; [lia|assumption]|].
  split; [destruct (category _ 70 ltac:(lia) (H20 2%nat ltac:(lia))) as (v & ? & ?); exists v; split; [lia|assumption]|].
  split; [destruct (category _ 65 ltac:(lia) (H20 3%nat ltac:(lia))) as (v & ? & ?); exists v; split; [lia|assumption]|].
  split; [destruct (category _ 70 ltac:(lia) (H20 4%nat ltac:(lia))) as (v & ? & ?); exists v; split; [lia|assumption]|].
  split; [destruct (category _ 60 ltac:(lia) (H20 5%nat ltac:(lia))) as (v & ? & ?); exists v; split; [lia|assumption]|].
  split; [|split; [reflexivity|reflexivity]].
  intros H2. destruct Hov as (v & Hv & ->).
  rewrite (getRating_bands (Z.min 100 (53 + 5 * p + v))) by lia.
  destruct (Z.leb_spec 90 (Z.min 100 (53 + 5 * p + v))); [cbn; lia|].
  destruct (Z.leb_spec 75 (Z.min 100 (53 + 5 * p + v))); [cbn; lia|].
  destruct (Z.leb_spec 60 (Z.min 100 (53 + 5 * p + v))); [cbn; lia|]. lia.
Qed.

Lemma X13_photo_scores_in_range_witness :
  exists n, 75 <= n <= 94 /\
    lighting (fst (simulatePhotoAnalysis
      (mkWorld (mkGlobals (Some "upload") []
                  [("north", Some "a"); ("south", Some "b"); ("east", None)])
               (fun _ => lit_0_7)))) = num n.
Proof.
  refine (proj1 (proj2 (X13_photo_scores_in_range
            (mkWorld (mkGlobals (Some "upload") []
                        [("north", Some "a"); ("south", Some "b"); ("east", None)])
                     (fun _ => lit_0_7)) _ _))).
  - intros i _. vm_compute. reflexivity.
  - vm_compute. reflexivity.
Defined.

(** * The page *)

(** The operations of the page at work, on a state with two placed
    items: on a document that has every element they complete, on one
    that has none they throw, [removeElement] after it has updated the
    array and [clearCanvas] before. *)
Example page_at_work :
  let bed := mkItem "element_1" "bed" (num 10) (num 20) "B" in
  let lamp := mkItem "element_2" "lamp" (num 30) (num 40) "L" in
  let g := mkGlobals (Some "design") [bed; lamp] (uploadedPhotos initial_globals) in
  snd (execute full_page (removeElement "element_1" g) []) =
    Completed tt (mkGlobals (Some "design") [lamp] (uploadedPhotos initial_globals)) /\
  snd (execute empty_page (removeElement "element_1" g) []) =
    TypeError (mkGlobals (Some "design") [lamp] (uploadedPhotos initial_globals)) /\
  snd (execute full_page (clearCanvas g) []) =
    Completed tt (mkGlobals (Some "design") [] (uploadedPhotos initial_globals)) /\
  snd (execute empty_page (clearCanvas g) []) = TypeError g /\
  snd (execute full_page (backToSelection g) []) = Completed tt initial_globals /\
  fst (execute full_page (checkUploadComplete g) []) =
    [Asked (getElementById "analyzePhotosBtn") (Some 1%nat);
     Asked (assign 1%nat ["disabled"] (Bool true)) tt] /\
  fst (execute full_page (updatePlacedItemsList
         (mkGlobals None [mkItem "e1" "bed" (num 0) (num 0) "B"] [])) []) =
    [Asked (getElementById "placedItemsList") (Some 1%nat);
     Asked (assign 1%nat ["innerHTML"]
              (Str (newline ++ "        <div class=" ++ quot ++ "placed-item" ++ quot ++ ">"
                    ++ newline ++ "            <span class=" ++ quot ++ "item-icon" ++ quot
                    ++ ">B</span>"
                    ++ newline ++ "            <span class=" ++ quot ++ "item-name" ++ quot
                    ++ ">bed</span>"
                    ++ newline ++ "            <button class=" ++ quot ++ "remove-item-btn"
                    ++ quot ++ " onclick=" ++ quot ++ "removeElement('e1')" ++ quot
                    ++ ">×</button>"
                    ++ newline ++ "        </div>" ++ newline ++ "    "))) tt].
Proof. vm_compute. repeat split. Qed.

(** What holds of every run holds of each. *)
Lemma runs_execute {A} (P : list Event -> Outcome A -> Prop) document (s : Script A) :
  forall past, runs P s past ->
  P (fst (execute document s past)) (snd (execute document s past)).
Proof.
  induction s as [o|X call k IH]; intros past H; cbn [execute runs] in *.
  - exact H.
  - apply IH, H.
Qed.

Lemma runs_weaken {A} (P Q : list Event -> Outcome A -> Prop) s :
  (forall tr o, P tr o -> Q tr o) -> forall past, runs P s past -> runs Q s past.
Proof.
  intros HPQ. induction s as [o|X call k IH]; intros past; cbn [runs]; auto.
Qed.

(** A run of [c] followed by [f]: the run of [c], then, when it
    completes, the run of [f]. *)
Lemma runs_bind {A B} (P : list Event -> Outcome B -> Prop) (s : Script A) (f : A -> Page B) :
  forall past,
  runs (fun tr o => match o with
                    | Completed a g => runs P (f a g) tr
                    | TypeError g => P tr (TypeError g)
                    end) s past ->
  runs P (script_bind s f) past.
Proof.
  induction s as [[a g|g]|X call k IH]; intros past; cbn [runs script_bind]; auto.
Qed.

Lemma in_snoc {X} (x y : X) l : In x l -> In x (l ++ [y])%list.
Proof. intros H. apply in_or_app. now left. Qed.

Lemma in_last {X} (x : X) l : In x (l ++ [x])%list.
Proof. apply in_or_app. right. now left. Qed.

Create HintDb page.
#[global] Hint Resolve in_snoc in_last : page.

(** The run of a sequence, by its first part. *)
Ltac bind_step :=
  cbn [page_bind script_bind];
  match goal with
  | |- runs ?P (page_bind ?c ?f ?g) ?past =>
      change (runs P (script_bind (c g) f) past); apply (runs_bind P (c g) f past)
  | |- runs ?P (script_bind ?s ?f) ?past => apply (runs_bind P s f past)
  end.

(** What was asked stays asked. *)
Ltac continued := unfold extends in *; intros; auto 20 with page.

(** [updatePlacedItemsList] and [updateItemCount] leave the globals as
    they are; when [updateItemCount] completes, the counter shows the
    length of the array. *)
Lemma updatePlacedItemsList_runs g past (P : list Event -> Outcome unit -> Prop) :
  (forall tr, extends past tr -> P tr (TypeError g)) ->
  (forall tr, extends past tr -> P tr (Completed tt g)) ->
  runs P (updatePlacedItemsList g) past.
Proof.
  intros Hthrow Hdone. unfold updatePlacedItemsList.
  cbn [page_bind script_bind ask get_globals runs]. intros list.
  destruct (Nat.eqb (List.length (placedElements g)) 0);
    destruct list as [list|]; cbn [deref page_ret throw script_bind ask runs].
  - intros []. apply Hdone. continued.
  - apply Hthrow. continued.
  - intros []. apply Hdone. continued.
  - apply Hthrow. continued.
Qed.

Lemma updateItemCount_runs g past (P : list Event -> Outcome unit -> Prop) :
  (forall tr, extends past tr -> P tr (TypeError g)) ->
  (forall tr, extends past tr ->
     assigned tr "itemCount" ["textContent"]
              (Num (num (Z.of_nat (List.length (placedElements g))))) ->
     P tr (Completed tt g)) ->
  runs P (updateItemCount g) past.
Proof.
  intros Hthrow Hdone. unfold updateItemCount.
  cbn [page_bind script_bind ask get_globals runs]. intros [n|];
    cbn [deref page_ret throw script_bind ask get_globals runs].
  - intros []. apply Hdone; [continued|].
    exists n. split; continued.
  - apply Hthrow. continued.
Qed.

Lemma assigned_continued past tr id property v :
  extends past tr -> assigned past id property v -> assigned tr id property v.
Proof. intros Hext (n & H1 & H2). exists n. split; continued. Qed.

(** X14. [removeElement(id)] drops from [placedElements] every item with
    that id and keeps the others in order, whatever the document answers
    and even when a later write to the page throws; the two other globals
    stay.  When the call completes, the counter [#itemCount] has been given
    the new length, and if nothing is left the canvas guide has been
    shown. *)
Theorem X14_removeElement_filters_by_id (elementId : string) (g : Globals) :
  let kept := filter (fun el => negb (String.eqb (id el) elementId)) (placedElements g) in
  runs (fun tr o =>
          globals_of o = mkGlobals (currentMode g) kept (uploadedPhotos g) /\
          (completed o ->
           assigned tr "itemCount" ["textContent"] (Num (num (Z.of_nat (List.length kept)))) /\
           (kept = [] ->
            exists guide : Node,
              In (Asked (querySelector ".canvas-guide") (Some guide)) tr /\
              In (Asked (assign guide ["style"; "display"] (Str "flex")) tt) tr)))
       (removeElement elementId g) [].
Proof.
  intros kept. unfold removeElement.
  set (g' := mkGlobals (currentMode g) kept (uploadedPhotos g)).
  assert (Hrest : forall past,
    runs (fun tr o =>
            globals_of o = g' /\
            (completed o ->
             assigned tr "itemCount" ["textContent"]
                      (Num (num (Z.of_nat (List.length kept)))) /\
             (kept = [] ->
              exists guide : Node,
                In (Asked (querySelector ".canvas-guide") (Some guide)) tr /\
                In (Asked (assign guide ["style"; "display"] (Str "flex")) tt) tr)))
         (script_bind (updatePlacedItemsList g')
            (fun _ => (updateItemCount ;;
                       g <- get_globals ;;
                       if Nat.eqb (List.length (placedElements g)) 0 then
                         guide <- ask (querySelector ".canvas-guide") ;;
                         guide <- deref guide ;;
                         ask (assign guide ["style"; "display"] (Str "flex"))
                       else page_ret tt)%page))
         past).
  { intros past. apply runs_bind. apply updatePlacedItemsList_runs.
    - intros tr _. split; [reflexivity|intros []].
    - intros tr _. cbn [page_bind]. apply runs_bind. apply updateItemCount_runs.
      + intros tr' _. split; [reflexivity|intros []].
      + intros tr' _ Hcount. cbn [page_bind get_globals script_bind placedElements g'].
        destruct kept as [|it kept'] eqn:Ek; cbn [List.length Nat.eqb].
        * cbn [page_bind script_bind ask runs]. intros [guide|];
            cbn [deref page_ret throw script_bind ask runs].
          -- intros []. split; [reflexivity|]. intros _. split.
             ++ eapply assigned_continued; [|exact Hcount]. continued.
             ++ intros _. exists guide. split; continued.
          -- split; [reflexivity|intros []].
        * cbn [page_ret runs]. split; [reflexivity|]. intros _. split; [exact Hcount|].
          discriminate. }
  cbn [page_bind script_bind ask runs]. intros [element|];
    cbn [page_ret script_bind ask get_globals set_globals runs].
  - intros []. apply Hrest.
  - apply Hrest.
Qed.

(** Removing every node of a list: nothing throws, and each node is
    removed. *)
Lemma forEach_remove_runs {B} (P : list Event -> Outcome B -> Prop) nodes g
    (f : unit -> Page B) : forall past,
  (forall tr, extends past tr ->
     (forall n, In n nodes -> In (Asked (invoke n ["remove"] []) tt) tr) ->
     runs P (f tt g) tr) ->
  runs P (script_bind (forEach nodes (fun el => ask (invoke el ["remove"] [])) g) f) past.
Proof.
  induction nodes as [|n nodes IH]; intros past H.
  - cbn [forEach page_ret script_bind]. apply H; [continued|intros n []].
  - cbn [forEach page_bind script_bind ask runs]. intros [].
    apply IH. intros tr Hext Hall. apply H.
    + continued.
    + intros n' [<-|Hin]; [continued|auto].
Qed.

(** X15. [clearCanvas()] on a page without [#roomCanvas] throws at once
    and leaves [placedElements] as it was.  Otherwise every node the
    canvas lists as a placed element is removed and [placedElements] is
    empty from then on, also when a later write throws; when the call
    completes, the counter shows 0 and the results panel is hidden. *)
Theorem X15_clearCanvas_empties_or_throws_first (g : Globals) :
  runs (fun tr o =>
          (tr = [Asked (getElementById "roomCanvas") None] /\ o = TypeError g) \/
          (globals_of o = mkGlobals (currentMode g) [] (uploadedPhotos g) /\
           (exists (canvas : Node) (nodes : list Node),
              In (Asked (getElementById "roomCanvas") (Some canvas)) tr /\
              In (Asked (querySelectorAll canvas ".placed-element") nodes) tr /\
              forall n, In n nodes -> In (Asked (invoke n ["remove"] []) tt) tr) /\
           (completed o ->
            assigned tr "itemCount" ["textContent"] (Num (num 0)) /\
            assigned tr "designResults" ["style"; "display"] (Str "none"))))
       (clearCanvas g) [].
Proof.
  unfold clearCanvas. cbn [page_bind script_bind ask runs]. intros [canvas|];
    cbn [deref page_ret throw script_bind ask runs app]; [|left; split; reflexivity].
  intros nodes. apply forEach_remove_runs. intros tr0 Hext0 Hremoved.
  cbn [page_bind get_globals set_globals script_bind].
  set (g' := mkGlobals (currentMode g) [] (uploadedPhotos g)).
  assert (Hseen : forall tr, extends tr0 tr ->
            exists (canvas : Node) (nodes : list Node),
              In (Asked (getElementById "roomCanvas") (Some canvas)) tr /\
              In (Asked (querySelectorAll canvas ".placed-element") nodes) tr /\
              forall n, In n nodes -> In (Asked (invoke n ["remove"] []) tt) tr).
  { intros tr Hext. exists canvas, nodes. split; [|split].
    - apply Hext, Hext0. cbn. auto.
    - apply Hext, Hext0. cbn. auto.
    - intros n Hn. apply Hext. auto. }
  apply runs_bind. apply updatePlacedItemsList_runs.
  { intros tr Hext. right. split; [reflexivity|]. split; [auto|intros []]. }
  intros tr1 Hext1. apply runs_bind. apply updateItemCount_runs.
  { intros tr Hext. right. split; [reflexivity|].
    split; [apply Hseen; continued|intros []]. }
  intros tr2 Hext2 Hcount. cbn [placedElements g' List.length Z.of_nat] in Hcount.
  cbn [page_bind script_bind ask runs]. intros [guide|];
    cbn [deref page_ret throw script_bind ask runs].
  2:{ right. split; [reflexivity|]. split; [|intros []]. apply Hseen. continued. }
  intros []. intros [results|]; cbn [deref page_ret throw script_bind ask runs].
  2:{ right. split; [reflexivity|]. split; [|intros []]. apply Hseen. continued. }
  intros []. right. split; [reflexivity|]. split.
  - apply Hseen. continued.
  - intros _. split.
    + eapply assigned_continued; [|exact Hcount]. continued.
    + exists results. split; continued.
Qed.

(** The loop of [resetUpload]: nothing throws, the globals stay. *)
Lemma reset_slot_runs (P : list Event -> Outcome unit -> Prop) dir g past :
  (forall tr, extends past tr -> P tr (Completed tt g)) ->
  runs P (reset_slot dir g) past.
Proof.
  intros H. unfold reset_slot. cbn [page_bind script_bind ask runs].
  intros [input|] [preview|] [label|]; cbn [page_bind page_ret script_bind ask runs];
    repeat (let x := fresh in intros x; destruct x);
    apply H; continued.
Qed.

Lemma forEach_reset_slot_runs (P : list Event -> Outcome unit -> Prop) dirs g : forall past,
  (forall tr, extends past tr -> P tr (Completed tt g)) ->
  runs P (forEach dirs reset_slot g) past.
Proof.
  induction dirs as [|dir dirs IH]; intros past H.
  - cbn [forEach page_ret runs]. apply H. continued.
  - cbn [forEach page_bind]. apply runs_bind. apply reset_slot_runs.
    intros tr Hext. apply IH. intros tr' Hext'. apply H. continued.
Qed.

Lemma resetUpload_runs g past (P : list Event -> Outcome unit -> Prop) :
  let g' := mkGlobals (currentMode g) (placedElements g) (uploadedPhotos initial_globals) in
  (forall tr, extends past tr -> P tr (TypeError g')) ->
  (forall tr, extends past tr ->
     assigned tr "analyzePhotosBtn" ["disabled"] (Bool true) -> P tr (Completed tt g')) ->
  runs P (resetUpload g) past.
Proof.
  intros g' Hthrow Hdone. unfold resetUpload.
  cbn [page_bind get_globals set_globals script_bind]. change [("north", @None string); ("south", None); ("east", None); ("west", None);
          ("floor", None)] with (uploadedPhotos initial_globals). fold g'.
  apply runs_bind. apply forEach_reset_slot_runs. intros tr5 Hext.
  cbn [page_bind script_bind ask runs].
  intros [btn|]; cbn [deref page_ret throw script_bind ask runs].
  2:{ apply Hthrow. continued. }
  intros []. intros [results|]; cbn [deref page_ret throw script_bind ask runs].
  2:{ apply Hthrow. continued. }
  intros []. apply Hdone.
  - continued.
  - exists btn. split; continued.
Qed.

Lemma clearCanvas_runs g past (P : list Event -> Outcome unit -> Prop) :
  let g' := mkGlobals (currentMode g) [] (uploadedPhotos g) in
  (forall tr, extends past tr -> P tr (TypeError g)) ->
  (forall tr, extends past tr -> P tr (TypeError g')) ->
  (forall tr, extends past tr -> P tr (Completed tt g')) ->
  runs P (clearCanvas g) past.
Proof.
  intros g' Hthrow Hthrow' Hdone. unfold clearCanvas.
  cbn [page_bind script_bind ask runs]. intros [canvas|];
    cbn [deref page_ret throw script_bind ask runs].
  2:{ apply Hthrow. continued. }
  intros nodes. apply forEach_remove_runs. intros tr0 Hext0 _.
  cbn [page_bind get_globals set_globals script_bind]. fold g'.
  apply runs_bind. apply updatePlacedItemsList_runs.
  { intros tr Hext. apply Hthrow'. continued. }
  intros tr1 Hext1. apply runs_bind. apply updateItemCount_runs.
  { intros tr Hext. apply Hthrow'. continued. }
  intros tr2 Hext2 _.
  cbn [page_bind script_bind ask runs]. intros [guide|];
    cbn [deref page_ret throw script_bind ask runs].
  2:{ apply Hthrow'. continued. }
  intros []. intros [results|]; cbn [deref page_ret throw script_bind ask runs].
  2:{ apply Hthrow'. continued. }
  intros []. apply Hdone. continued.
Qed.

Lemma selectMode_runs mode g past (P : list Event -> Outcome unit -> Prop) :
  let g' := mkGlobals (Some mode) (placedElements g) (uploadedPhotos g) in
  (forall tr, P tr (TypeError g')) ->
  (forall tr, P tr (Completed tt g')) ->
  runs P (selectMode mode g) past.
Proof.
  intros g' Hthrow Hdone. unfold selectMode.
  cbn [page_bind get_globals set_globals script_bind ask runs]. fold g'.
  intros [n|]; cbn [deref page_ret throw script_bind ask runs]; [|apply Hthrow].
  intros []. destruct (String.eqb mode "design"); [|destruct (String.eqb mode "upload")];
    cbn [page_bind page_ret script_bind ask runs]; try apply Hdone;
    intros [m|]; cbn [deref page_ret throw script_bind ask runs]; try apply Hthrow;
    intros []; apply Hdone.
Qed.

Lemma backToSelection_runs g past :
  runs (fun _ o => currentMode (globals_of o) = None /\
                   (completed o -> globals_of o = initial_globals))
       (backToSelection g) past.
Proof.
  unfold backToSelection.
  cbn [page_bind get_globals set_globals script_bind ask runs].
  intros [n1|]; cbn [deref page_ret throw script_bind ask runs]; [|split; [reflexivity|intros []]].
  intros []. intros [n2|]; cbn [deref page_ret throw script_bind ask runs];
    [|split; [reflexivity|intros []]].
  intros []. intros [n3|]; cbn [deref page_ret throw script_bind ask runs];
    [|split; [reflexivity|intros []]].
  intros []. bind_step.
  apply clearCanvas_runs; cbn [currentMode uploadedPhotos].
  - intros tr _. split; [reflexivity|intros []].
  - intros tr _. split; [reflexivity|intros []].
  - intros tr _. apply resetUpload_runs; cbn [currentMode placedElements].
    + intros tr' _. split; [reflexivity|intros []].
    + intros tr' _ _. split; reflexivity.
Qed.

(** X16. [selectMode(mode)] records the mode, known or not, and touches
    no other global.  [backToSelection()] sets the mode back to [null]
    even when it throws, and when it completes the three globals are as
    the script declares them: no mode, no placed item, five empty photo
    slots.  So selecting a mode and going back, when both complete, leaves
    the initial state. *)
Theorem X16_backToSelection_resets_globals (mode : string) (g : Globals) :
  runs (fun _ o =>
          currentMode (globals_of o) = Some mode /\
          placedElements (globals_of o) = placedElements g /\
          uploadedPhotos (globals_of o) = uploadedPhotos g)
       (selectMode mode g) [] /\
  runs (fun _ o =>
          currentMode (globals_of o) = None /\
          (completed o -> globals_of o = initial_globals))
       (backToSelection g) [] /\
  runs (fun _ o => completed o -> globals_of o = initial_globals)
       ((selectMode mode ;; backToSelection)%page g) [].
Proof.
  split; [|split].
  - apply selectMode_runs; intros tr; repeat split.
  - apply backToSelection_runs.
  - bind_step. apply selectMode_runs.
    + intros tr [].
    + intros tr. eapply runs_weaken; [|apply backToSelection_runs]. cbv beta. tauto.
Qed.

(** X17. [checkUploadComplete()] changes no global; when it completes it
    has made two calls, the lookup of the analyse button and the
    assignment of its [disabled] property, which is [true] exactly when
    fewer than three photo slots hold a photo.  [resetUpload()] empties the
    five slots even when it throws, and when it completes the button is
    disabled. *)
Theorem X17_upload_button_needs_three_photos (g : Globals) :
  let uploadCount := Z.of_nat (List.length (filter has_photo (uploadedPhotos g))) in
  runs (fun tr o =>
          globals_of o = g /\
          (completed o ->
           exists btn : Node,
             tr = [Asked (getElementById "analyzePhotosBtn") (Some btn);
                   Asked (assign btn ["disabled"] (Bool (uploadCount <? 3))) tt]))
       (checkUploadComplete g) [] /\
  runs (fun tr o =>
          globals_of o = mkGlobals (currentMode g) (placedElements g) (uploadedPhotos initial_globals) /\
          (completed o -> assigned tr "analyzePhotosBtn" ["disabled"] (Bool true)))
       (resetUpload g) [].
Proof.
  cbv zeta. split.
  - unfold checkUploadComplete. cbn [page_bind get_globals script_bind ask runs].
    intros [btn|]; cbn [deref page_ret throw script_bind ask runs app]; [|split; [reflexivity|intros []]].
    fold has_photo.
    destruct (Z.leb_spec 3 (Z.of_nat (List.length (filter has_photo (uploadedPhotos g)))));
      destruct (Z.ltb_spec (Z.of_nat (List.length (filter has_photo (uploadedPhotos g)))) 3);
      try lia; cbn [ask runs app]; intros []; (split; [reflexivity|]); intros _;
      exists btn; reflexivity.
  - apply resetUpload_runs.
    + intros tr _. split; [reflexivity|intros []].
    + intros tr _ H. split; [reflexivity|]. intros _. exact H.
Qed.
